(** * Azure AI dashboard backend: aggregation pipeline

    A shallow embedding of [AzureAIRealtimeService]
    (azure_realtime_backend.js): model identification, pricing and usage
    parsing, the merge and summary computations, the three fetchers with
    their fallbacks, the token cache, the snapshot build and the refresh
    timer.

    Conventions of the embedding.
    - JavaScript strings are [string]s of code units in the Latin-1 range.
    - An amount of money is a rational ([Q]): the decimal as it is written
      in a response body or in the source; token and request counts are
      integers ([Z]).  Sums of amounts are taken exactly.  Where the code
      rounds a result down to a count or prints it as a whole percentage,
      the rounding of its arithmetic decides which integer comes out, and
      the computation is modelled as the code performs it, in IEEE 754
      binary64 ([Double]): the amounts are read as the nearest binary64
      values and every operation is rounded.  The non-finite results that
      the code can produce from finite operands (a division by zero, an
      overflow) are explicit in [number].
    - [async] methods are computations in a state-and-exception monad over
      the service object; an [await] is sequencing, a rejected promise is a
      thrown exception.  What the outside world answers (HTTP responses, the
      clock, [Math.random]) is read from an environment record. *)

From Stdlib Require Import ZArith QArith Qround Qabs Qpower String Ascii List Bool Lia Lqa DecimalString.
From stdpp Require Import base strings gmap.
Import ListNotations.
Open Scope string_scope.

(* ================================================================= *)
(** ** Strings *)

Module JsString.

Definition is_between (lo hi n : N) : bool := ((lo <=? n) && (n <=? hi))%N.

(** [String.prototype.toLowerCase] on one Latin-1 code unit: A-Z, and the
    accented capitals U+00C0..U+00DE except the multiplication sign. *)
Definition lower_char (c : ascii) : ascii :=
  let n := N_of_ascii c in
  if is_between 65 90 n || (is_between 192 222 n && negb (n =? 215)%N)
  then ascii_of_N (n + 32) else c.

Fixpoint toLowerCase (s : string) : string :=
  match s with
  | EmptyString => EmptyString
  | String c s' => String (lower_char c) (toLowerCase s')
  end.

(** [s.startsWith(p)], implemented as stripping the prefix. *)
Fixpoint strip_prefix (p s : string) : option string :=
  match p, s with
  | EmptyString, _ => Some s
  | String a p', String b s' =>
      if Ascii.eqb a b then strip_prefix p' s' else None
  | String _ _, EmptyString => None
  end.

Definition startsWith (p s : string) : bool :=
  match strip_prefix p s with Some _ => true | None => false end.

(** [hay.includes(needle)]. *)
Fixpoint includes (needle hay : string) : bool :=
  startsWith needle hay
  || match hay with
     | EmptyString => false
     | String _ hay' => includes needle hay'
     end.

(** Template literal [`${a} ${b}`]. *)
Definition join_space (a b : string) : string := a ++ " " ++ b.

End JsString.

(* ================================================================= *)
(** ** Regular expressions

    The fragment used by the pattern table: literals, [.*] and negative
    lookahead over a lookahead-free body, matched case-insensitively (flag
    [i]) and unanchored.  [test] decides whether some match exists, which
    is what [RegExp.prototype.test] returns; greediness does not change
    that. *)

Module Regex.
Import JsString.

(** Body of a lookahead. *)
Inductive satom : Type :=
| SLit (s : string)
| SAnyStar.

Inductive atom : Type :=
| Lit (s : string)
| AnyStar
| NotAhead (body : list satom).

Definition regex : Type := list atom.

(** [.] matches any code unit except a line terminator. *)
Definition is_line_terminator (c : ascii) : bool :=
  let n := N_of_ascii c in ((n =? 10) || (n =? 13))%N.

(** Canonicalisation of the [i] flag, for the ASCII letters the patterns
    are written in. *)
Definition fold_case (c : ascii) : ascii :=
  let n := N_of_ascii c in
  if is_between 65 90 n then ascii_of_N (n + 32) else c.

(** A string without capital ASCII letters. *)
Fixpoint folded (s : string) : Prop :=
  match s with
  | EmptyString => True
  | String c s' => fold_case c = c /\ folded s'
  end.

(** Match the literal [p] case-insensitively at the start of [s]. *)
Fixpoint strip_lit (p s : string) : option string :=
  match p, s with
  | EmptyString, _ => Some s
  | String a p', String b s' =>
      if Ascii.eqb (fold_case a) (fold_case b) then strip_lit p' s' else None
  | String _ _, EmptyString => None
  end.

Fixpoint smatch_here (p : list satom) : string -> bool :=
  match p with
  | [] => fun _ => true
  | SLit l :: rest =>
      fun s => match strip_lit l s with
               | Some s' => smatch_here rest s'
               | None => false
               end
  | SAnyStar :: rest =>
      fix star (s : string) : bool :=
        smatch_here rest s
        || match s with
           | EmptyString => false
           | String c s' => negb (is_line_terminator c) && star s'
           end
  end.

(** Does [p] match a prefix of [s]? *)
Fixpoint match_here (p : regex) : string -> bool :=
  match p with
  | [] => fun _ => true
  | Lit l :: rest =>
      fun s => match strip_lit l s with
               | Some s' => match_here rest s'
               | None => false
               end
  | AnyStar :: rest =>
      fix star (s : string) : bool :=
        match_here rest s
        || match s with
           | EmptyString => false
           | String c s' => negb (is_line_terminator c) && star s'
           end
  | NotAhead body :: rest =>
      fun s => negb (smatch_here body s) && match_here rest s
  end.

(** [pattern.test(s)]: a match starting at some position of [s]. *)
Fixpoint test (p : regex) (s : string) : bool :=
  match_here p s
  || match s with
     | EmptyString => false
     | String _ s' => test p s'
     end.

End Regex.

(* ================================================================= *)
(** ** Model identification *)

Inductive direction : Type := input | output.

(** An entry of the pattern table: [{ pattern, model, type }]. *)
Record rule : Type := mkRule {
  pattern : Regex.regex;
  model : string;
  type : direction
}.

(** The result [{ model, type }] of [extractModelFromMeter]. *)
Module ModelInfo.
Record t : Type := mk { model : string; type : direction }.
End ModelInfo.

Import Regex.

(** The pattern table of [extractModelFromMeter], in source order. *)
Definition patterns : list rule :=
  [ mkRule [Lit "gpt-4o-mini"; AnyStar; Lit "input"] "gpt-4o-mini" input;
    mkRule [Lit "gpt-4o-mini"; AnyStar; Lit "output"] "gpt-4o-mini" output;
    mkRule [Lit "gpt-4o"; NotAhead [SLit "-mini"]; AnyStar; Lit "input"]
           "gpt-4o" input;
    mkRule [Lit "gpt-4o"; NotAhead [SLit "-mini"]; AnyStar; Lit "output"]
           "gpt-4o" output;
    mkRule [Lit "gpt-4"; AnyStar; Lit "turbo"; AnyStar; Lit "input"]
           "gpt-4-turbo" input;
    mkRule [Lit "gpt-4"; AnyStar; Lit "turbo"; AnyStar; Lit "output"]
           "gpt-4-turbo" output;
    mkRule [Lit "gpt-4"; NotAhead [SAnyStar; SLit "turbo"]; NotAhead [SLit "o"];
            AnyStar; Lit "input"] "gpt-4" input;
    mkRule [Lit "gpt-4"; NotAhead [SAnyStar; SLit "turbo"]; NotAhead [SLit "o"];
            AnyStar; Lit "output"] "gpt-4" output;
    mkRule [Lit "gpt-35"; AnyStar; Lit "turbo"; AnyStar; Lit "input"]
           "gpt-3.5-turbo" input;
    mkRule [Lit "gpt-35"; AnyStar; Lit "turbo"; AnyStar; Lit "output"]
           "gpt-3.5-turbo" output ].

(** The [for ... of] loop over the table: the first rule whose pattern
    matches decides. *)
Fixpoint first_match (rules : list rule) (searchText : string)
  : option ModelInfo.t :=
  match rules with
  | [] => None
  | r :: rest =>
      if Regex.test (pattern r) searchText
      then Some (ModelInfo.mk (model r) (type r))
      else first_match rest searchText
  end.

Definition searchText_of (meterName productName : string) : string :=
  JsString.toLowerCase (JsString.join_space meterName productName).

Definition extractModelFromMeter (meterName productName : string)
  : option ModelInfo.t :=
  first_match patterns (searchText_of meterName productName).

(** [extractModelFromMeterName]: substring tests in source order.  A falsy
    meter name (here: the empty string) is rejected first. *)
Definition extractModelFromMeterName (meterName : string) : option string :=
  if String.eqb meterName "" then None else
  let meter := JsString.toLowerCase meterName in
  if JsString.includes "gpt-4o-mini" meter then Some "gpt-4o-mini"
  else if JsString.includes "gpt-4o" meter then Some "gpt-4o"
  else if JsString.includes "gpt-4-turbo" meter
          || JsString.includes "gpt-4 turbo" meter then Some "gpt-4-turbo"
  else if JsString.includes "gpt-4" meter then Some "gpt-4"
  else if JsString.includes "gpt-35-turbo" meter
          || JsString.includes "gpt-3.5-turbo" meter then Some "gpt-3.5-turbo"
  else None.

(* ================================================================= *)
(** ** Numbers *)

(** A JavaScript number as far as the code can tell values apart: a finite
    value, or one of the three non-finite results of a division. *)
Inductive number : Type :=
| Fin (q : Q)
| NaN
| PosInf
| NegInf.

Module JsNumber.

(** [a / b] on finite operands (the divisor is never a negative zero:
    costs pass through [parseFloat(cost) || 0]). *)
Definition div (a b : Q) : number :=
  if Qeq_bool b 0 then
    match Qcompare a 0 with
    | Eq => NaN
    | Gt => PosInf
    | Lt => NegInf
    end
  else Fin (a / b).

(** [x >= 0]. *)
Definition ge0 (x : number) : bool :=
  match x with
  | Fin q => Qle_bool 0 q
  | PosInf => true
  | NaN | NegInf => false
  end.

(** [value || 0]: zero is the only falsy finite number. *)
Definition or_zero (q : Q) : Q := if Qeq_bool q 0 then 0 else q.

Definition string_of_Z (z : Z) : string := NilZero.string_of_int (Z.to_int z).

(** [x.toFixed(0)].  The sign is split off, the magnitude is rounded to
    the nearest integer with ties upwards, and from 10^21 on the result is
    [String(x)], which the host supplies as [exponential]. *)
Definition toFixed0 (exponential : Q -> string) (x : number) : string :=
  match x with
  | NaN => "NaN"
  | PosInf => "Infinity"
  | NegInf => "-Infinity"
  | Fin q =>
      let s := if Qlt_le_dec q 0 then "-" else "" in
      let a := Qabs q in
      if Qle_bool (inject_Z (10 ^ 21)) a then exponential q
      else s ++ string_of_Z (Qfloor (a + (1 # 2)))
  end.

End JsNumber.

(** Binary64 arithmetic, round to nearest, ties to even.  A binary64 value
    is [m * 2^e] with [|m| <= 2^53] and [e >= -1074]; the values of
    magnitude [2^1024] and more are the infinities.  Negative zero is not
    told apart from zero: the code only compares it with [>= 0] and prints
    it with [toFixed], which treat the two alike. *)
Module Double.
Local Open Scope Q_scope.

Definition pow2 (e : Z) : Q := 2 ^ e.

(** The integer part of the binary logarithm of a positive rational. *)
Definition ilog2 (q : Q) : Z :=
  let k := (Z.log2 (Qnum q) - Z.log2 (Zpos (Qden q)))%Z in
  if Qle_bool (pow2 k) q then k else (k - 1)%Z.

(** The exponent of the spacing of the binary64 values around [q]: 53
    significant bits, and no spacing below that of the subnormals. *)
Definition ulp_exp (q : Q) : Z := Z.max (ilog2 (Qabs q) - 52) (-1074).

(** The nearest integer, the even one of two nearest. *)
Definition nearest_even (x : Q) : Z :=
  let f := Qfloor x in
  match Qcompare (x - inject_Z f) (1 # 2) with
  | Lt => f
  | Gt => (f + 1)%Z
  | Eq => if Z.even f then f else (f + 1)%Z
  end.

(** The binary64 value nearest to [q], for [q] below the overflow
    threshold. *)
Definition round (q : Q) : Q :=
  if Qeq_bool q 0 then 0
  else inject_Z (nearest_even (q / pow2 (ulp_exp q))) * pow2 (ulp_exp q).

(** The number that a decimal denotes: a literal of the source, or a number
    of a response body as [JSON.parse] and [parseFloat] read it.  The
    amounts of the model are finite. *)
Definition read (decimal : Q) : Q := round decimal.

(** [a / b] and [a * b] where the result is finite (the counts of the model
    are integers: a cost of 10^300 and more, whose token estimate the code
    computes as [Infinity], is outside it). *)
Definition quotient (a b : Q) : Q := round (a / b).
Definition product (a b : Q) : Q := round (a * b).

(** The result of an operation whose exact value is [q]. *)
Definition result (q : Q) : number :=
  let r := round q in
  if Qle_bool (pow2 1024) (Qabs r)
  then (if Qle_bool 0 r then PosInf else NegInf)
  else Fin r.

(** [a - b] on finite operands. *)
Definition sub (a b : Q) : number := result (a - b).

(** [x / b] for a finite [b] (never a negative zero: the costs pass
    through [parseFloat(cost) || 0]). *)
Definition div (x : number) (b : Q) : number :=
  match x with
  | Fin a =>
      if Qeq_bool b 0 then
        match Qcompare a 0 with
        | Eq => NaN
        | Gt => PosInf
        | Lt => NegInf
        end
      else result (a / b)
  | NaN => NaN
  | PosInf => if Qle_bool 0 b then PosInf else NegInf
  | NegInf => if Qle_bool 0 b then NegInf else PosInf
  end.

(** [x * k] for a finite positive [k]. *)
Definition mul (x : number) (k : Q) : number :=
  match x with
  | Fin a => result (a * k)
  | other => other
  end.

End Double.

(* ================================================================= *)
(** ** Data model *)

(** One entry of the retail-price catalogue ([rawData.Items[i]]). *)
Module Item.
Record t : Type := mk {
  meterName : string;
  productName : string;
  retailPrice : Q;
  armRegionName : string;
  currencyCode : string
}.
End Item.

(** The body of the catalogue response; [Items] may be absent, in which
    case [rawData.Items?.forEach] does nothing. *)
Record rawPricing : Type := mkRawPricing { Items : option (list Item.t) }.

(** The record [parsePricingData] builds per model.  A price is [None]
    while it still holds the initial [null]. *)
Module PricingModel.
Record t : Type := mk {
  name : string;
  inputPrice : option Q;
  outputPrice : option Q;
  region : string;
  currency : string;
  status : string;
  lastUpdated : string
}.

Definition set_inputPrice (p : Q) (m : t) : t :=
  mk (name m) (Some p) (outputPrice m) (region m) (currency m) (status m)
     (lastUpdated m).

Definition set_outputPrice (p : Q) (m : t) : t :=
  mk (name m) (inputPrice m) (Some p) (region m) (currency m) (status m)
     (lastUpdated m).
End PricingModel.

(** One row of the cost query:
    [[cost, date, currency, meterName, serviceName, quantity]]. *)
Module UsageRow.
Record t : Type := mk {
  cost : Q;
  date : string;
  currency : string;
  meterName : string;
  serviceName : string;
  quantity : Q
}.
End UsageRow.

Record rawUsage : Type := mkRawUsage { rows : option (list UsageRow.t) }.

Module DailyEntry.
Record t : Type := mk { date : string; cost : Q; tokens : Z }.
End DailyEntry.

Module Usage.
Record t : Type := mk {
  totalCost : Q;
  inputTokens : Z;
  outputTokens : Z;
  requests : Z;
  dailyData : list DailyEntry.t
}.

(** The literal [{ totalCost: 0, inputTokens: 0, outputTokens: 0,
    requests: 0, dailyData: [] }]. *)
Definition zero : t := mk 0 0 0 0 [].
End Usage.

Module HourBucket.
Record t : Type := mk { time : string; cost : Q; tokens : Q }.
End HourBucket.

(** [{ ...pricingModel, usage, trend, lastHour }]. *)
Module ModelSnapshot.
Record t : Type := mk {
  name : string;
  inputPrice : option Q;
  outputPrice : option Q;
  region : string;
  currency : string;
  status : string;
  lastUpdated : string;
  usage : Usage.t;
  trend : string;
  lastHour : list HourBucket.t
}.
End ModelSnapshot.

Module Summary.
Record t : Type := mk {
  totalCost : Q;
  totalTokens : Z;
  totalRequests : Z;
  avgCostPerRequest : number;
  topModel : option string;   (* [undefined] for an empty model list *)
  peakHour : option string    (* [hours[i]], [undefined] out of range *)
}.
End Summary.

Module Rates.
Record t : Type := mk {
  USD_CZK : Q;
  USD_EUR : option Q;         (* absent until the first successful fetch *)
  lastUpdate : Z
}.
End Rates.

(** The object [getDashboardData] returns.  [summary] is [None] for the
    empty object of the error result. *)
Module DashboardData.
Record t : Type := mk {
  models : list ModelSnapshot.t;
  summary : option Summary.t;
  exchangeRates : Rates.t;
  region : string;
  lastUpdate : string;
  status : string;
  error : option string
}.
End DashboardData.

(** What the host provides to the pure computations: the clock and its
    formatting, [Math.random] as the sequence of its successive results, and
    [String(x)] for magnitudes from 10^21 on. *)
Module Host.
Record t : Type := mk {
  now : Z;                          (* [Date.now()] *)
  isoString : string;               (* [new Date().toISOString()] *)
  baseTime : Z;                     (* now, with [setMinutes(0, 0, 0)] *)
  toLocaleTimeString : Z -> string;
  random : nat -> Q;
  exponential : Q -> string
}.
End Host.

(* ================================================================= *)
(** ** Parsing *)

(** The [Map] of [parsePricingData]: entries in insertion order, one per
    key. *)
Definition pricingMap : Type := list (string * PricingModel.t).

Fixpoint map_has (key : string) (m : pricingMap) : bool :=
  match m with
  | [] => false
  | (k, _) :: rest => String.eqb k key || map_has key rest
  end.

(** In-place change of the record stored under [key]. *)
Fixpoint map_update (key : string) (f : PricingModel.t -> PricingModel.t)
         (m : pricingMap) : pricingMap :=
  match m with
  | [] => []
  | (k, v) :: rest =>
      if String.eqb k key then (k, f v) :: rest
      else (k, v) :: map_update key f rest
  end.

(** [models.get(key)]. *)
Fixpoint map_get (key : string) (m : pricingMap) : option PricingModel.t :=
  match m with
  | [] => None
  | (k, v) :: rest => if String.eqb k key then Some v else map_get key rest
  end.

Definition fresh_model (h : Host.t) (key : string) (item : Item.t)
  : PricingModel.t :=
  PricingModel.mk key None None (Item.armRegionName item)
                  (Item.currencyCode item) "active" (Host.isoString h).

(** The body of the [forEach] callback of [parsePricingData]. *)
Definition pricing_step (h : Host.t) (models : pricingMap) (item : Item.t)
  : pricingMap :=
  match extractModelFromMeter (Item.meterName item) (Item.productName item) with
  | None => models
  | Some modelInfo =>
      let key := ModelInfo.model modelInfo in
      let models1 :=
        if map_has key models then models
        else (models ++ [(key, fresh_model h key item)])%list in
      match ModelInfo.type modelInfo with
      | input =>
          map_update key (PricingModel.set_inputPrice (Item.retailPrice item))
                     models1
      | output =>
          map_update key (PricingModel.set_outputPrice (Item.retailPrice item))
                     models1
      end
  end.

Definition both_prices (m : PricingModel.t) : bool :=
  match PricingModel.inputPrice m, PricingModel.outputPrice m with
  | Some _, Some _ => true
  | _, _ => false
  end.

Definition items_of (rawData : rawPricing) : list Item.t :=
  match Items rawData with Some l => l | None => [] end.

Definition parsePricingData (h : Host.t) (rawData : rawPricing)
  : list PricingModel.t :=
  filter both_prices
         (map snd (fold_left (pricing_step h) (items_of rawData) [])).

(** Some catalogue entry among [items] is identified as model [m] with
    direction [d]. *)
Definition observed (items : list Item.t) (m : string) (d : direction) : Prop :=
  exists item,
    In item items /\
    extractModelFromMeter (Item.meterName item) (Item.productName item)
    = Some (ModelInfo.mk m d).

(** What the map of [parsePricingData] satisfies after the entries [items]
    have been processed. *)
Definition priced_inv (items : list Item.t) (m : pricingMap) : Prop :=
  NoDup (map fst m) /\
  (forall k v, map_get k m = Some v ->
     PricingModel.name v = k /\
     (is_Some (PricingModel.inputPrice v) <-> observed items k input) /\
     (is_Some (PricingModel.outputPrice v) <-> observed items k output)) /\
  (forall k, map_get k m = None -> forall d, ~ observed items k d).

(** [avgPricePerToken[modelName] || 0.00001]. *)
Definition avgPricePerToken (modelName : string) : Q :=
  if String.eqb modelName "gpt-4o" then 6 # 1000000
  else if String.eqb modelName "gpt-4o-mini" then 375 # 1000000000
  else if String.eqb modelName "gpt-3.5-turbo" then 1 # 1000000
  else if String.eqb modelName "gpt-4-turbo" then 2 # 100000
  else if String.eqb modelName "gpt-4" then 45 # 1000000
  else 1 # 100000.

(** [Math.floor(parseFloat(cost) / avgPrice)]. *)
Definition estimateTokensFromCost (cost : Q) (modelName : string) : Z :=
  Qfloor (Double.quotient (Double.read cost)
                          (Double.read (avgPricePerToken modelName))).

(** The body of the [forEach] callback of [parseUsageData]. *)
Definition usage_step (usage : gmap string Usage.t) (row : UsageRow.t)
  : gmap string Usage.t :=
  match extractModelFromMeterName (UsageRow.meterName row) with
  | Some modelName =>
      if String.eqb (UsageRow.serviceName row) "Cognitive Services" then
        let u := default Usage.zero (usage !! modelName) in
        let estimatedTokens :=
          estimateTokensFromCost (UsageRow.cost row) modelName in
        <[ modelName :=
             Usage.mk
               (Usage.totalCost u + JsNumber.or_zero (UsageRow.cost row))
               (Usage.inputTokens u
                + Qfloor (Double.product (inject_Z estimatedTokens)
                                         (Double.read (7 # 10))))%Z
               (Usage.outputTokens u
                + Qfloor (Double.product (inject_Z estimatedTokens)
                                         (Double.read (3 # 10))))%Z
               (Usage.requests u
                + Qfloor (Double.quotient (inject_Z estimatedTokens) 1000))%Z
               (Usage.dailyData u
                ++ [DailyEntry.mk (UsageRow.date row)
                                  (JsNumber.or_zero (UsageRow.cost row))
                                  estimatedTokens])%list ]> usage
      else usage
  | None => usage
  end.

Definition rows_of (rawData : rawUsage) : list UsageRow.t :=
  match rows rawData with Some l => l | None => [] end.

Definition parseUsageData (rawData : rawUsage) : gmap string Usage.t :=
  fold_left usage_step (rows_of rawData) ∅.

(* ================================================================= *)
(** ** Merge and summary *)

(** [dailyData.slice(-2)]. *)
Definition slice_last2 {A : Type} (l : list A) : list A :=
  skipn (length l - 2) l.

Definition calculateTrend (exponential : Q -> string)
           (dailyData : list DailyEntry.t) : string :=
  if (length dailyData <? 2)%nat then "+0%"
  else
    match slice_last2 dailyData with
    | [r0; r1] =>
        let cost0 := Double.read (DailyEntry.cost r0) in
        let cost1 := Double.read (DailyEntry.cost r1) in
        let change :=
          Double.mul (Double.div (Double.sub cost1 cost0) cost0) 100 in
        (if JsNumber.ge0 change then "+" else "")
        ++ JsNumber.toFixed0 exponential change ++ "%"
    | _ => "+0%"   (* not reached: the slice of a list of two or more has two *)
    end.

(** The loop [for (let i = 4; i >= 0; i--)]; the [k]-th iteration has
    [i = 4 - k] and takes the [2k]-th and [2k+1]-th of the draws. *)
Definition generateHourlyTrend (h : Host.t) (draw : nat -> Q) (usage : Usage.t)
  : list HourBucket.t :=
  map (fun k : nat =>
         let i := (4 - Z.of_nat k)%Z in
         HourBucket.mk
           (Host.toLocaleTimeString h (Host.baseTime h - i * 15 * 60 * 1000)%Z)
           (Usage.totalCost usage * ((15 # 100) + draw (2 * k)%nat * (1 # 10)))
           (inject_Z (Usage.inputTokens usage + Usage.outputTokens usage)
            * ((15 # 100) + draw (2 * k + 1)%nat * (1 # 10))))
      (seq 0 5).

(** [pricingModels.map(...)]; the [k]-th model's series consumes the ten
    draws from position [10 k] on. *)
Definition combineModelData (h : Host.t) (pricingModels : list PricingModel.t)
           (usageData : gmap string Usage.t) : list ModelSnapshot.t :=
  imap (fun (k : nat) (pricingModel : PricingModel.t) =>
          let usage :=
            default Usage.zero (usageData !! PricingModel.name pricingModel) in
          let hourlyTrend :=
            generateHourlyTrend h (fun j => Host.random h (10 * k + j)%nat)
                                usage in
          let trend :=
            calculateTrend (Host.exponential h) (Usage.dailyData usage) in
          ModelSnapshot.mk
            (PricingModel.name pricingModel)
            (PricingModel.inputPrice pricingModel)
            (PricingModel.outputPrice pricingModel)
            (PricingModel.region pricingModel)
            (PricingModel.currency pricingModel)
            (PricingModel.status pricingModel)
            (PricingModel.lastUpdated pricingModel)
            usage trend hourlyTrend)
       pricingModels.

(** [reduce((top, model) => model.usage.totalCost > top.usage.totalCost
    ? model : top, ...)]. *)
Definition costlier (top m : ModelSnapshot.t) : ModelSnapshot.t :=
  if Qlt_le_dec (Usage.totalCost (ModelSnapshot.usage top))
                (Usage.totalCost (ModelSnapshot.usage m))
  then m else top.

Definition hours : list string := ["14:00"; "14:15"; "14:30"; "14:45"; "15:00"].

(** [hours[Math.floor(Math.random() * hours.length)]]; [r] is the value
    drawn.  The argument [models] is not used by the source either. *)
Definition calculatePeakHour (r : Q) (models : list ModelSnapshot.t)
  : option string :=
  let i := Qfloor (r * inject_Z (Z.of_nat (length hours))) in
  if (i <? 0)%Z then None else hours !! Z.to_nat i.

(** [r] is the value [Math.random()] returns inside [calculatePeakHour].
    The start value of the [topModel] reduction is [models[0]], or a
    placeholder without a name when the list is empty, in which case the
    reduction returns the placeholder and [.name] is [undefined]. *)
Definition calculateSummary (r : Q) (models : list ModelSnapshot.t)
  : Summary.t :=
  let totalCost :=
    fold_left (fun sum m => (sum + Usage.totalCost (ModelSnapshot.usage m))%Q)
              models 0%Q in
  let totalTokens :=
    fold_left (fun sum m =>
                 (sum + Usage.inputTokens (ModelSnapshot.usage m)
                  + Usage.outputTokens (ModelSnapshot.usage m))%Z)
              models 0%Z in
  let totalRequests :=
    fold_left (fun sum m => (sum + Usage.requests (ModelSnapshot.usage m))%Z)
              models 0%Z in
  Summary.mk
    totalCost totalTokens totalRequests
    (if (0 <? totalRequests)%Z
     then JsNumber.div totalCost (inject_Z totalRequests)
     else Fin 0)
    (match models with
     | [] => None
     | first :: _ => Some (ModelSnapshot.name (fold_left costlier models first))
     end)
    (calculatePeakHour r models).

(* ================================================================= *)
(** ** Fallback data *)

Definition getFallbackPricing (h : Host.t) (region : string)
  : list PricingModel.t :=
  [ PricingModel.mk "gpt-4o" (Some (25 # 10000000)) (Some (1 # 100000))
                    region "USD" "active" (Host.isoString h);
    PricingModel.mk "gpt-4o-mini" (Some (150 # 1000000000))
                    (Some (600 # 1000000000))
                    region "USD" "active" (Host.isoString h);
    PricingModel.mk "gpt-3.5-turbo" (Some (5 # 10000000)) (Some (15 # 10000000))
                    region "USD" "active" (Host.isoString h) ].

Definition getFallbackUsage : gmap string Usage.t :=
  <[ "gpt-4o" := Usage.mk (1585 # 100) 2450000 980000 3420 [] ]>
  (<[ "gpt-4o-mini" := Usage.mk (326 # 100) 8950000 3200000 15680 [] ]>
   (<[ "gpt-3.5-turbo" := Usage.mk (1560 # 100) 15600000 5200000 28450 [] ]>
    ∅)).

(* ================================================================= *)
(** ** The service object and its effects *)

Module Config.
Record t : Type := mk {
  region : string;
  subscriptionId : string;
  tenantId : string;
  clientId : string;
  clientSecret : string;
  autoRefreshSeconds : Z
}.
End Config.

(** An entry of [this.cache]: [{ data, timestamp }]. *)
Module CacheEntry.
Record t (A : Type) : Type := mk { data : A; timestamp : Z }.
Arguments mk {A} _ _.
Arguments data {A} _.
Arguments timestamp {A} _.
End CacheEntry.

(** A WebSocket client as [broadcastToClients] sees it. *)
Module Socket.
Record t : Type := mk {
  id : nat;
  isOpen : bool;          (* [ws.readyState === WebSocket.OPEN] *)
  sendThrows : bool       (* whether [ws.send] raises *)
}.
End Socket.

(** The external endpoints the service calls. *)
Inductive endpoint : Type :=
| PricesAPI
| TokenEndpoint
| CostManagementAPI
| ExchangeRateAPI.

(** The fields of [AzureAIRealtimeService].  [this.cache] is a [Map] used
    with three fixed keys, one field each.  [requestLog] and [wire] record
    the requests issued and the messages put on sockets. *)
Module Service.
Record t : Type := mk {
  config : Config.t;
  cache_pricing : option (CacheEntry.t (list PricingModel.t));
  cache_usage : option (CacheEntry.t (gmap string Usage.t));
  cache_azure_token : option (CacheEntry.t string);
  exchangeRates : Rates.t;
  lastUpdate : option DashboardData.t;
  subscribers : list Socket.t;
  requestLog : list endpoint;
  wire : list (nat * DashboardData.t)
}.

(** The state the constructor leaves. *)
Definition new (now : Z) (c : Config.t) : t :=
  mk c None None None (Rates.mk (245 # 10) None now) None [] [] [].

Definition set_cache_pricing v (s : t) : t :=
  mk (config s) (Some v) (cache_usage s) (cache_azure_token s)
     (exchangeRates s) (lastUpdate s) (subscribers s) (requestLog s) (wire s).
Definition set_cache_usage v (s : t) : t :=
  mk (config s) (cache_pricing s) (Some v) (cache_azure_token s)
     (exchangeRates s) (lastUpdate s) (subscribers s) (requestLog s) (wire s).
Definition set_cache_azure_token v (s : t) : t :=
  mk (config s) (cache_pricing s) (cache_usage s) (Some v)
     (exchangeRates s) (lastUpdate s) (subscribers s) (requestLog s) (wire s).
Definition set_exchangeRates v (s : t) : t :=
  mk (config s) (cache_pricing s) (cache_usage s) (cache_azure_token s)
     v (lastUpdate s) (subscribers s) (requestLog s) (wire s).
Definition set_lastUpdate v (s : t) : t :=
  mk (config s) (cache_pricing s) (cache_usage s) (cache_azure_token s)
     (exchangeRates s) (Some v) (subscribers s) (requestLog s) (wire s).
Definition set_subscribers v (s : t) : t :=
  mk (config s) (cache_pricing s) (cache_usage s) (cache_azure_token s)
     (exchangeRates s) (lastUpdate s) v (requestLog s) (wire s).
Definition log_request (e : endpoint) (s : t) : t :=
  mk (config s) (cache_pricing s) (cache_usage s) (cache_azure_token s)
     (exchangeRates s) (lastUpdate s) (subscribers s)
     (requestLog s ++ [e])%list (wire s).
Definition put_on_wire (msgs : list (nat * DashboardData.t)) (s : t) : t :=
  mk (config s) (cache_pricing s) (cache_usage s) (cache_azure_token s)
     (exchangeRates s) (lastUpdate s) (subscribers s) (requestLog s)
     (wire s ++ msgs)%list.
End Service.

(** A thrown [Error], identified by its message. *)
Inductive error : Type := Error (message : string).

Definition message_of (e : error) : string :=
  match e with Error m => m end.

(** How a call ends: it returns, or it throws (an [async] method: the
    promise is fulfilled, or rejected). *)
Inductive outcome (A : Type) : Type :=
| Returned (a : A)
| Thrown (e : error).
Arguments Returned {A} _.
Arguments Thrown {A} _.

(** A method of the service: it reads and writes the service object and
    ends in an [outcome].  State changes made before a throw persist. *)
Definition M (A : Type) : Type := Service.t -> outcome A * Service.t.

Definition ret {A : Type} (a : A) : M A := fun s => (Returned a, s).

Definition throw {A : Type} (e : error) : M A := fun s => (Thrown e, s).

Definition bind {A B : Type} (m : M A) (k : A -> M B) : M B :=
  fun s =>
    match m s with
    | (Returned a, s') => k a s'
    | (Thrown e, s') => (Thrown e, s')
    end.

(** [try { body } catch (error) { handler }]. *)
Definition try_catch {A : Type} (body : M A) (handler : error -> M A) : M A :=
  fun s =>
    match body s with
    | (Returned a, s') => (Returned a, s')
    | (Thrown e, s') => handler e s'
    end.

Definition get : M Service.t := fun s => (Returned s, s).

Definition modify (f : Service.t -> Service.t) : M unit :=
  fun s => (Returned tt, f s).

(** One branch of [Promise.allSettled]: the branch runs, and its end is
    reported as a value ([fulfilled] or [rejected]). *)
Definition settled {A : Type} (m : M A) : M (outcome A) :=
  fun s => match m s with (o, s') => (Returned o, s') end.

#[global] Instance M_ret : MRet M := @ret.
#[global] Instance M_bind : MBind M := fun A B k m => bind m k.

(** What a [fetch] and the reading of its body come to. *)
Inductive response (A : Type) : Type :=
| FetchRejects (message : string)          (* network failure *)
| NotOk (status : Z) (text : string)       (* [!response.ok] *)
| JsonRejects (message : string)           (* [response.json()] rejects *)
| WrongShape (message : string)            (* a TypeError when the body is used *)
| Body (a : A).
Arguments FetchRejects {A} _.
Arguments NotOk {A} _ _.
Arguments JsonRejects {A} _.
Arguments WrongShape {A} _.
Arguments Body {A} _.

Definition failed {A : Type} (r : response A) : bool :=
  match r with Body _ => false | _ => true end.

(** The token endpoint's answer; the code reads [access_token] only. *)
Record tokenData : Type := mkTokenData {
  access_token : string;
  expires_in : Z               (* seconds *)
}.

(** [data.rates] of the exchange-rate answer. *)
Record ratesBody : Type := mkRatesBody {
  CZK : option Q;
  EUR : option Q
}.

(** Everything the outside world contributes to one call. *)
Module World.
Record t : Type := mk {
  host : Host.t;
  pricingResponse : response rawPricing;
  tokenResponse : response tokenData;
  usageResponse : response rawUsage;
  ratesResponse : response ratesBody
}.
End World.

(** [await fetch(...)], the [response.ok] test and [await response.json()],
    up to the use of the body. *)
Definition request {A : Type} (e : endpoint) (r : response A)
           (notOk : Z -> string -> string) : M A :=
  modify (Service.log_request e) ;;
  match r with
  | FetchRejects m => throw (Error m)
  | NotOk status text => throw (Error (notOk status text))
  | JsonRejects m => throw (Error m)
  | WrongShape m => throw (Error m)
  | Body a => ret a
  end.

(** *** 1. Pricing *)
Definition fetchRealTimePricing (w : World.t) : M (list PricingModel.t) :=
  try_catch
    (data ← request PricesAPI (World.pricingResponse w)
               (fun status _ =>
                  "Pricing API error: " ++ JsNumber.string_of_Z status);
     let parsedModels := parsePricingData (World.host w) data in
     modify (Service.set_cache_pricing
               (CacheEntry.mk parsedModels (Host.now (World.host w)))) ;;
     ret parsedModels)
    (fun _ =>
       s ← get;
       ret (getFallbackPricing (World.host w)
                               (Config.region (Service.config s)))).

(** *** 5. Authentication *)
Definition token_window : Z := 50 * 60 * 1000.

Definition getAzureAccessToken (w : World.t) : M string :=
  s ← get;
  let exchange : M string :=
    try_catch
      (tokenData ← request TokenEndpoint (World.tokenResponse w)
                      (fun status _ =>
                         "Authentication failed: "
                         ++ JsNumber.string_of_Z status);
       modify (Service.set_cache_azure_token
                 (CacheEntry.mk (access_token tokenData)
                                (Host.now (World.host w)))) ;;
       ret (access_token tokenData))
      (fun error => throw error) in
  match Service.cache_azure_token s with
  | Some cached =>
      if (Host.now (World.host w) - CacheEntry.timestamp cached
          <? token_window)%Z
      then ret (CacheEntry.data cached)
      else exchange
  | None => exchange
  end.

(** The test that guards the reuse of the cached token:
    [cached && (Date.now() - cached.timestamp) < 50 * 60 * 1000]. *)
Definition token_is_fresh (w : World.t) (s : Service.t) : bool :=
  match Service.cache_azure_token s with
  | Some cached =>
      (Host.now (World.host w) - CacheEntry.timestamp cached <? token_window)%Z
  | None => false
  end.

(** *** 2. Usage *)
Definition fetchUsageData (w : World.t) : M (gmap string Usage.t) :=
  try_catch
    (accessToken ← getAzureAccessToken w;
     data ← request CostManagementAPI (World.usageResponse w)
               (fun status text =>
                  "Cost Management API error: " ++ JsNumber.string_of_Z status
                  ++ " - " ++ text);
     let parsedUsage := parseUsageData data in
     modify (Service.set_cache_usage
               (CacheEntry.mk parsedUsage (Host.now (World.host w)))) ;;
     ret parsedUsage)
    (fun _ => ret getFallbackUsage).

(** *** 3. Exchange rates *)

(** [data.rates.X || fallback]. *)
Definition rate_or (x : option Q) (fallback : Q) : Q :=
  match x with
  | Some q => if Qeq_bool q 0 then fallback else q
  | None => fallback
  end.

Definition fetchExchangeRates (w : World.t) : M Rates.t :=
  try_catch
    (data ← request ExchangeRateAPI (World.ratesResponse w)
               (fun status _ =>
                  "Exchange rate API error: " ++ JsNumber.string_of_Z status);
     let rates :=
       Rates.mk (rate_or (CZK data) (245 # 10))
                (Some (rate_or (EUR data) (85 # 100)))
                (Host.now (World.host w)) in
     modify (Service.set_exchangeRates rates) ;;
     ret rates)
    (fun _ => s ← get; ret (Service.exchangeRates s)).

(** The usage fetch fails: the token exchange is needed and fails, or the
    cost query fails. *)
Definition usage_fetch_fails (w : World.t) (s : Service.t) : bool :=
  (negb (token_is_fresh w s) && failed (World.tokenResponse w))
  || failed (World.usageResponse w).

(** *** 9. Broadcasting *)

Definition receives (ws : Socket.t) : bool :=
  Socket.isOpen ws && negb (Socket.sendThrows ws).

(** [this.subscribers.forEach(...)]: an open socket is sent the message; a
    socket that is not open, or whose [send] raises, is deleted from the
    set.  The [catch] inside the loop keeps the method from throwing. *)
Definition broadcastToClients (data : DashboardData.t) : M unit :=
  s ← get;
  modify (Service.put_on_wire
            (map (fun ws => (Socket.id ws, data))
                 (filter receives (Service.subscribers s)))) ;;
  modify (Service.set_subscribers (filter receives (Service.subscribers s))).

(** *** 4. The snapshot build *)

(** On data of the types above no statement of [getDashboardData] throws
    past the [catch] clauses of the fetch methods.  To say what the method
    guarantees when one does all the same (a bug), an unexpected exception
    can be raised at one of these places. *)
Inductive stage : Type :=
| InPricingFetch   (* [fetchRealTimePricing] rejects *)
| InUsageFetch     (* [fetchUsageData] rejects *)
| InRatesFetch     (* [fetchExchangeRates] rejects *)
| InCombine        (* inside [combineModelData] *)
| InSummary        (* inside [calculateSummary] *)
| InBroadcast.     (* inside [broadcastToClients] *)

Definition stage_eqb (a b : stage) : bool :=
  match a, b with
  | InPricingFetch, InPricingFetch
  | InUsageFetch, InUsageFetch
  | InRatesFetch, InRatesFetch
  | InCombine, InCombine
  | InSummary, InSummary
  | InBroadcast, InBroadcast => true
  | _, _ => false
  end.

(** The stages of the merge logic. *)
Definition in_merge (st : stage) : bool :=
  match st with
  | InCombine | InSummary => true
  | _ => false
  end.

(** The three fetches. *)
Definition in_fetch (st : stage) : bool :=
  match st with
  | InPricingFetch | InUsageFetch | InRatesFetch => true
  | _ => false
  end.

Definition unexpected (bug : option stage) (here : stage) : M unit :=
  match bug with
  | Some st =>
      if stage_eqb st here then throw (Error "unexpected error") else ret tt
  | None => ret tt
  end.

Definition fulfilled_or {A : Type} (o : outcome A) (otherwise : A) : A :=
  match o with
  | Returned v => v
  | Thrown _ => otherwise
  end.

(** The three fetches of [Promise.allSettled] write disjoint parts of the
    service object, so they are run one after the other. *)
Definition getDashboardData (w : World.t) (bug : option stage)
  : M DashboardData.t :=
  try_catch
    (pricingData ←
       settled (unexpected bug InPricingFetch ;; fetchRealTimePricing w);
     usageData ←
       settled (unexpected bug InUsageFetch ;; fetchUsageData w);
     exchangeRates ←
       settled (unexpected bug InRatesFetch ;; fetchExchangeRates w);
     s ← get;
     let pricing := fulfilled_or pricingData [] in
     let usage := fulfilled_or usageData ∅ in
     let rates := fulfilled_or exchangeRates (Service.exchangeRates s) in
     unexpected bug InCombine ;;
     let models := combineModelData (World.host w) pricing usage in
     unexpected bug InSummary ;;
     let summary :=
       calculateSummary
         (Host.random (World.host w) (10 * length pricing)%nat) models in
     let dashboardData :=
       DashboardData.mk models (Some summary) rates
                        (Config.region (Service.config s))
                        (Host.isoString (World.host w)) "success" None in
     modify (Service.set_lastUpdate dashboardData) ;;
     unexpected bug InBroadcast ;;
     broadcastToClients dashboardData ;;
     ret dashboardData)
    (fun error =>
       s ← get;
       ret (DashboardData.mk [] None (Service.exchangeRates s)
                             (Config.region (Service.config s))
                             (Host.isoString (World.host w)) "error"
                             (Some (message_of error)))).

(** What a call may change of the published parts of the service: nothing. *)
Definition same_published (s s' : Service.t) : Prop :=
  Service.lastUpdate s' = Service.lastUpdate s /\
  Service.wire s' = Service.wire s /\
  Service.subscribers s' = Service.subscribers s /\
  Service.config s' = Service.config s.

(** A fully assembled snapshot: its models are the merge of a pricing list
    with a usage mapping, and its summary is computed from exactly those
    models. *)
Definition is_assembled (w : World.t) (d : DashboardData.t) : Prop :=
  DashboardData.status d = "success" /\
  exists pricing usage,
    DashboardData.models d = combineModelData (World.host w) pricing usage /\
    DashboardData.summary d
    = Some (calculateSummary
              (Host.random (World.host w) (10 * length pricing)%nat)
              (DashboardData.models d)).

(* ================================================================= *)
(** ** 12. The refresh timer

    [startAutoRefresh] registers [async () => { await
    this.getDashboardData() }] with the timer.  On the single-threaded
    event loop a run of the callback has two parts: when the timer fires,
    the fetches are launched and the call is suspended; when they have all
    settled, the rest (merge, summary, publication, broadcast) runs without
    interruption.  The callback tests no flag before it calls
    [getDashboardData], and the timer does not wait for the promise of the
    previous run.  The writes of the fetchers are attributed to the moment
    the call resumes. *)

Module Scheduler.

Inductive event : Type :=
| Tick                    (* the refresh timer fires *)
| Settled (n : nat).      (* the fetches of the [n]-th tick have settled *)

Record t : Type := mk {
  service : Service.t;
  clock : nat;                       (* number of events handled *)
  ticks : nat;                       (* number of ticks so far *)
  inflight : list nat;               (* ticks whose call is suspended *)
  started : list (nat * nat);        (* (time, tick): fetches launched *)
  merged : list (nat * nat)          (* (time, tick): merge phase run *)
}.

Definition init (s : Service.t) : t := mk s 0 0 [] [] [].

Definition is_inflight (n : nat) (st : t) : bool :=
  existsb (Nat.eqb n) (inflight st).

(** [worlds n] is what the outside world answers to the [n]-th tick's
    call; its [bug] is always absent here. *)
Definition step (worlds : nat -> World.t) (st : t) (ev : event) : t :=
  match ev with
  | Tick =>
      mk (service st) (S (clock st)) (S (ticks st))
         (inflight st ++ [ticks st])
         (started st ++ [(clock st, ticks st)])
         (merged st)
  | Settled n =>
      if is_inflight n st then
        mk (snd (getDashboardData (worlds n) None (service st)))
           (S (clock st)) (ticks st)
           (filter (fun m => negb (Nat.eqb n m)) (inflight st))
           (started st)
           (merged st ++ [(clock st, n)])
      else
        mk (service st) (S (clock st)) (ticks st) (inflight st)
           (started st) (merged st)
  end.

Definition run (worlds : nat -> World.t) (s : Service.t)
           (trace : list event) : t :=
  fold_left (step worlds) trace (init s).

(** Two calls are suspended at once somewhere along the trace. *)
Fixpoint overlaps (worlds : nat -> World.t) (st : t) (trace : list event)
  : bool :=
  match trace with
  | [] => false
  | ev :: rest =>
      let st' := step worlds st ev in
      (2 <=? length (inflight st'))%nat || overlaps worlds st' rest
  end.

(** The time at which the merge phase of tick [n] ran. *)
Definition merge_time (n : nat) (st : t) : option nat :=
  fst <$> find (fun p => Nat.eqb (snd p) n) (merged st).

Definition start_time (n : nat) (st : t) : option nat :=
  fst <$> find (fun p => Nat.eqb (snd p) n) (started st).

Definition is_tick (ev : event) : bool :=
  match ev with Tick => true | Settled _ => false end.

(** What holds of the timer's bookkeeping along every trace. *)
Definition consistent (st : t) : Prop :=
  map snd (started st) = seq 0 (ticks st) /\
  (forall p, In p (started st) -> (fst p < clock st)%nat) /\
  (forall n, In n (inflight st) -> exists ts, In (ts, n) (started st)) /\
  (forall p, In p (merged st) ->
     (fst p < clock st)%nat /\
     exists ts, In (ts, snd p) (started st) /\ (ts < fst p)%nat).

End Scheduler.

(* ================================================================= *)
(** ** Reference definitions

    The summary as the specification words it, to compare
    [calculateSummary] with. *)

Module Reference.
Local Open Scope Q_scope.

Fixpoint sumQ (l : list Q) : Q :=
  match l with
  | [] => 0
  | x :: rest => x + sumQ rest
  end.

Fixpoint sumZ (l : list Z) : Z :=
  match l with
  | [] => 0%Z
  | x :: rest => (x + sumZ rest)%Z
  end.

Definition cost_of (m : ModelSnapshot.t) : Q :=
  Usage.totalCost (ModelSnapshot.usage m).




(** The bucket of largest cost, the first such in the list. *)
Fixpoint largest_bucket (l : list HourBucket.t) : option HourBucket.t :=
  match l with
  | [] => None
  | b :: rest =>
      match largest_bucket rest with
      | None => Some b
      | Some b' =>
          if Qlt_le_dec (HourBucket.cost b) (HourBucket.cost b')
          then Some b' else Some b
      end
  end.

(** "peakHour: derived from the largest-cost bucket across the models'
    short-interval series". *)
Definition peakHour (models : list ModelSnapshot.t) : option string :=
  HourBucket.time
    <$> largest_bucket (concat (map ModelSnapshot.lastHour models)).







End Reference.

(* ================================================================= *)
(** ** Sample data *)

Module Sample.

Definition host : Host.t :=
  Host.mk 1700000000000 "2023-11-14T22:13:20.000Z" 1699999200000
          (fun _ => "23:00") (fun _ => 0%Q) (fun _ => "1e+21").

Definition config : Config.t :=
  Config.mk "westeurope" "00000000-0000-0000-0000-000000000000"
            "tenant" "client" "secret" 30.

(** The catalogue of the scenario: an input and an output price of
    gpt-4o. *)
Definition catalogue : rawPricing :=
  mkRawPricing
    (Some [ Item.mk "gpt-4o input" "Azure OpenAI" (25 # 10000000)
                    "westeurope" "USD";
            Item.mk "gpt-4o output" "Azure OpenAI" (1 # 100000)
                    "westeurope" "USD" ]).

(** The usage answer of the scenario: one row of zero cost. *)
Definition zero_usage : rawUsage :=
  mkRawUsage
    (Some [ UsageRow.mk 0 "2024-01-01" "USD" "gpt-4o" "Cognitive Services"
                        0 ]).

(** A daily entry of the given cost. *)
Definition day (cost : Q) : DailyEntry.t := DailyEntry.mk "2024-01-01" cost 0.


(** A service right after construction. *)
Definition service : Service.t := Service.new 1699999000000 config.

Definition rates_answer : ratesBody :=
  mkRatesBody (Some (2291 # 100)) (Some (92 # 100)).

(** Every source answers. *)
Definition online : World.t :=
  World.mk host (Body catalogue)
           (Body (mkTokenData "token-1" 3599))
           (Body zero_usage) (Body rates_answer).

(** No source can be reached. *)
Definition offline : World.t :=
  World.mk host (FetchRejects "fetch failed") (FetchRejects "fetch failed")
           (FetchRejects "fetch failed") (FetchRejects "fetch failed").

(** What the world answers to the ticks of the refresh timer: everything
    is reachable, and the clock shows the time of the tick. *)
Definition at_tick (n : nat) : World.t :=
  World.mk (Host.mk (1700000000000 + 30000 * Z.of_nat n)
                    (if Nat.eqb n 0 then "2023-11-14T22:13:20.000Z"
                     else "2023-11-14T22:13:50.000Z")
                    1699999200000
                    (fun _ => "23:00") (fun _ => 0%Q) (fun _ => "1e+21"))
           (Body catalogue) (Body (mkTokenData "token-1" 3599))
           (Body zero_usage) (Body rates_answer).

(** A service with one connected client, after a first snapshot has been
    built and published. *)
Definition published : Service.t :=
  snd (getDashboardData online None
         (Service.set_subscribers [Socket.mk 1 true false] service)).

(** The next build, in which the pricing fetch rejects unexpectedly. *)
Definition degraded : outcome DashboardData.t * Service.t :=
  getDashboardData online (Some InPricingFetch) published.

(** The service after one successful pricing fetch. *)
Definition priced : Service.t := snd (fetchRealTimePricing online service).

(** A token endpoint that issues a token valid for ten minutes. *)
Definition short_lived : World.t :=
  World.mk (Host.mk 0 "1970-01-01T00:00:00.000Z" 0
                    (fun _ => "00:00") (fun _ => 0%Q) (fun _ => "1e+21"))
           (Body catalogue) (Body (mkTokenData "token-1" 600))
           (Body zero_usage) (Body rates_answer).

(** The same endpoint twenty minutes later. *)
Definition twenty_minutes_on : World.t :=
  World.mk (Host.mk (20 * 60 * 1000) "1970-01-01T00:20:00.000Z" 0
                    (fun _ => "00:00") (fun _ => 0%Q) (fun _ => "1e+21"))
           (Body catalogue) (Body (mkTokenData "token-2" 600))
           (Body zero_usage) (Body rates_answer).

(** The service after it obtained the ten-minute token at time 0. *)
Definition authenticated : Service.t :=
  snd (getAzureAccessToken short_lived (Service.new 0 config)).

(** A catalogue that lists the input price of gpt-4o twice, and its
    output price under another region and currency. *)
Definition repriced : rawPricing :=
  mkRawPricing
    (Some [ Item.mk "gpt-4o input" "Azure OpenAI" (25 # 10000000)
                    "westeurope" "USD";
            Item.mk "gpt-4o output" "Azure OpenAI" (1 # 100000)
                    "northeurope" "EUR";
            Item.mk "Embeddings" "Azure OpenAI" (1 # 1000000)
                    "westeurope" "USD";
            Item.mk "gpt-4o input" "Azure OpenAI" (3 # 1000000)
                    "northeurope" "EUR" ]).

(** The record [parsePricingData] makes of it. *)
Definition repriced_record : PricingModel.t :=
  PricingModel.mk "gpt-4o" (Some (3 # 1000000)) (Some (1 # 100000))
                  "westeurope" "USD" "active" (Host.isoString host).


End Sample.

(* ================================================================= *)
(** ** WebSocket clients ([setupWebSocket])

    The handlers that [setupWebSocket] registers.  [this.subscribers] is a
    [Set] of socket objects: an object is in it once, identified here by
    [Socket.id]. *)

Definition same_socket (a b : Socket.t) : bool :=
  Nat.eqb (Socket.id a) (Socket.id b).

(** [this.subscribers.add(ws)]. *)
Definition subscribers_add (ws : Socket.t) (l : list Socket.t)
  : list Socket.t :=
  if existsb (same_socket ws) l then l else (l ++ [ws])%list.

(** [this.subscribers.delete(ws)]. *)
Definition subscribers_delete (ws : Socket.t) (l : list Socket.t)
  : list Socket.t :=
  List.filter (fun x => negb (same_socket ws x)) l.

(** The ['connection'] handler: the socket joins the set, and the current
    snapshot, if there is one, is sent to it at once.  The send is not
    guarded by [readyState]; if it raises, the error is logged and the
    socket stays in the set. *)
Definition onConnection (ws : Socket.t) : M unit :=
  s ← get;
  modify (Service.set_subscribers (subscribers_add ws (Service.subscribers s))) ;;
  match Service.lastUpdate s with
  | Some lastUpdate =>
      if Socket.sendThrows ws then ret tt
      else modify (Service.put_on_wire [(Socket.id ws, lastUpdate)])
  | None => ret tt
  end.

(** The ['close'] and ['error'] handlers of a socket: both delete it. *)
Definition onClose (ws : Socket.t) : M unit :=
  s ← get;
  modify (Service.set_subscribers
            (subscribers_delete ws (Service.subscribers s))).

(** The messages on the wire that went to the socket [id]. *)
Definition delivered_to (id : nat) (s : Service.t) : list DashboardData.t :=
  map snd (List.filter (fun m => Nat.eqb (fst m) id) (Service.wire s)).

(* ================================================================= *)
(** ** Failed-attempt bookkeeping ([AuthenticationManager])

    [hashApiKey] is SHA-256 in hexadecimal; it is a parameter here.  Two
    digests of equal length are compared with [crypto.timingSafeEqual],
    which answers whether they are equal. *)

Module Auth.

(** A value of [failedAttempts]: [{ count, lastAttempt }]. *)
Record attempts : Type := mkAttempts { count : Z; lastAttempt : Z }.

(** [config.apiKey] and the [failedAttempts] map (IP to attempts). *)
Record t : Type := mk {
  apiKey : option string;
  failedAttempts : gmap string attempts
}.

Definition maxFailedAttempts : Z := 5.
Definition lockoutDuration : Z := 15 * 60 * 1000.

Definition set_failedAttempts (m : gmap string attempts) (a : t) : t :=
  mk (apiKey a) m.

(** [isLockedOut(ip)], at time [now]; a record older than the lockout
    duration is deleted by the test. *)
Definition isLockedOut (now : Z) (ip : string) (a : t) : bool * t :=
  match failedAttempts a !! ip with
  | None => (false, a)
  | Some att =>
      if (lockoutDuration <? now - lastAttempt att)%Z
      then (false, set_failedAttempts (delete ip (failedAttempts a)) a)
      else ((maxFailedAttempts <=? count att)%Z, a)
  end.

Definition recordFailedAttempt (now : Z) (ip : string) (a : t) : t :=
  let att := default (mkAttempts 0 0) (failedAttempts a !! ip) in
  set_failedAttempts
    (<[ ip := mkAttempts (count att + 1) now ]> (failedAttempts a)) a.

Definition clearFailedAttempts (ip : string) (a : t) : t :=
  set_failedAttempts (delete ip (failedAttempts a)) a.

(** What the middleware reads of a request. *)
Record request : Type := mkRequest {
  path : string;
  ip : string;
  authorization : option string;     (* [req.headers.authorization] *)
  x_api_key : option string          (* [req.headers['x-api-key']] *)
}.

(** How the middleware ends: [next()], with or without [req.auth], or a
    response with a status and an error text. *)
Inductive verdict : Type :=
| Next (authenticated : bool)
| Respond (status : Z) (error : string).

Definition publicEndpoints : list string := ["/api/health"; "/api/metrics"; "/"].

(** A string in a condition: empty is falsy. *)
Definition truthy (x : option string) : option string :=
  match x with
  | Some s => if String.eqb s "" then None else Some s
  | None => None
  end.

(** [authHeader && authHeader.startsWith('Bearer ') ? authHeader.slice(7)
    : req.headers['x-api-key']]. *)
Definition presented_key (req : request) : option string :=
  match authorization req with
  | Some authHeader =>
      match JsString.strip_prefix "Bearer " authHeader with
      | Some key => Some key
      | None => x_api_key req
      end
  | None => x_api_key req
  end.

(** The middleware returned by [authenticateApiKey()]. *)
Definition authenticateApiKey (hashApiKey : string -> string) (now : Z)
           (req : request) (a : t) : verdict * t :=
  if existsb (String.eqb (path req)) publicEndpoints then (Next false, a)
  else
    let (locked, a1) := isLockedOut now (ip req) a in
    if locked then
      (Respond 429
         "Too many failed authentication attempts. Please try again later.",
       a1)
    else
      match truthy (apiKey a1) with
      | None => (Next false, a1)
      | Some configured =>
          match truthy (presented_key req) with
          | None =>
              (Respond 401 "API key required",
               recordFailedAttempt now (ip req) a1)
          | Some key =>
              if String.eqb (hashApiKey key) (hashApiKey configured)
              then (Next true, clearFailedAttempts (ip req) a1)
              else (Respond 401 "Invalid API key",
                    recordFailedAttempt now (ip req) a1)
          end
      end.

(** A sequence of requests, each with the time at which it arrives. *)
Fixpoint serve (hashApiKey : string -> string) (reqs : list (Z * request))
         (a : t) : list verdict * t :=
  match reqs with
  | [] => ([], a)
  | (now, req) :: rest =>
      let (v, a1) := authenticateApiKey hashApiKey now req a in
      let (vs, a2) := serve hashApiKey rest a1 in
      (v :: vs, a2)
  end.

Definition status_of (v : verdict) : option Z :=
  match v with
  | Next _ => None
  | Respond status _ => Some status
  end.

(** A request from [client] to a protected path that presents no key or a
    key whose digest differs from that of the configured one. *)
Definition wrong_key (hashApiKey : string -> string) (configured client : string)
           (req : request) : bool :=
  negb (existsb (String.eqb (path req)) publicEndpoints)
  && String.eqb (ip req) client
  && match truthy (presented_key req) with
     | None => true
     | Some key => negb (String.eqb (hashApiKey key) (hashApiKey configured))
     end.

(** The record of [client] shows [c] failures, the last of them within the
    window that starts at [t0]. *)
Definition counted (a : t) (client : string) (c : nat) (t0 : Z) : Prop :=
  match failedAttempts a !! client with
  | None => c = 0%nat
  | Some att =>
      count att = Z.of_nat c /\
      (t0 <= lastAttempt att)%Z /\ (lastAttempt att <= t0 + lockoutDuration)%Z
  end.

(** Sample data: a manager with a key configured, and requests. *)
Definition sample_key : string := "0123456789abcdef0123456789abcdef".

Definition fresh_manager : t := mk (Some sample_key) ∅.

Definition guess (client key : string) : request :=
  mkRequest "/api/dashboard" client (Some ("Bearer " ++ key)) None.

End Auth.

(* ================================================================= *)
(** ** Error texts and routes *)

(** [sanitizeError(error, includeStack)]; [isProduction] is
    [process.env.NODE_ENV === 'production'], [message] and [stack] are the
    fields of the error. *)
Definition sanitizeError (isProduction includeStack : bool)
           (message stack : string) : string :=
  if isProduction && negb includeStack then
    if JsString.includes "authentication" message
       || JsString.includes "token" message
    then "Authentication failed"
    else if JsString.includes "subscription" message
            || JsString.includes "tenant" message
    then "Configuration error"
    else if JsString.includes "API" message
            || JsString.includes "fetch" message
    then "Service temporarily unavailable"
    else "An error occurred"
  else if includeStack then stack else message.

Definition generic_errors : list string :=
  [ "Authentication failed"; "Configuration error";
    "Service temporarily unavailable"; "An error occurred" ].

(** What a route handler sends: [res.json(...)] with status 200 and the
    data, or [res.status(500).json(...)] with the sanitised error. *)
Inductive reply (A : Type) : Type :=
| Ok200 (data : A)
| Error500 (error : string).
Arguments Ok200 {A} _.
Arguments Error500 {A} _.

(** The handlers of [GET /api/dashboard], [/api/pricing], [/api/usage] and
    [/api/exchange-rates]: [try { data = await method(); res.json(...) }
    catch (error) { res.status(500).json(...) }]. *)
Definition route {A : Type} (isProduction : bool) (method : M A)
  : M (reply A) :=
  try_catch
    (data ← method; ret (Ok200 data))
    (fun error =>
       ret (Error500 (sanitizeError isProduction false (message_of error) ""))).

(** The characters of a printed integer. *)
Definition numeric (c : ascii) : bool :=
  let n := N_of_ascii c in JsString.is_between 48 57 n || (n =? 45)%N.

Fixpoint all_chars (P : ascii -> bool) (s : string) : bool :=
  match s with
  | EmptyString => true
  | String c s' => P c && all_chars P s'
  end.

Fixpoint last_char (s : string) : option ascii :=
  match s with
  | EmptyString => None
  | String c EmptyString => Some c
  | String _ s' => last_char s'
  end.

(** The string is not empty and its last character is not one of a printed
    integer. *)
Definition ends_in_letter (s : string) : bool :=
  match last_char s with
  | Some c => negb (numeric c)
  | None => false
  end.

(** The exchange rates can be used to convert: no rate is zero. *)
Definition rates_usable (r : Rates.t) : Prop :=
  ~ (Rates.USD_CZK r == 0)%Q /\
  forall q, Rates.USD_EUR r = Some q -> ~ (q == 0)%Q.

(** The trace in which each of [n] ticks, numbered from [k], settles
    before the next one fires. *)
Fixpoint one_at_a_time (k n : nat) : list Scheduler.event :=
  match n with
  | O => []
  | S n' => Scheduler.Tick :: Scheduler.Settled k :: one_at_a_time (S k) n'
  end.

(* ================================================================= *)
(** ** Reference definitions for parsing *)

(** The row counts for model [m]: its meter is identified as [m] and its
    service name is the expected one. *)
Definition row_counts_for (m : string) (row : UsageRow.t) : bool :=
  match extractModelFromMeterName (UsageRow.meterName row) with
  | Some modelName =>
      String.eqb modelName m
      && String.eqb (UsageRow.serviceName row) "Cognitive Services"
  | None => false
  end.

Definition row_counts (row : UsageRow.t) : bool :=
  match extractModelFromMeterName (UsageRow.meterName row) with
  | Some _ => String.eqb (UsageRow.serviceName row) "Cognitive Services"
  | None => false
  end.

(** The daily entry [parseUsageData] pushes for a row of model [m]. *)
Definition daily_of (m : string) (row : UsageRow.t) : DailyEntry.t :=
  DailyEntry.mk (UsageRow.date row) (JsNumber.or_zero (UsageRow.cost row))
                (estimateTokensFromCost (UsageRow.cost row) m).

(** A usage record agrees with its daily series: the totals are the sums
    over the entries. *)
Definition usage_consistent (u : Usage.t) : Prop :=
  (Usage.totalCost u
   == Reference.sumQ (map DailyEntry.cost (Usage.dailyData u)))%Q /\
  Usage.inputTokens u
  = Reference.sumZ
      (map (fun e => Qfloor (Double.product (inject_Z (DailyEntry.tokens e))
                                            (Double.read (7 # 10))))
           (Usage.dailyData u)) /\
  Usage.outputTokens u
  = Reference.sumZ
      (map (fun e => Qfloor (Double.product (inject_Z (DailyEntry.tokens e))
                                            (Double.read (3 # 10))))
           (Usage.dailyData u)) /\
  Usage.requests u
  = Reference.sumZ
      (map (fun e => Qfloor (Double.quotient (inject_Z (DailyEntry.tokens e))
                                             1000))
           (Usage.dailyData u)).

(** What the accumulator of [parseUsageData] holds for model [m] after the
    rows [seen]. *)
Definition usage_tracks (seen : list UsageRow.t) (usage : gmap string Usage.t)
  : Prop :=
  forall m,
    match usage !! m with
    | None => List.filter (row_counts_for m) seen = []
    | Some u =>
        List.filter (row_counts_for m) seen <> [] /\
        Usage.dailyData u
        = map (daily_of m) (List.filter (row_counts_for m) seen) /\
        usage_consistent u
    end.

(** The names [extractModelFromMeterName] can return. *)
Definition canonical_names : list string :=
  ["gpt-4o-mini"; "gpt-4o"; "gpt-4-turbo"; "gpt-4"; "gpt-3.5-turbo"].

(** The catalogue entry is identified as model [m], direction [d]. *)
Definition item_is (m : string) (d : direction) (item : Item.t) : bool :=
  match extractModelFromMeter (Item.meterName item) (Item.productName item) with
  | Some info =>
      String.eqb (ModelInfo.model info) m
      && match ModelInfo.type info, d with
         | input, input | output, output => true
         | _, _ => false
         end
  | None => false
  end.

Definition item_of_model (m : string) (item : Item.t) : bool :=
  item_is m input item || item_is m output item.

(** The price of the last entry of [items] identified as [(m, d)]. *)
Definition last_price (items : list Item.t) (m : string) (d : direction)
  : option Q :=
  Item.retailPrice <$> last (List.filter (item_is m d) items).

(** The first entry of [items] identified as model [m]. *)
Definition first_item (items : list Item.t) (m : string) : option Item.t :=
  head (List.filter (item_of_model m) items).

(** Where the fields of a record in the map of [parsePricingData] come
    from, after the entries [items]: the prices from the last entry of the
    model and direction, the region and currency from the first entry of the
    model. *)
Definition record_from (h : Host.t) (items : list Item.t) (k : string)
           (v : PricingModel.t) : Prop :=
  PricingModel.name v = k /\
  PricingModel.inputPrice v = last_price items k input /\
  PricingModel.outputPrice v = last_price items k output /\
  PricingModel.status v = "active" /\
  PricingModel.lastUpdated v = Host.isoString h /\
  exists first,
    first_item items k = Some first /\
    PricingModel.region v = Item.armRegionName first /\
    PricingModel.currency v = Item.currencyCode first.

Definition priced_values (h : Host.t) (items : list Item.t) (m : pricingMap)
  : Prop :=
  forall k,
    match map_get k m with
    | None => List.filter (item_of_model k) items = []
    | Some v => record_from h items k v
    end.

(* ================================================================= *)
(** * Properties *)

(** ** Strings and patterns *)

Section StringFacts.
Import JsString.

Lemma append_nil (r : string) : "" ++ r = r.
Proof. reflexivity. Qed.

Lemma append_cons (c : ascii) (p r : string) :
  String c p ++ r = String c (p ++ r).
Proof. reflexivity. Qed.

Lemma strip_prefix_Some (p s r : string) :
  strip_prefix p s = Some r -> s = p ++ r.
Proof.
  revert s; induction p as [|a p IH]; intros [|b s] H; simpl in H;
    rewrite ?append_nil, ?append_cons; try congruence.
  destruct (Ascii.eqb_spec a b) as [->|]; [|discriminate].
  now rewrite (IH _ H).
Qed.

Lemma strip_prefix_app (p r : string) : strip_prefix p (p ++ r) = Some r.
Proof.
  induction p as [|a p IH]; [reflexivity|].
  rewrite append_cons. simpl. now rewrite Ascii.eqb_refl.
Qed.

Lemma includes_here (needle hay : string) :
  startsWith needle hay = true -> includes needle hay = true.
Proof. destruct hay; simpl; intros ->; reflexivity. Qed.

Lemma includes_intro (needle pre post : string) :
  includes needle (pre ++ needle ++ post) = true.
Proof.
  induction pre as [|c pre IH].
  - rewrite append_nil. apply includes_here. unfold startsWith.
    now rewrite strip_prefix_app.
  - rewrite append_cons. simpl. rewrite IH. apply orb_true_r.
Qed.

Lemma includes_elim (needle hay : string) :
  includes needle hay = true ->
  exists pre post, hay = pre ++ needle ++ post.
Proof.
  induction hay as [|c hay IH]; simpl; intros H.
  - rewrite orb_false_r in H. unfold startsWith in H.
    destruct (strip_prefix needle "") as [r|] eqn:E; [|discriminate].
    exists "", r. rewrite append_nil. now apply strip_prefix_Some.
  - apply orb_true_iff in H as [H|H].
    + unfold startsWith in H.
      destruct (strip_prefix needle (String c hay)) as [r|] eqn:E;
        [|discriminate].
      exists "", r. rewrite append_nil. now apply strip_prefix_Some.
    + destruct (IH H) as (pre & post & ->).
      exists (String c pre), post. now rewrite append_cons.
Qed.

Lemma fold_case_lower_char (c : ascii) :
  Regex.fold_case (lower_char c) = lower_char c.
Proof. destruct c as [[] [] [] [] [] [] [] []]; reflexivity. Qed.

Lemma toLowerCase_folded (s : string) : Regex.folded (toLowerCase s).
Proof.
  induction s as [|c s IH]; simpl; [exact I|].
  split; [apply fold_case_lower_char | exact IH].
Qed.

Lemma folded_suffix (pre suf : string) :
  Regex.folded (pre ++ suf) -> Regex.folded suf.
Proof.
  induction pre as [|c pre IH]; [now rewrite append_nil|].
  rewrite append_cons. simpl. intros [_ H]; auto.
Qed.

Lemma strip_lit_folded (p s : string) :
  Regex.folded p -> Regex.folded s ->
  Regex.strip_lit p s = strip_prefix p s.
Proof.
  revert s; induction p as [|a p IH]; intros [|b s] Hp Hs; simpl in *;
    try reflexivity.
  destruct Hp as [Ha Hp], Hs as [Hb Hs]. rewrite Ha, Hb.
  destruct (Ascii.eqb a b); auto.
Qed.

Lemma test_split (p : Regex.regex) (s : string) :
  Regex.test p s = true ->
  exists pre suf, s = pre ++ suf /\ Regex.match_here p suf = true.
Proof.
  induction s as [|c s IH]; simpl; intros H.
  - rewrite orb_false_r in H. now exists "", "".
  - apply orb_true_iff in H as [H|H].
    + now exists "", (String c s).
    + destruct (IH H) as (pre & suf & -> & Hm).
      exists (String c pre), suf. now rewrite append_cons.
Qed.

End StringFacts.

(** ** Model identification *)

Lemma first_match_Some (rules : list rule) (text : string) (info : ModelInfo.t) :
  first_match rules text = Some info ->
  exists (i : nat) (r : rule),
    rules !! i = Some r /\
    Regex.test (pattern r) text = true /\
    info = ModelInfo.mk (model r) (type r) /\
    forall (j : nat) (r' : rule),
      (j < i)%nat -> rules !! j = Some r' ->
      Regex.test (pattern r') text = false.
Proof.
  induction rules as [|r0 rules IH]; simpl; [discriminate|].
  destruct (Regex.test (pattern r0) text) eqn:E; intros H.
  - injection H as <-. exists 0%nat, r0. repeat split; auto.
    intros j r' Hj; lia.
  - destruct (IH H) as (i & r & Hi & Ht & Hinfo & Hmin).
    exists (S i), r. repeat split; auto.
    intros [|j] r' Hj Hr'; simpl in Hr'.
    + now injection Hr' as <-.
    + apply (Hmin j); [lia | exact Hr'].
Qed.

Lemma first_match_None (rules : list rule) (text : string) :
  first_match rules text = None <->
  forall r, In r rules -> Regex.test (pattern r) text = false.
Proof.
  induction rules as [|r0 rules IH]; simpl.
  - split; [intros _ r [] | reflexivity].
  - destruct (Regex.test (pattern r0) text) eqn:E.
    + split; [discriminate|]. intros H. specialize (H r0 (or_introl eq_refl)).
      congruence.
    + rewrite IH. split.
      * intros H r [<-|Hr]; auto.
      * intros H r Hr. apply H. now right.
Qed.

Lemma first_match_In (rules : list rule) (text : string) (info : ModelInfo.t) :
  first_match rules text = Some info ->
  exists r, In r rules /\ Regex.test (pattern r) text = true /\
            model r = ModelInfo.model info /\ type r = ModelInfo.type info.
Proof.
  intros H. destruct (first_match_Some _ _ _ H) as (i & r & Hi & Ht & -> & _).
  exists r. repeat split; auto.
  apply list_elem_of_In. eapply list_elem_of_lookup_2; eauto.
Qed.

(** What a match of the [gpt-4o] rules says about the text: the literal is
    there, and what follows it does not start with [-mini]. *)
Lemma gpt4o_rule_occurrence (tail : Regex.regex) (text : string) :
  Regex.folded text ->
  Regex.test (Lit "gpt-4o" :: NotAhead [SLit "-mini"] :: tail) text = true ->
  exists pre post,
    text = pre ++ "gpt-4o" ++ post /\ JsString.startsWith "-mini" post = false.
Proof.
  intros Hf Ht.
  destruct (test_split _ _ Ht) as (pre & suf & -> & Hm).
  apply folded_suffix in Hf.
  cbn [Regex.match_here] in Hm.
  rewrite strip_lit_folded in Hm by (simpl; tauto || exact Hf).
  destruct (JsString.strip_prefix "gpt-4o" suf) as [post|] eqn:E;
    [|discriminate].
  apply strip_prefix_Some in E. subst suf.
  apply andb_true_iff in Hm as [Hn _].
  exists pre, post. split; [reflexivity|].
  apply (folded_suffix "gpt-4o") in Hf.
  cbn [Regex.smatch_here] in Hn.
  rewrite strip_lit_folded in Hn by (simpl; tauto || exact Hf).
  unfold JsString.startsWith.
  destruct (JsString.strip_prefix "-mini" post); [discriminate|reflexivity].
Qed.

(** The same for the [gpt-4] rules: what follows the literal does not start
    with [o] and has no [turbo] further on the line. *)
Lemma gpt4_rule_occurrence (tail : Regex.regex) (text : string) :
  Regex.folded text ->
  Regex.test (Lit "gpt-4" :: NotAhead [SAnyStar; SLit "turbo"]
                :: NotAhead [SLit "o"] :: tail) text = true ->
  exists pre post,
    text = pre ++ "gpt-4" ++ post /\
    JsString.startsWith "o" post = false /\
    Regex.smatch_here [SAnyStar; SLit "turbo"] post = false.
Proof.
  intros Hf Ht.
  destruct (test_split _ _ Ht) as (pre & suf & -> & Hm).
  apply folded_suffix in Hf.
  cbn [Regex.match_here] in Hm.
  rewrite strip_lit_folded in Hm by (simpl; tauto || exact Hf).
  destruct (JsString.strip_prefix "gpt-4" suf) as [post|] eqn:E;
    [|discriminate].
  apply strip_prefix_Some in E. subst suf.
  apply andb_true_iff in Hm as [Hturbo Hm].
  apply andb_true_iff in Hm as [Ho _].
  exists pre, post. split; [reflexivity|].
  apply (folded_suffix "gpt-4") in Hf.
  cbn [Regex.smatch_here] in Ho.
  rewrite strip_lit_folded in Ho by (simpl; tauto || exact Hf).
  split.
  - unfold JsString.startsWith.
    destruct (JsString.strip_prefix "o" post); [discriminate|reflexivity].
  - now apply negb_true_iff in Hturbo.
Qed.

Lemma patterns_of_model (r : rule) :
  In r patterns ->
  (model r = "gpt-4o" ->
   exists tail, pattern r = Lit "gpt-4o" :: NotAhead [SLit "-mini"] :: tail) /\
  (model r = "gpt-4" ->
   exists tail, pattern r = Lit "gpt-4" :: NotAhead [SAnyStar; SLit "turbo"]
                              :: NotAhead [SLit "o"] :: tail).
Proof.
  unfold patterns. simpl.
  intros H; repeat (destruct H as [<-|H]; [split; intros E; try discriminate E;
                                           eexists; reflexivity|]).
  destruct H.
Qed.

Lemma extractModelFromMeterName_order (meterName : string) :
  (JsString.includes "gpt-4o-mini" (JsString.toLowerCase meterName) = true ->
   extractModelFromMeterName meterName = Some "gpt-4o-mini") /\
  (extractModelFromMeterName meterName = Some "gpt-4o" ->
   JsString.includes "gpt-4o-mini" (JsString.toLowerCase meterName) = false) /\
  (extractModelFromMeterName meterName = Some "gpt-4" ->
   JsString.includes "gpt-4o" (JsString.toLowerCase meterName) = false /\
   JsString.includes "gpt-4-turbo" (JsString.toLowerCase meterName) = false /\
   JsString.includes "gpt-4 turbo" (JsString.toLowerCase meterName) = false).
Proof.
  unfold extractModelFromMeterName.
  destruct (String.eqb_spec meterName "") as [->|Hne].
  - repeat split; discriminate.
  - set (meter := JsString.toLowerCase meterName).
    destruct (JsString.includes "gpt-4o-mini" meter);
      [repeat split; discriminate || reflexivity|].
    destruct (JsString.includes "gpt-4o" meter);
      [repeat split; discriminate || reflexivity|].
    destruct (JsString.includes "gpt-4-turbo" meter);
      [repeat split; discriminate || reflexivity|].
    destruct (JsString.includes "gpt-4 turbo" meter);
      [repeat split; discriminate || reflexivity|].
    repeat split; discriminate || reflexivity.
Qed.

(** ** The pricing map *)

Section PricingMap.

Lemma map_has_get (key : string) (m : pricingMap) :
  map_has key m = false <-> map_get key m = None.
Proof.
  induction m as [|[k v] m IH]; simpl; [tauto|].
  destruct (String.eqb k key); simpl; [split; discriminate | exact IH].
Qed.

Lemma map_get_snoc (key k : string) (v : PricingModel.t) (m : pricingMap) :
  map_get key (m ++ [(k, v)])%list =
  match map_get key m with
  | Some x => Some x
  | None => if String.eqb k key then Some v else None
  end.
Proof.
  induction m as [|[k0 v0] m IH]; simpl; [reflexivity|].
  destruct (String.eqb k0 key); [reflexivity | exact IH].
Qed.

Lemma map_get_update (key k : string) (f : PricingModel.t -> PricingModel.t)
      (m : pricingMap) :
  map_get key (map_update k f m) =
  if String.eqb k key then f <$> map_get key m else map_get key m.
Proof.
  induction m as [|[k0 v0] m IH]; simpl.
  - now destruct (String.eqb k key).
  - destruct (String.eqb_spec k0 k) as [->|Hk0]; simpl.
    + destruct (String.eqb_spec k key) as [->|Hk]; [reflexivity|].
      reflexivity.
    + destruct (String.eqb_spec k0 key) as [->|Hkey].
      * destruct (String.eqb_spec k key) as [->|Hk]; [congruence|reflexivity].
      * exact IH.
Qed.

Lemma map_update_keys (k : string) (f : PricingModel.t -> PricingModel.t)
      (m : pricingMap) :
  map fst (map_update k f m) = map fst m.
Proof.
  induction m as [|[k0 v0] m IH]; simpl; [reflexivity|].
  destruct (String.eqb k0 k); simpl; [reflexivity | now rewrite IH].
Qed.

Lemma map_get_None_keys (key : string) (m : pricingMap) :
  map_get key m = None -> ~ In key (map fst m).
Proof.
  induction m as [|[k v] m IH]; simpl; [tauto|].
  destruct (String.eqb_spec k key) as [->|Hk]; [discriminate|].
  intros H [E|Hin]; [congruence | now apply IH].
Qed.


Lemma In_map_get (key : string) (v : PricingModel.t) (m : pricingMap) :
  NoDup (map fst m) -> In (key, v) m -> map_get key m = Some v.
Proof.
  induction m as [|[k0 v0] m IH]; simpl; [tauto|].
  intros Hnd [E|Hin].
  - injection E as -> ->. now rewrite String.eqb_refl.
  - apply NoDup_cons in Hnd as [Hnotin Hnd'].
    destruct (String.eqb_spec k0 key) as [->|Hk].
    + exfalso. apply Hnotin. apply list_elem_of_In.
      change key with (fst (key, v)). now apply in_map.
    + now apply IH.
Qed.

End PricingMap.

(** ** [parsePricingData] *)

Section ParsePricing.
Variable h : Host.t.

Lemma observed_snoc (items : list Item.t) (item : Item.t) (k : string)
      (d : direction) :
  observed (items ++ [item])%list k d <->
  observed items k d \/
  extractModelFromMeter (Item.meterName item) (Item.productName item)
  = Some (ModelInfo.mk k d).
Proof.
  unfold observed. split.
  - intros (it & Hin & He). apply in_app_iff in Hin as [Hin|[<-|[]]].
    + left. eauto.
    + now right.
  - intros [(it & Hin & He)|He].
    + exists it. split; [apply in_app_iff; now left | exact He].
    + exists item. split; [apply in_app_iff; right; now left | exact He].
Qed.

Lemma priced_inv_nil : priced_inv [] [].
Proof.
  repeat split; try constructor; try discriminate.
  intros k _ d (it & [] & _).
Qed.

(** The map after the key of the current entry has been made present. *)
Lemma ensure_key (items : list Item.t) (m : pricingMap) (key : string)
      (item : Item.t) :
  priced_inv items m ->
  let m1 := if map_has key m then m
            else (m ++ [(key, fresh_model h key item)])%list in
  NoDup (map fst m1) /\
  (forall k, k <> key -> map_get k m1 = map_get k m) /\
  exists v1, map_get key m1 = Some v1 /\
             PricingModel.name v1 = key /\
             (is_Some (PricingModel.inputPrice v1) <-> observed items key input) /\
             (is_Some (PricingModel.outputPrice v1) <-> observed items key output).
Proof.
  intros (Hnd & Hsome & Hnone). cbn zeta.
  destruct (map_has key m) eqn:Hhas.
  - split; [exact Hnd|]. split; [reflexivity|].
    destruct (map_get key m) as [v|] eqn:Hg.
    + exists v. split; [reflexivity|]. now apply Hsome.
    + apply map_has_get in Hg. congruence.
  - apply map_has_get in Hhas. split; [|split].
    + rewrite map_app. simpl. apply NoDup_app. split; [exact Hnd|].
      split; [|apply NoDup_singleton].
      intros x Hx Hk. apply list_elem_of_singleton in Hk as ->.
      revert Hx. rewrite list_elem_of_In. now apply map_get_None_keys.
    + intros k Hk. rewrite map_get_snoc.
      destruct (map_get k m); [reflexivity|].
      destruct (String.eqb_spec key k); congruence.
    + exists (fresh_model h key item). rewrite map_get_snoc, Hhas.
      rewrite String.eqb_refl. split; [reflexivity|].
      split; [reflexivity|].
      split; (split; [intros [? [=]] | intros Ho; now apply Hnone in Ho]).
Qed.

Lemma priced_inv_step (items : list Item.t) (m : pricingMap) (item : Item.t) :
  priced_inv items m ->
  priced_inv (items ++ [item])%list (pricing_step h m item).
Proof.
  intros Hinv. unfold pricing_step.
  destruct (extractModelFromMeter (Item.meterName item) (Item.productName item))
    as [[key ty]|] eqn:He.
  - destruct (ensure_key items m key item Hinv)
      as (Hnd1 & Hother & v1 & Hg1 & Hname1 & Hin1 & Hout1).
    pose proof Hinv as (_ & Hsome & Hnone).
    cbn [ModelInfo.model ModelInfo.type].
    set (m1 := if map_has key m then m
               else (m ++ [(key, fresh_model h key item)])%list) in *.
    assert (Hkeys : forall f, NoDup (map fst (map_update key f m1)))
      by (intros f; now rewrite map_update_keys).
    assert (Hfar : forall f k, k <> key ->
              map_get k (map_update key f m1) = map_get k m).
    { intros f k Hk. rewrite map_get_update.
      destruct (String.eqb_spec key k); [congruence|]. now apply Hother. }
    assert (Hnear : forall f, map_get key (map_update key f m1) = Some (f v1)).
    { intros f. rewrite map_get_update, String.eqb_refl, Hg1. reflexivity. }
    assert (Hobs : forall k d, k <> key ->
              observed (items ++ [item])%list k d <-> observed items k d).
    { intros k d Hk. rewrite observed_snoc, He. split; [|tauto].
      intros [Ho|[=]]; [exact Ho | congruence]. }
    destruct ty; (split; [apply Hkeys|split]).
    + intros k v. destruct (String.eqb_spec k key) as [->|Hk].
      * rewrite Hnear. intros [= <-]. simpl. split; [exact Hname1|].
        rewrite !observed_snoc, He. split.
        -- split; [intros _; now right | intros _; eexists; reflexivity].
        -- rewrite Hout1. split; [tauto|]. intros [Ho|[=]]; exact Ho.
      * rewrite Hfar by exact Hk. intros Hg.
        rewrite !Hobs by exact Hk. now apply Hsome.
    + intros k. destruct (String.eqb_spec k key) as [->|Hk].
      * now rewrite Hnear.
      * rewrite Hfar by exact Hk. intros Hg d. rewrite Hobs by exact Hk.
        now apply Hnone.
    + intros k v. destruct (String.eqb_spec k key) as [->|Hk].
      * rewrite Hnear. intros [= <-]. simpl. split; [exact Hname1|].
        rewrite !observed_snoc, He. split.
        -- rewrite Hin1. split; [tauto|]. intros [Ho|[=]]; exact Ho.
        -- split; [intros _; now right | intros _; eexists; reflexivity].
      * rewrite Hfar by exact Hk. intros Hg.
        rewrite !Hobs by exact Hk. now apply Hsome.
    + intros k. destruct (String.eqb_spec k key) as [->|Hk].
      * now rewrite Hnear.
      * rewrite Hfar by exact Hk. intros Hg d. rewrite Hobs by exact Hk.
        now apply Hnone.
  - destruct Hinv as (Hnd & Hsome & Hnone).
    assert (Hobs : forall k d,
              observed (items ++ [item])%list k d <-> observed items k d).
    { intros k d. rewrite observed_snoc, He. split; [|tauto].
      intros [Ho|[=]]; exact Ho. }
    split; [exact Hnd|split].
    + intros k v Hg. rewrite !Hobs. now apply Hsome.
    + intros k Hg d. rewrite Hobs. now apply Hnone.
Qed.

Lemma priced_inv_fold (items seen : list Item.t) (m : pricingMap) :
  priced_inv seen m ->
  priced_inv (seen ++ items)%list (fold_left (pricing_step h) items m).
Proof.
  revert seen m; induction items as [|item items IH]; intros seen m Hinv.
  - now rewrite app_nil_r.
  - simpl. replace (seen ++ item :: items)%list
      with ((seen ++ [item]) ++ items)%list by now rewrite <- app_assoc.
    apply IH. now apply priced_inv_step.
Qed.

End ParsePricing.

Section FilterFacts.
Context {A B : Type} (f : A -> B) (P : A -> bool).

Lemma In_filter (x : A) (l : list A) :
  In x (filter P l) <-> P x = true /\ In x l.
Proof.
  rewrite <- !list_elem_of_In, list_elem_of_filter.
  now rewrite Is_true_true.
Qed.

Lemma In_map_filter (y : B) (l : list A) :
  In y (map f (filter P l)) -> In y (map f l).
Proof.
  rewrite !in_map_iff. intros (x & <- & Hx). apply In_filter in Hx as [_ Hx].
  eauto.
Qed.

Lemma NoDup_map_filter (l : list A) :
  NoDup (map f l) -> NoDup (map f (filter P l)).
Proof.
  induction l as [|x l IH]; simpl; [intros _; constructor|].
  rewrite NoDup_cons. intros [Hx Hnd]. rewrite filter_cons.
  destruct (decide (P x)); [|now apply IH].
  simpl. apply NoDup_cons. split; [|now apply IH].
  rewrite list_elem_of_In in *. intros Hin. apply Hx.
  now apply In_map_filter.
Qed.

End FilterFacts.

Lemma names_are_keys (m : pricingMap) :
  (forall k v, In (k, v) m -> PricingModel.name v = k) ->
  map PricingModel.name (map snd m) = map fst m.
Proof.
  induction m as [|[k v] m IH]; simpl; intros H; [reflexivity|].
  rewrite (H k v) by now left. f_equal. apply IH. intros; apply H; now right.
Qed.

Lemma both_prices_spec (v : PricingModel.t) :
  both_prices v = true <->
  is_Some (PricingModel.inputPrice v) /\ is_Some (PricingModel.outputPrice v).
Proof.
  unfold both_prices.
  destruct (PricingModel.inputPrice v), (PricingModel.outputPrice v);
    split; try discriminate; eauto;
    intros [[? E1] [? E2]]; discriminate.
Qed.

(** ** C5 *)


(** ** [calculateSummary] *)

Section SummaryFacts.
Import Reference.
Local Open Scope Q_scope.

Lemma fold_sumQ (f : ModelSnapshot.t -> Q) (l : list ModelSnapshot.t) (a : Q) :
  fold_left (fun sum m => sum + f m) l a == a + sumQ (map f l).
Proof.
  revert a; induction l as [|m l IH]; intros a; simpl.
  - ring.
  - rewrite IH. ring.
Qed.






End SummaryFacts.

(** ** C7 *)



(** ** Binary64 arithmetic *)

Section DoubleFacts.
Local Open Scope Q_scope.

Lemma pow2_pos (e : Z) : 0 < Double.pow2 e.
Proof. apply Qpower_0_lt. reflexivity. Qed.

Lemma pow2_add (a b : Z) :
  Double.pow2 (a + b) == Double.pow2 a * Double.pow2 b.
Proof. apply Qpower_plus. discriminate. Qed.

Lemma pow2_le (a b : Z) : (a <= b)%Z -> Double.pow2 a <= Double.pow2 b.
Proof. intros H. apply Qpower_le_compat_l; [exact H | discriminate]. Qed.

Lemma pow2_inject (n : Z) :
  (0 <= n)%Z -> Double.pow2 n == inject_Z (2 ^ n).
Proof. intros H. unfold Double.pow2. now rewrite Zpower_Qpower. Qed.



Lemma Qabs_le_elim (x b : Q) : Qabs x <= b -> - b <= x /\ x <= b.
Proof. apply Qabs_Qle_condition. Qed.

Lemma Qmult_le_nonneg_l (z x y : Q) : 0 <= z -> x <= y -> z * x <= z * y.
Proof.
  intros Hz H. rewrite (Qmult_comm z x), (Qmult_comm z y).
  now apply Qmult_le_compat_r.
Qed.

(** [ilog2 q] is the integer part of the binary logarithm of [q]. *)
Lemma ilog2_spec (q : Q) :
  0 < q ->
  Double.pow2 (Double.ilog2 q) <= q /\ q < Double.pow2 (Double.ilog2 q + 1).
Proof.
  intros Hq. destruct q as [n d]. unfold Double.ilog2. cbn [Qnum Qden].
  assert (Hn : (0 < n)%Z).
  { unfold Qlt in Hq. simpl in Hq. lia. }
  pose proof (Z.log2_spec n Hn) as [Hn1 Hn2].
  pose proof (Z.log2_spec (Zpos d) eq_refl) as [Hd1 Hd2].
  pose proof (Z.log2_nonneg n) as Hln.
  pose proof (Z.log2_nonneg (Zpos d)) as Hld.
  set (ln := Z.log2 n) in *. set (ld := Z.log2 (Zpos d)) in *.
  assert (Hq' : n # d == inject_Z n / inject_Z (Zpos d)) by apply Qmake_Qdiv.
  assert (Hdpos : 0 < inject_Z (Zpos d)) by reflexivity.
  assert (En : Double.pow2 ln <= inject_Z n /\
               inject_Z n < Double.pow2 (ln + 1)).
  { rewrite !pow2_inject by lia. rewrite <- Zle_Qle, <- Zlt_Qlt.
    replace (ln + 1)%Z with (Z.succ ln) by lia. auto. }
  assert (Ed : Double.pow2 ld <= inject_Z (Zpos d) /\
               inject_Z (Zpos d) < Double.pow2 (ld + 1)).
  { rewrite !pow2_inject by lia. rewrite <- Zle_Qle, <- Zlt_Qlt.
    replace (ld + 1)%Z with (Z.succ ld) by lia. auto. }
  destruct En as [En1 En2], Ed as [Ed1 Ed2].
  assert (Hlow : Double.pow2 (ln - ld - 1) <= n # d).
  { rewrite Hq'. apply Qle_shift_div_l; [exact Hdpos|].
    apply Qle_trans with (Double.pow2 (ln - ld - 1) * Double.pow2 (ld + 1)).
    - apply Qmult_le_l; [apply pow2_pos | now apply Qlt_le_weak].
    - rewrite <- pow2_add. replace (ln - ld - 1 + (ld + 1))%Z with ln by lia.
      exact En1. }
  assert (Hhigh : n # d < Double.pow2 (ln - ld + 1)).
  { rewrite Hq'. apply Qlt_shift_div_r; [exact Hdpos|].
    apply Qlt_le_trans with (Double.pow2 (ln + 1)); [exact En2|].
    replace (ln + 1)%Z with (ln - ld + 1 + ld)%Z by lia. rewrite pow2_add.
    apply Qmult_le_l; [apply pow2_pos | exact Ed1]. }
  destruct (Qle_bool (Double.pow2 (ln - ld)) (n # d)) eqn:E.
  - apply Qle_bool_iff in E. split; [exact E | exact Hhigh].
  - split; [exact Hlow|].
    replace (ln - ld - 1 + 1)%Z with (ln - ld)%Z by lia.
    apply Qnot_le_lt. intros H. apply Qle_bool_iff in H. congruence.
Qed.

Lemma nearest_even_spec (x : Q) :
  Qabs (inject_Z (Double.nearest_even x) - x) <= 1 # 2.
Proof.
  unfold Double.nearest_even.
  pose proof (Qfloor_le x) as Hlo. pose proof (Qlt_floor x) as Hhi.
  rewrite inject_Z_plus in Hhi. change (inject_Z 1) with 1 in Hhi.
  apply Qabs_Qle_condition.
  destruct (Qcompare_spec (x - inject_Z (Qfloor x)) (1 # 2)) as [E|E|E].
  - destruct (Z.even (Qfloor x)); rewrite ?inject_Z_plus;
      change (inject_Z 1) with 1; split; lra.
  - split; lra.
  - rewrite inject_Z_plus. change (inject_Z 1) with 1. split; lra.
Qed.

Lemma Qabs_pos_lt (q : Q) : ~ q == 0 -> 0 < Qabs q.
Proof.
  intros Hq. destruct (Qlt_le_dec 0 (Qabs q)) as [H|H]; [exact H|].
  exfalso. apply Hq. pose proof (Qabs_nonneg q).
  assert (E : Qabs q == 0) by lra.
  revert E. apply Qabs_case; intros; lra.
Qed.


(** [round q] is a binary64 value: a whole number of at most 53 bits times
    a power of two not below 2^-1074. *)
Lemma round_is_binary64 (q : Q) :
  exists (m e : Z),
    Double.round q == inject_Z m * Double.pow2 e /\
    (Z.abs m <= 2 ^ 53)%Z /\ (-1074 <= e)%Z.
Proof.
  unfold Double.round. destruct (Qeq_bool q 0) eqn:E.
  - exists 0%Z, 0%Z. split; [reflexivity | split; lia].
  - apply Qeq_bool_neq in E.
    exists (Double.nearest_even (q / Double.pow2 (Double.ulp_exp q))),
           (Double.ulp_exp q).
    split; [reflexivity|]. split; [|unfold Double.ulp_exp; lia].
    pose proof (Qabs_pos_lt q E) as Hpos.
    destruct (ilog2_spec _ Hpos) as [_ Hhi].
    set (k := Double.ilog2 (Qabs q)) in *.
    assert (He : (k - 52 <= Double.ulp_exp q)%Z)
      by (unfold Double.ulp_exp; fold k; lia).
    apply pow2_le in He.
    pose proof (pow2_pos (Double.ulp_exp q)) as Hp.
    pose proof (pow2_pos (k - 52)) as Hp'.
    set (e := Double.pow2 (Double.ulp_exp q)) in *.
    pose proof (nearest_even_spec (q / e)) as Hn.
    set (m := Double.nearest_even (q / e)) in *.
    assert (Hx : Qabs (q / e) < inject_Z (2 ^ 53)).
    { unfold Qdiv. rewrite Qabs_Qmult, Qabs_Qinv, (Qabs_pos e) by lra.
      apply Qlt_shift_div_r; [exact Hp|].
      apply Qlt_le_trans with (Double.pow2 (k + 1)); [exact Hhi|].
      replace (k + 1)%Z with (53 + (k - 52))%Z by lia.
      rewrite pow2_add, (pow2_inject 53) by lia.
      apply Qmult_le_nonneg_l; [discriminate | exact He]. }
    apply Qabs_le_elim in Hn.
    assert (Hm : - inject_Z (2 ^ 53) - 1 < inject_Z m /\
                 inject_Z m < inject_Z (2 ^ 53) + 1).
    { revert Hx. apply Qabs_case; intros; split; lra. }
    destruct Hm as [Hm1 Hm2].
    change 1 with (inject_Z 1) in Hm1, Hm2. unfold Qminus in Hm1.
    rewrite <- !inject_Z_opp, <- inject_Z_plus, <- Zlt_Qlt in Hm1.
    rewrite <- inject_Z_plus, <- Zlt_Qlt in Hm2.
    lia.
Qed.


Lemma pow2_lt_inv (a b : Z) : Double.pow2 a < Double.pow2 b -> (a < b)%Z.
Proof. intros H. apply (Qpower_lt_compat_l_inv 2); [exact H | reflexivity]. Qed.

Lemma nearest_even_whole (x : Q) (n : Z) :
  x == inject_Z n -> Double.nearest_even x = n.
Proof.
  intros E. unfold Double.nearest_even.
  assert (Hf : Qfloor x = n) by (rewrite E; apply Qfloor_Z).
  rewrite Hf.
  assert (Hc : Qcompare (x - inject_Z n) (1 # 2) = Lt).
  { apply Qlt_alt. rewrite E. unfold Qminus. rewrite Qplus_opp_r. reflexivity. }
  now rewrite Hc.
Qed.

(** A binary64 value is read as itself. *)
Lemma round_binary64 (m e : Z) :
  (Z.abs m <= 2 ^ 53)%Z -> (-1074 <= e)%Z ->
  Double.round (inject_Z m * Double.pow2 e) == inject_Z m * Double.pow2 e.
Proof.
  intros Hm He. set (x := inject_Z m * Double.pow2 e).
  unfold Double.round. destruct (Qeq_bool x 0) eqn:E0.
  { apply Qeq_bool_iff in E0. now rewrite E0. }
  apply Qeq_bool_neq in E0.
  pose proof (pow2_pos e) as Hpe.
  assert (Habs : Qabs x == inject_Z (Z.abs m) * Double.pow2 e).
  { unfold x. rewrite Qabs_Qmult, (Qabs_pos (Double.pow2 e)) by lra.
    apply Qmult_comp; [|reflexivity].
    unfold Qabs, inject_Z. reflexivity. }
  destruct (ilog2_spec (Qabs x) (Qabs_pos_lt x E0)) as [Hlo Hhi].
  set (k := Double.ilog2 (Qabs x)) in *.
  assert (Hm0 : m <> 0%Z).
  { intros ->. apply E0. unfold x. ring. }
  assert (Hk : (k <= 53 + e)%Z).
  { assert (Hlt : Double.pow2 k < Double.pow2 (54 + e)).
    { apply Qle_lt_trans with (Qabs x); [exact Hlo|].
      rewrite Habs, pow2_add, (pow2_inject 54) by lia.
      apply Qmult_lt_compat_r; [exact Hpe|].
      rewrite <- Zlt_Qlt. lia. }
    apply pow2_lt_inv in Hlt. lia. }
  unfold Double.ulp_exp. fold k.
  destruct (Z.le_gt_cases (Z.max (k - 52) (-1074)) e) as [Hle|Hgt].
  - (* the spacing divides the value *)
    set (e' := Z.max (k - 52) (-1074)) in *.
    assert (Hx : x / Double.pow2 e' == inject_Z (m * 2 ^ (e - e'))).
    { unfold x. rewrite inject_Z_mult, <- pow2_inject by lia.
      replace e with ((e - e') + e')%Z at 1 by lia.
      rewrite pow2_add. pose proof (pow2_pos e'). field. lra. }
    rewrite (nearest_even_whole _ _ Hx), <- Hx.
    pose proof (pow2_pos e'). field. lra.
  - (* the value is a power of two with the largest significand *)
    assert (Hk' : k = (53 + e)%Z) by lia.
    assert (Hm53 : Z.abs m = (2 ^ 53)%Z).
    { apply Z.le_antisymm; [exact Hm|].
      rewrite Hk', Habs, pow2_add, (pow2_inject 53) in Hlo by lia.
      apply Qmult_le_r in Hlo; [|exact Hpe].
      now rewrite <- Zle_Qle in Hlo. }
    replace (Z.max (k - 52) (-1074)) with (e + 1)%Z by lia.
    assert (Hx : x / Double.pow2 (e + 1) == inject_Z (m / 2)).
    { unfold x. rewrite pow2_add.
      assert (Em : m = (2 * (m / 2))%Z).
      { assert (Hmod : (m mod 2 = 0)%Z).
        { destruct (Z.abs_eq_or_opp m) as [E|E]; rewrite E in Hm53.
          - rewrite Hm53. reflexivity.
          - replace m with (- 2 ^ 53)%Z by lia. reflexivity. }
        pose proof (Z.div_mod m 2). lia. }
      rewrite Em at 1. rewrite inject_Z_mult.
      change (Double.pow2 1) with 2. change (inject_Z 2) with 2.
      field. lra. }
    rewrite (nearest_even_whole _ _ Hx), <- Hx.
    pose proof (pow2_pos (e + 1)). field. lra.
Qed.





End DoubleFacts.

(** ** [calculateTrend] *)

Lemma last_two {A : Type} (l : list A) :
  (2 <= length l)%nat -> exists front a b, l = (front ++ [a; b])%list.
Proof.
  intros Hlen.
  destruct (rev l) as [|b [|a tl]] eqn:E.
  - apply (f_equal (@length A)) in E. rewrite length_rev in E. simpl in E. lia.
  - apply (f_equal (@length A)) in E. rewrite length_rev in E. simpl in E. lia.
  - exists (rev tl), a, b. rewrite <- (rev_involutive l), E. simpl.
    now rewrite <- app_assoc.
Qed.



Section TrendFacts.
Local Open Scope Q_scope.




End TrendFacts.

(** ** C9 *)

Lemma combineModelData_lookup (h : Host.t) (pricingModels : list PricingModel.t)
      (usageData : gmap string Usage.t) (k : nat) (pm : PricingModel.t) :
  pricingModels !! k = Some pm ->
  exists s,
    combineModelData h pricingModels usageData !! k = Some s /\
    ModelSnapshot.name s = PricingModel.name pm /\
    ModelSnapshot.inputPrice s = PricingModel.inputPrice pm /\
    ModelSnapshot.outputPrice s = PricingModel.outputPrice pm /\
    ModelSnapshot.usage s
    = default Usage.zero (usageData !! PricingModel.name pm) /\
    ModelSnapshot.trend s
    = calculateTrend (Host.exponential h)
                     (Usage.dailyData (ModelSnapshot.usage s)).
Proof.
  intros Hk. unfold combineModelData. rewrite list_lookup_imap, Hk. simpl.
  eexists. split; [reflexivity|]. repeat split.
Qed.

Lemma scenario_pricing (h : Host.t) :
  parsePricingData h Sample.catalogue
  = [ PricingModel.mk "gpt-4o" (Some (25 # 10000000)%Q) (Some (1 # 100000)%Q)
                      "westeurope" "USD" "active" (Host.isoString h) ].
Proof.
  assert (E1 : extractModelFromMeter "gpt-4o input" "Azure OpenAI"
               = Some (ModelInfo.mk "gpt-4o" input)) by (vm_compute; reflexivity).
  assert (E2 : extractModelFromMeter "gpt-4o output" "Azure OpenAI"
               = Some (ModelInfo.mk "gpt-4o" output)) by (vm_compute; reflexivity).
  unfold parsePricingData, Sample.catalogue, items_of. cbn [Items fold_left].
  unfold pricing_step at 2. cbn [Item.meterName Item.productName]. rewrite E1.
  cbn [ModelInfo.model ModelInfo.type map_has app map_update]. rewrite String.eqb_refl.
  unfold pricing_step. cbn [Item.meterName Item.productName]. rewrite E2.
  cbn [ModelInfo.model ModelInfo.type map_has app map_update]. rewrite String.eqb_refl.
  reflexivity.
Qed.

Lemma scenario_usage :
  parseUsageData Sample.zero_usage
  = <[ "gpt-4o" := Usage.mk 0 0 0 0 [DailyEntry.mk "2024-01-01" 0 0] ]> ∅.
Proof. vm_compute. reflexivity. Qed.



(** ** Effects *)

Section MonadFacts.
Context {A B : Type}.

Lemma bind_run (m : M A) (k : A -> M B) (s : Service.t) :
  (m ≫= k) s =
  match m s with
  | (Returned a, s') => k a s'
  | (Thrown e, s') => (Thrown e, s')
  end.
Proof. reflexivity. Qed.

Lemma request_run (e : endpoint) (r : response A)
      (notOk : Z -> string -> string) (s : Service.t) :
  request e r notOk s =
  match r with
  | Body a => (Returned a, Service.log_request e s)
  | FetchRejects m | JsonRejects m | WrongShape m =>
      (Thrown (Error m), Service.log_request e s)
  | NotOk status text =>
      (Thrown (Error (notOk status text)), Service.log_request e s)
  end.
Proof. destruct r; reflexivity. Qed.

Lemma request_failed (e : endpoint) (r : response A)
      (notOk : Z -> string -> string) (s : Service.t) :
  failed r = true ->
  exists err, request e r notOk s = (Thrown err, Service.log_request e s).
Proof. destruct r; try discriminate; intros _; eexists; reflexivity. Qed.

End MonadFacts.

(** Runs a fetch method up to the answer of its request: the [try] block
    is entered and the request is replaced by what it comes to. *)
Ltac run_request := unfold try_catch; rewrite bind_run, request_run.

(** ** C8 *)

(** C8.  For every exchange-rate fetch that fails (the request is rejected,
    the response is not OK, or its body cannot be read or used),
    [fetchExchangeRates] returns rather than throws, what it returns is the
    cached [exchangeRates] object, and the call leaves the service as it was
    except for the record that the request was issued; in particular the
    cached rates are the same object afterwards. *)
Theorem fetchExchangeRates_failure_keeps_cached
        (w : World.t) (s : Service.t) :
  failed (World.ratesResponse w) = true ->
  fetchExchangeRates w s
  = (Returned (Service.exchangeRates s),
     Service.log_request ExchangeRateAPI s) /\
  Service.exchangeRates (snd (fetchExchangeRates w s)) = Service.exchangeRates s.
Proof.
  intros Hf. unfold fetchExchangeRates. run_request.
  destruct (World.ratesResponse w); try discriminate; split; reflexivity.
Qed.

Lemma fetchExchangeRates_failure_witness :
  failed (World.ratesResponse Sample.offline) = true /\
  fetchExchangeRates Sample.offline Sample.service
  = (Returned (Service.exchangeRates Sample.service),
     Service.log_request ExchangeRateAPI Sample.service).
Proof.
  split; [reflexivity|].
  apply (fetchExchangeRates_failure_keeps_cached Sample.offline Sample.service).
  reflexivity.
Defined.

(** ** C1 *)

(** C1, counterexample.  A first fetch succeeds and caches its parsed list
    (one record, gpt-4o).  The next fetch fails: what it returns is the
    built-in list of three records, not the cached last good list. *)
Lemma fetchRealTimePricing_failure_ignores_last_good :
  fst (fetchRealTimePricing Sample.online Sample.service)
  = Returned (parsePricingData Sample.host Sample.catalogue) /\
  Service.cache_pricing Sample.priced
  = Some (CacheEntry.mk (parsePricingData Sample.host Sample.catalogue)
                        (Host.now Sample.host)) /\
  fst (fetchRealTimePricing Sample.offline Sample.priced)
  = Returned (getFallbackPricing Sample.host "westeurope") /\
  getFallbackPricing Sample.host "westeurope"
  <> parsePricingData Sample.host Sample.catalogue.
Proof.
  split; [reflexivity|]. split; [reflexivity|]. split; [reflexivity|].
  rewrite scenario_pricing. discriminate.
Qed.

(** C1 (as amended).  For every pricing fetch in which the catalogue
    request or the reading of its response fails, [fetchRealTimePricing]
    returns rather than throws, and what it returns is the built-in default
    list (for the configured region), whatever an earlier fetch has cached;
    the cached pricing entry is left as it was. *)
Theorem fetchRealTimePricing_failure_returns_builtin
        (w : World.t) (s : Service.t) :
  failed (World.pricingResponse w) = true ->
  fetchRealTimePricing w s
  = (Returned (getFallbackPricing (World.host w)
                                  (Config.region (Service.config s))),
     Service.log_request PricesAPI s) /\
  Service.cache_pricing (snd (fetchRealTimePricing w s))
  = Service.cache_pricing s.
Proof.
  intros Hf. unfold fetchRealTimePricing. run_request.
  destruct (World.pricingResponse w); try discriminate; split; reflexivity.
Qed.

Lemma fetchRealTimePricing_failure_witness :
  failed (World.pricingResponse Sample.offline) = true /\
  fetchRealTimePricing Sample.offline Sample.priced
  = (Returned (getFallbackPricing Sample.host "westeurope"),
     Service.log_request PricesAPI Sample.priced).
Proof.
  split; [reflexivity|].
  apply (fetchRealTimePricing_failure_returns_builtin
           Sample.offline Sample.priced).
  reflexivity.
Defined.

(** ** C10 *)

Lemma token_is_fresh_spec (w : World.t) (s : Service.t) :
  token_is_fresh w s = true <->
  exists cached,
    Service.cache_azure_token s = Some cached /\
    (Host.now (World.host w) - CacheEntry.timestamp cached < 50 * 60 * 1000)%Z.
Proof.
  unfold token_is_fresh, token_window.
  destruct (Service.cache_azure_token s) as [c|].
  - rewrite Z.ltb_lt. split; [eauto|]. now intros (c' & [= <-] & H).
  - split; [discriminate|]. now intros (c' & [=] & _).
Qed.

Lemma getAzureAccessToken_run (w : World.t) (s : Service.t) :
  getAzureAccessToken w s =
  match Service.cache_azure_token s with
  | Some cached =>
      if token_is_fresh w s then (Returned (CacheEntry.data cached), s)
      else
        match World.tokenResponse w with
        | Body tokenData =>
            (Returned (access_token tokenData),
             Service.set_cache_azure_token
               (CacheEntry.mk (access_token tokenData) (Host.now (World.host w)))
               (Service.log_request TokenEndpoint s))
        | FetchRejects m | JsonRejects m | WrongShape m =>
            (Thrown (Error m), Service.log_request TokenEndpoint s)
        | NotOk status _ =>
            (Thrown (Error ("Authentication failed: "
                            ++ JsNumber.string_of_Z status)),
             Service.log_request TokenEndpoint s)
        end
  | None =>
      match World.tokenResponse w with
      | Body tokenData =>
          (Returned (access_token tokenData),
           Service.set_cache_azure_token
             (CacheEntry.mk (access_token tokenData) (Host.now (World.host w)))
             (Service.log_request TokenEndpoint s))
      | FetchRejects m | JsonRejects m | WrongShape m =>
          (Thrown (Error m), Service.log_request TokenEndpoint s)
      | NotOk status _ =>
          (Thrown (Error ("Authentication failed: "
                          ++ JsNumber.string_of_Z status)),
           Service.log_request TokenEndpoint s)
      end
  end.
Proof.
  unfold getAzureAccessToken, token_is_fresh.
  rewrite bind_run. cbn [get]. unfold try_catch.
  destruct (Service.cache_azure_token s) as [c|];
    [destruct (_ <? _)%Z; [reflexivity|]|];
    rewrite bind_run, request_run;
    destruct (World.tokenResponse w); reflexivity.
Qed.

(** C10, counterexample.  The token endpoint issued, at time 0, a token
    that expires after 600 seconds.  Twenty minutes later the token is past
    its expiry, and [getAzureAccessToken] still returns it from the cache
    and issues no request (the service, request log included, is
    unchanged). *)
Lemma getAzureAccessToken_reuses_expired_token :
  Service.cache_azure_token Sample.authenticated
  = Some (CacheEntry.mk "token-1" 0) /\
  (0 + 600 * 1000 <= Host.now (World.host Sample.twenty_minutes_on))%Z /\
  getAzureAccessToken Sample.twenty_minutes_on Sample.authenticated
  = (Returned "token-1", Sample.authenticated).
Proof. split; [reflexivity|]. split; [vm_compute; discriminate|reflexivity]. Qed.

(** C10 (as amended).  For every call to [getAzureAccessToken]: the cached
    token is reused exactly when a cache entry exists and fewer than 50
    minutes (3 000 000 ms) have passed since it was cached, whatever the
    token's own expiry; in that case the cached value is returned and no
    request is issued (the service is unchanged).  Otherwise one request goes
    to the token endpoint; if it is answered, the new token is returned and
    cached with the current time, replacing the old entry; if it fails, the
    call throws and the cache keeps what it had. *)
Theorem getAzureAccessToken_reuse_window (w : World.t) (s : Service.t) :
  (token_is_fresh w s = true <->
   exists cached,
     Service.cache_azure_token s = Some cached /\
     (Host.now (World.host w) - CacheEntry.timestamp cached
      < 50 * 60 * 1000)%Z) /\
  (token_is_fresh w s = true ->
   exists cached,
     Service.cache_azure_token s = Some cached /\
     getAzureAccessToken w s = (Returned (CacheEntry.data cached), s)) /\
  (token_is_fresh w s = false ->
   forall tokenData, World.tokenResponse w = Body tokenData ->
     getAzureAccessToken w s
     = (Returned (access_token tokenData),
        Service.set_cache_azure_token
          (CacheEntry.mk (access_token tokenData) (Host.now (World.host w)))
          (Service.log_request TokenEndpoint s))) /\
  (token_is_fresh w s = false ->
   failed (World.tokenResponse w) = true ->
   exists e,
     getAzureAccessToken w s = (Thrown e, Service.log_request TokenEndpoint s)).
Proof.
  split; [apply token_is_fresh_spec|].
  rewrite getAzureAccessToken_run.
  split; [|split].
  - intros Hfresh. unfold token_is_fresh in *.
    destruct (Service.cache_azure_token s) as [c|]; [|discriminate].
    exists c. now rewrite Hfresh.
  - intros Hstale tokenData Hbody. rewrite Hbody.
    destruct (Service.cache_azure_token s); [now rewrite Hstale | reflexivity].
  - intros Hstale Hfail.
    destruct (World.tokenResponse w); try discriminate;
      (destruct (Service.cache_azure_token s);
       [rewrite Hstale|]; eexists; reflexivity).
Qed.

(** ** The fetchers never throw *)

Lemma fetchRealTimePricing_run (w : World.t) (s : Service.t) :
  fetchRealTimePricing w s =
  match World.pricingResponse w with
  | Body data =>
      (Returned (parsePricingData (World.host w) data),
       Service.set_cache_pricing
         (CacheEntry.mk (parsePricingData (World.host w) data)
                        (Host.now (World.host w)))
         (Service.log_request PricesAPI s))
  | _ =>
      (Returned (getFallbackPricing (World.host w)
                                    (Config.region (Service.config s))),
       Service.log_request PricesAPI s)
  end.
Proof.
  unfold fetchRealTimePricing. run_request.
  destruct (World.pricingResponse w); reflexivity.
Qed.

Lemma fetchUsageData_run (w : World.t) (s : Service.t) :
  fetchUsageData w s =
  match getAzureAccessToken w s with
  | (Thrown _, s1) => (Returned getFallbackUsage, s1)
  | (Returned _, s1) =>
      match World.usageResponse w with
      | Body data =>
          (Returned (parseUsageData data),
           Service.set_cache_usage
             (CacheEntry.mk (parseUsageData data) (Host.now (World.host w)))
             (Service.log_request CostManagementAPI s1))
      | _ => (Returned getFallbackUsage,
              Service.log_request CostManagementAPI s1)
      end
  end.
Proof.
  unfold fetchUsageData, try_catch. rewrite bind_run.
  destruct (getAzureAccessToken w s) as [[tok|e] s1]; [|reflexivity].
  rewrite bind_run, request_run.
  destruct (World.usageResponse w); reflexivity.
Qed.

Lemma fetchExchangeRates_run (w : World.t) (s : Service.t) :
  fetchExchangeRates w s =
  match World.ratesResponse w with
  | Body data =>
      let rates := Rates.mk (rate_or (CZK data) (245 # 10))
                            (Some (rate_or (EUR data) (85 # 100)))
                            (Host.now (World.host w)) in
      (Returned rates,
       Service.set_exchangeRates rates (Service.log_request ExchangeRateAPI s))
  | _ => (Returned (Service.exchangeRates s),
          Service.log_request ExchangeRateAPI s)
  end.
Proof.
  unfold fetchExchangeRates. run_request.
  destruct (World.ratesResponse w); reflexivity.
Qed.

Lemma same_published_refl (s : Service.t) : same_published s s.
Proof. now repeat split. Qed.

Lemma same_published_trans (s1 s2 s3 : Service.t) :
  same_published s1 s2 -> same_published s2 s3 -> same_published s1 s3.
Proof.
  intros (L1 & W1 & S1 & C1) (L2 & W2 & S2 & C2).
  repeat split; congruence.
Qed.

Lemma getAzureAccessToken_frame (w : World.t) (s : Service.t) :
  same_published s (snd (getAzureAccessToken w s)) /\
  Service.cache_usage (snd (getAzureAccessToken w s)) = Service.cache_usage s.
Proof.
  rewrite getAzureAccessToken_run.
  destruct (Service.cache_azure_token s);
    [destruct (token_is_fresh w s)|];
    try (destruct (World.tokenResponse w)); now repeat split.
Qed.

Lemma fetchRealTimePricing_returns (w : World.t) (s : Service.t) :
  exists v s',
    fetchRealTimePricing w s = (Returned v, s') /\ same_published s s' /\
    Service.cache_azure_token s' = Service.cache_azure_token s.
Proof.
  rewrite fetchRealTimePricing_run.
  destruct (World.pricingResponse w); do 2 eexists;
    (split; [reflexivity|]); now repeat split.
Qed.

Lemma fetchUsageData_returns (w : World.t) (s : Service.t) :
  exists v s', fetchUsageData w s = (Returned v, s') /\ same_published s s'.
Proof.
  rewrite fetchUsageData_run.
  pose proof (getAzureAccessToken_frame w s) as [Hframe _].
  destruct (getAzureAccessToken w s) as [[tok|e] s1]; simpl in Hframe.
  - destruct (World.usageResponse w); do 2 eexists;
      (split; [reflexivity|]);
      (eapply same_published_trans; [exact Hframe|]); now repeat split.
  - do 2 eexists. split; [reflexivity | exact Hframe].
Qed.

Lemma fetchExchangeRates_returns (w : World.t) (s : Service.t) :
  exists v s', fetchExchangeRates w s = (Returned v, s') /\ same_published s s'.
Proof.
  rewrite fetchExchangeRates_run.
  destruct (World.ratesResponse w); do 2 eexists;
    (split; [reflexivity|]); now repeat split.
Qed.

(** ** The snapshot build *)

Lemma branch_run {A : Type} (bug : option stage) (here : stage) (m : M A)
      (s : Service.t) :
  settled (unexpected bug here ;; m) s =
  match bug with
  | Some st =>
      if stage_eqb st here
      then (Returned (Thrown (Error "unexpected error")), s)
      else settled m s
  | None => settled m s
  end.
Proof.
  destruct bug as [st|]; [|reflexivity].
  unfold settled, unexpected. rewrite bind_run.
  destruct (stage_eqb st here); reflexivity.
Qed.

Lemma branch_returns {A : Type} (bug : option stage) (here : stage) (m : M A)
      (s : Service.t) :
  (exists v s', m s = (Returned v, s') /\ same_published s s') ->
  exists o s',
    settled (unexpected bug here ;; m) s = (Returned o, s') /\
    same_published s s'.
Proof.
  intros (v & s' & Hm & Hframe). rewrite branch_run. unfold settled.
  rewrite Hm.
  destruct bug as [st|]; [destruct (stage_eqb st here)|];
    do 2 eexists; (split; [reflexivity|]);
    exact Hframe || apply same_published_refl.
Qed.

Lemma getDashboardData_run (w : World.t) (bug : option stage)
      (s s1 s2 s3 : Service.t) (o1 : outcome (list PricingModel.t))
      (o2 : outcome (gmap string Usage.t)) (o3 : outcome Rates.t) :
  settled (unexpected bug InPricingFetch ;; fetchRealTimePricing w) s
  = (Returned o1, s1) ->
  settled (unexpected bug InUsageFetch ;; fetchUsageData w) s1
  = (Returned o2, s2) ->
  settled (unexpected bug InRatesFetch ;; fetchExchangeRates w) s2
  = (Returned o3, s3) ->
  let pricing := fulfilled_or o1 [] in
  let usage := fulfilled_or o2 ∅ in
  let rates := fulfilled_or o3 (Service.exchangeRates s3) in
  let models := combineModelData (World.host w) pricing usage in
  let d :=
    DashboardData.mk
      models
      (Some (calculateSummary
               (Host.random (World.host w) (10 * length pricing)%nat) models))
      rates (Config.region (Service.config s3))
      (Host.isoString (World.host w)) "success" None in
  let failure (st : Service.t) :=
    DashboardData.mk [] None (Service.exchangeRates st)
                     (Config.region (Service.config st))
                     (Host.isoString (World.host w)) "error"
                     (Some "unexpected error") in
  getDashboardData w bug s =
  match bug with
  | Some InCombine | Some InSummary => (Returned (failure s3), s3)
  | Some InBroadcast =>
      (Returned (failure (Service.set_lastUpdate d s3)),
       Service.set_lastUpdate d s3)
  | _ =>
      (Returned d,
       Service.set_subscribers
         (filter receives (Service.subscribers s3))
         (Service.put_on_wire
            (map (fun ws => (Socket.id ws, d))
                 (filter receives (Service.subscribers s3)))
            (Service.set_lastUpdate d s3)))
  end.
Proof.
  intros H1 H2 H3. cbn zeta.
  unfold getDashboardData, try_catch.
  rewrite bind_run, H1, bind_run, H2, bind_run, H3.
  destruct bug as [[]|]; reflexivity.
Qed.

Lemma fetchRealTimePricing_keeps_rates (w : World.t) (s : Service.t) :
  Service.exchangeRates (snd (fetchRealTimePricing w s))
  = Service.exchangeRates s.
Proof.
  rewrite fetchRealTimePricing_run.
  destruct (World.pricingResponse w); reflexivity.
Qed.

Lemma getAzureAccessToken_keeps_rates (w : World.t) (s : Service.t) :
  Service.exchangeRates (snd (getAzureAccessToken w s))
  = Service.exchangeRates s.
Proof.
  rewrite getAzureAccessToken_run.
  destruct (Service.cache_azure_token s) as [c|];
    [destruct (token_is_fresh w s)|];
    try destruct (World.tokenResponse w); reflexivity.
Qed.

Lemma fetchUsageData_keeps_rates (w : World.t) (s : Service.t) :
  Service.exchangeRates (snd (fetchUsageData w s))
  = Service.exchangeRates s.
Proof.
  rewrite fetchUsageData_run.
  pose proof (getAzureAccessToken_keeps_rates w s) as Hrates.
  destruct (getAzureAccessToken w s) as [[tok|e] s1]; simpl in Hrates.
  - destruct (World.usageResponse w); simpl; exact Hrates.
  - exact Hrates.
Qed.

(** ** C2 *)

(** C2, counterexample.  A first build has published a snapshot with one
    model.  In the next build the pricing fetch rejects unexpectedly: the
    build does not fail, it goes on with an empty pricing list, returns a
    snapshot with status "success" and no models, publishes it in place of
    the previous one and sends it to the connected client. *)
Lemma getDashboardData_publishes_after_rejected_fetch :
  length <$> (DashboardData.models <$> Service.lastUpdate Sample.published)
  = Some 1%nat /\
  DashboardData.status <$> Service.lastUpdate (snd Sample.degraded)
  = Some "success" /\
  DashboardData.models <$> Service.lastUpdate (snd Sample.degraded)
  = Some [] /\
  match fst Sample.degraded with
  | Returned d => Some d
  | Thrown _ => None
  end = Service.lastUpdate (snd Sample.degraded) /\
  (DashboardData.models ∘ snd) <$> last (Service.wire (snd Sample.degraded))
  = Some [] /\
  Service.lastUpdate (snd Sample.degraded)
  <> Service.lastUpdate Sample.published.
Proof.
  split; [vm_compute; reflexivity|]. split; [vm_compute; reflexivity|].
  split; [vm_compute; reflexivity|]. split; [vm_compute; reflexivity|].
  split; [vm_compute; reflexivity|].
  intros E. apply (f_equal (fmap (length ∘ DashboardData.models))) in E.
  vm_compute in E. discriminate E.
Qed.

(** C2 (as amended).  For every snapshot build, whatever the sources answer
    and wherever an unexpected exception is raised, [getDashboardData]
    returns rather than throws.  When the exception is raised inside the
    merge logic ([combineModelData] or [calculateSummary]), the published
    snapshot [lastUpdate] is what it was before the call, nothing is sent to
    the clients, and the result is the error object with no models.  When it
    is one of the three fetches that rejects, the build does not fail: the
    result has status "success" and no error, it becomes the published
    snapshot in place of the previous one and is sent to every subscriber
    that receives; what the rejected fetch would have given is replaced by
    its default -- no models at all for the pricing list, the all-zero usage
    for every model of the pricing list for the usage mapping, the rates the
    service held before the call for the exchange rates.  In every case the
    published snapshot after the call is either the previous one or a fully
    assembled one (models merged, summary computed from them), and every
    message sent carries a fully assembled snapshot. *)
Theorem getDashboardData_never_raises
        (w : World.t) (bug : option stage) (s : Service.t) :
  exists d s',
    getDashboardData w bug s = (Returned d, s') /\
    (forall st, bug = Some st -> in_merge st = true ->
       Service.lastUpdate s' = Service.lastUpdate s /\
       Service.wire s' = Service.wire s /\
       DashboardData.status d = "error" /\
       DashboardData.models d = []) /\
    (forall st, bug = Some st -> in_fetch st = true ->
       DashboardData.status d = "success" /\
       DashboardData.error d = None /\
       Service.lastUpdate s' = Some d /\
       Service.wire s'
       = (Service.wire s
          ++ map (fun ws => (Socket.id ws, d))
                 (filter receives (Service.subscribers s)))%list /\
       (st = InPricingFetch -> DashboardData.models d = []) /\
       (st = InUsageFetch ->
        exists pricing,
          fst (fetchRealTimePricing w s) = Returned pricing /\
          DashboardData.models d
          = combineModelData (World.host w) pricing ∅ /\
          forall m, In m (DashboardData.models d) ->
                    ModelSnapshot.usage m = Usage.zero) /\
       (st = InRatesFetch ->
        DashboardData.exchangeRates d = Service.exchangeRates s)) /\
    (Service.lastUpdate s' = Service.lastUpdate s \/
     exists d', Service.lastUpdate s' = Some d' /\ is_assembled w d') /\
    (exists sent,
       Service.wire s' = (Service.wire s ++ sent)%list /\
       forall msg, In msg sent -> is_assembled w (snd msg)).
Proof.
  destruct (branch_returns bug InPricingFetch (fetchRealTimePricing w) s)
    as (o1 & s1 & H1 & (L1 & W1 & S1 & _)).
  { destruct (fetchRealTimePricing_returns w s) as (v & s' & H & Hf & _).
    eauto. }
  destruct (branch_returns bug InUsageFetch (fetchUsageData w) s1
                           (fetchUsageData_returns w s1))
    as (o2 & s2 & H2 & (L2 & W2 & S2 & _)).
  destruct (branch_returns bug InRatesFetch (fetchExchangeRates w) s2
                           (fetchExchangeRates_returns w s2))
    as (o3 & s3 & H3 & (L3 & W3 & S3 & _)).
  pose proof (getDashboardData_run w bug s s1 s2 s3 _ _ _ H1 H2 H3) as Hrun.
  cbn zeta in Hrun.
  assert (HL : Service.lastUpdate s3 = Service.lastUpdate s) by congruence.
  assert (HW : Service.wire s3 = Service.wire s) by congruence.
  assert (HS : Service.subscribers s3 = Service.subscribers s) by congruence.
  assert (F1 : bug = Some InPricingFetch -> fulfilled_or o1 [] = []).
  { intros ->. rewrite branch_run in H1. simpl in H1.
    injection H1 as <- _. reflexivity. }
  assert (F2 : bug = Some InUsageFetch ->
               fst (fetchRealTimePricing w s) = Returned (fulfilled_or o1 [])
               /\ fulfilled_or o2 ∅ = ∅).
  { intros ->. rewrite branch_run in H1. rewrite branch_run in H2.
    simpl in H1, H2.
    injection H2 as <- _. split; [|reflexivity].
    destruct (fetchRealTimePricing_returns w s) as (v & s' & H & _).
    unfold settled in H1. rewrite H in H1 |- *.
    injection H1 as <- _. reflexivity. }
  assert (F3 : bug = Some InRatesFetch ->
               fulfilled_or o3 (Service.exchangeRates s3)
               = Service.exchangeRates s).
  { intros ->. rewrite branch_run in H1. rewrite branch_run in H2.
    rewrite branch_run in H3. simpl in H1, H2, H3.
    injection H3 as <- <-. simpl.
    unfold settled in H1, H2.
    pose proof (fetchRealTimePricing_keeps_rates w s) as K1.
    pose proof (fetchUsageData_keeps_rates w s1) as K2.
    destruct (fetchRealTimePricing w s) as [r1 t1]. injection H1 as _ <-.
    destruct (fetchUsageData w t1) as [r2 t2]. injection H2 as _ <-.
    simpl in K1, K2. congruence. }
  set (pricing := fulfilled_or o1 []) in *.
  set (usage := fulfilled_or o2 ∅) in *.
  set (rates := fulfilled_or o3 (Service.exchangeRates s3)) in *.
  set (models := combineModelData (World.host w) pricing usage) in *.
  set (d := DashboardData.mk models _ rates _ _ "success" None) in *.
  assert (Hd : is_assembled w d).
  { split; [reflexivity|]. exists pricing, usage. split; reflexivity. }
  assert (Hsilent : exists sent,
             Service.wire s3 = (Service.wire s ++ sent)%list /\
             forall msg, In msg sent -> is_assembled w (snd msg)).
  { exists []. rewrite app_nil_r. split; [exact HW | intros msg []]. }
  assert (Hfull : exists sent,
             (Service.wire s3
              ++ map (fun ws => (Socket.id ws, d))
                     (filter receives (Service.subscribers s3)))%list
             = (Service.wire s ++ sent)%list /\
             forall msg, In msg sent -> is_assembled w (snd msg)).
  { eexists. split; [rewrite HW; reflexivity|].
    intros msg Hmsg. apply in_map_iff in Hmsg as (ws & <- & _). exact Hd. }
  assert (Hzero : usage = ∅ ->
                  forall m, In m models -> ModelSnapshot.usage m = Usage.zero).
  { intros Hu m Hm.
    apply list_elem_of_In, list_elem_of_lookup_1 in Hm as [k Hk].
    destruct (pricing !! k) as [pm|] eqn:Hpm.
    - destruct (combineModelData_lookup (World.host w) _ usage _ _ Hpm)
        as (m' & Hm' & _ & _ & _ & Hus & _).
      unfold models in Hk. rewrite Hk in Hm'. injection Hm' as <-.
      rewrite Hus, Hu, lookup_empty. reflexivity.
    - unfold models, combineModelData in Hk.
      rewrite list_lookup_imap, Hpm in Hk. discriminate. }
  assert (Hfetch : forall st, bug = Some st -> in_fetch st = true ->
             DashboardData.status d = "success" /\
             DashboardData.error d = None /\
             (st = InPricingFetch -> DashboardData.models d = []) /\
             (st = InUsageFetch ->
              exists pricing',
                fst (fetchRealTimePricing w s) = Returned pricing' /\
                DashboardData.models d
                = combineModelData (World.host w) pricing' ∅ /\
                forall m, In m (DashboardData.models d) ->
                          ModelSnapshot.usage m = Usage.zero) /\
             (st = InRatesFetch ->
              DashboardData.exchangeRates d = Service.exchangeRates s)).
  { intros st Hbug _. split; [reflexivity|]. split; [reflexivity|].
    split; [|split].
    - intros ->. change (combineModelData (World.host w) pricing usage = []).
      rewrite (F1 Hbug). reflexivity.
    - intros ->. destruct (F2 Hbug) as [Hp Hu].
      exists pricing. split; [exact Hp|].
      change (DashboardData.models d) with models.
      split; [unfold models; now rewrite Hu | now apply Hzero].
    - intros ->. exact (F3 Hbug). }
  destruct bug as [[]|]; do 2 eexists; (split; [exact Hrun|]);
    (split; [intros st [= <-]; try discriminate; now repeat split|]);
    (split;
     [ intros st Hst Hin;
       first [ injection Hst as <-; discriminate Hin
             | discriminate Hst
             | destruct (Hfetch st Hst Hin) as (Q1 & Q2 & Q3 & Q4 & Q5);
               split; [exact Q1|]; split; [exact Q2|];
               split; [reflexivity|];
               split; [cbn [Service.wire Service.set_subscribers
                            Service.put_on_wire Service.set_lastUpdate];
                       rewrite ?HW, ?HS; reflexivity|];
               split; [exact Q3|]; split; [exact Q4 | exact Q5] ]
     | split; [first [now left | right; exists d; now split]
              | first [exact Hsilent | exact Hfull]]]).
Qed.

(** ** C6 *)

Lemma fetchUsageData_failure (w : World.t) (s : Service.t) :
  usage_fetch_fails w s = true ->
  exists s',
    fetchUsageData w s = (Returned getFallbackUsage, s') /\
    Service.cache_usage s' = Service.cache_usage s.
Proof.
  rewrite fetchUsageData_run, getAzureAccessToken_run.
  unfold usage_fetch_fails, token_is_fresh.
  destruct (Service.cache_azure_token s) as [c|];
    [destruct (_ <? _)%Z|];
    destruct (World.tokenResponse w), (World.usageResponse w);
    simpl; intros Hf; try discriminate Hf;
    eexists; split; reflexivity.
Qed.

Lemma map_imap_const {A B C : Type} (f : B -> C) (g : nat -> A -> B)
      (h : A -> C) (l : list A) :
  (forall i x, f (g i x) = h x) -> map f (imap g l) = map h l.
Proof.
  revert g; induction l as [|x l IH]; intros g Hg; [reflexivity|].
  rewrite imap_cons. simpl. rewrite Hg. f_equal. apply IH.
  intros i y. apply Hg.
Qed.

Lemma costs_of_combine (h : Host.t) (pricing : list PricingModel.t)
      (usage : gmap string Usage.t) :
  map Reference.cost_of (combineModelData h pricing usage)
  = map (fun pm => Usage.totalCost
                     (default Usage.zero (usage !! PricingModel.name pm)))
        pricing.
Proof. unfold combineModelData. now apply map_imap_const. Qed.

Lemma getFallbackUsage_lookup (m : string) :
  getFallbackUsage !! m
  = if String.eqb m "gpt-4o"
    then Some (Usage.mk (1585 # 100) 2450000 980000 3420 [])
    else if String.eqb m "gpt-4o-mini"
    then Some (Usage.mk (326 # 100) 8950000 3200000 15680 [])
    else if String.eqb m "gpt-3.5-turbo"
    then Some (Usage.mk (1560 # 100) 15600000 5200000 28450 [])
    else None.
Proof.
  unfold getFallbackUsage.
  destruct (String.eqb_spec m "gpt-4o") as [->|H1];
    [now rewrite lookup_insert_eq|].
  rewrite lookup_insert_ne by congruence.
  destruct (String.eqb_spec m "gpt-4o-mini") as [->|H2];
    [now rewrite lookup_insert_eq|].
  rewrite lookup_insert_ne by congruence.
  destruct (String.eqb_spec m "gpt-3.5-turbo") as [->|H3];
    [now rewrite lookup_insert_eq|].
  rewrite lookup_insert_ne by congruence.
  apply lookup_empty.
Qed.

(** C6, counterexample.  A first usage fetch succeeds and caches the mapping
    it parsed (one record, gpt-4o, of cost 0).  The next fetch fails: what it
    returns is the built-in table of three records, not the cached last good
    mapping, which stays in the cache unread. *)
Lemma fetchUsageData_failure_ignores_last_good :
  let s1 := snd (fetchUsageData Sample.online Sample.service) in
  fst (fetchUsageData Sample.online Sample.service)
  = Returned (parseUsageData Sample.zero_usage) /\
  (CacheEntry.data <$> Service.cache_usage s1)
  = Some (parseUsageData Sample.zero_usage) /\
  usage_fetch_fails Sample.offline s1 = true /\
  fst (fetchUsageData Sample.offline s1) = Returned getFallbackUsage /\
  (CacheEntry.data <$> Service.cache_usage (snd (fetchUsageData Sample.offline s1)))
  = Some (parseUsageData Sample.zero_usage) /\
  getFallbackUsage <> parseUsageData Sample.zero_usage.
Proof.
  cbn zeta.
  split; [vm_compute; reflexivity|]. split; [vm_compute; reflexivity|].
  split; [vm_compute; reflexivity|]. split; [vm_compute; reflexivity|].
  split; [vm_compute; reflexivity|].
  intros E. apply (f_equal (fun usage => usage !! "gpt-4o-mini")) in E.
  rewrite getFallbackUsage_lookup, scenario_usage in E.
  rewrite lookup_insert_ne, lookup_empty in E by discriminate.
  discriminate E.
Qed.

(** C6 (as amended).  For every usage fetch that fails -- the token exchange
    is needed and fails, or the cost query fails -- [fetchUsageData] returns
    rather than throws, and what it returns is the built-in default usage,
    whatever an earlier fetch has cached; the cached usage entry is left as
    it was.  The defaults list three models: gpt-4o with a total cost of
    15.85, gpt-4o-mini with 3.26 and gpt-3.5-turbo with 15.60, each with an
    empty daily series.  The snapshot build around it returns a snapshot
    with status "success" that becomes the published one; its models are the
    merge of the pricing list with that default usage, its summary is
    computed from those models, and the summary's [totalCost] is the sum,
    over the priced models, of the default usage's total cost for the model
    (0 for a model the defaults do not list): 34.71 when the pricing list
    names exactly the three models of the defaults. *)
Theorem usage_failure_falls_back (w : World.t) (s : Service.t) :
  usage_fetch_fails w s = true ->
  (exists usage s',
      fetchUsageData w s = (Returned usage, s') /\
      Service.cache_usage s' = Service.cache_usage s /\
      usage = getFallbackUsage /\
      usage !! "gpt-4o"
      = Some (Usage.mk (1585 # 100) 2450000 980000 3420 []) /\
      usage !! "gpt-4o-mini"
      = Some (Usage.mk (326 # 100) 8950000 3200000 15680 []) /\
      usage !! "gpt-3.5-turbo"
      = Some (Usage.mk (1560 # 100) 15600000 5200000 28450 []) /\
      (forall m, is_Some (usage !! m) ->
                 In m ["gpt-4o"; "gpt-4o-mini"; "gpt-3.5-turbo"])) /\
  (exists d s' pricing summary,
      getDashboardData w None s = (Returned d, s') /\
      fst (fetchRealTimePricing w s) = Returned pricing /\
      Service.lastUpdate s' = Some d /\
      DashboardData.status d = "success" /\
      DashboardData.models d
      = combineModelData (World.host w) pricing getFallbackUsage /\
      DashboardData.summary d = Some summary /\
      summary
      = calculateSummary (Host.random (World.host w) (10 * length pricing)%nat)
                         (DashboardData.models d) /\
      (Summary.totalCost summary
       == Reference.sumQ
            (map (fun pm =>
                    Usage.totalCost
                      (default Usage.zero
                               (getFallbackUsage !! PricingModel.name pm)))
                 pricing))%Q /\
      (map PricingModel.name pricing
       = ["gpt-4o"; "gpt-4o-mini"; "gpt-3.5-turbo"] ->
       (Summary.totalCost summary == 3471 # 100)%Q)).
Proof.
  intros Hf. split.
  { destruct (fetchUsageData_failure w s Hf) as (s' & Hrun & Hcache).
    exists getFallbackUsage, s'.
    split; [exact Hrun|]. split; [exact Hcache|]. split; [reflexivity|].
    split; [now rewrite getFallbackUsage_lookup|].
    split; [now rewrite getFallbackUsage_lookup|].
    split; [now rewrite getFallbackUsage_lookup|].
    intros m [u Hu]. rewrite getFallbackUsage_lookup in Hu.
    destruct (String.eqb_spec m "gpt-4o") as [->|_]; [simpl; tauto|].
    destruct (String.eqb_spec m "gpt-4o-mini") as [->|_]; [simpl; tauto|].
    destruct (String.eqb_spec m "gpt-3.5-turbo") as [->|_]; [simpl; tauto|].
    discriminate Hu. }
  destruct (fetchRealTimePricing_returns w s)
    as (pricing & s1 & H1 & _ & Htok).
  assert (Hf1 : usage_fetch_fails w s1 = true).
  { unfold usage_fetch_fails, token_is_fresh in *. now rewrite Htok. }
  destruct (fetchUsageData_failure w s1 Hf1) as (s2 & H2 & _).
  destruct (fetchExchangeRates_returns w s2) as (rates & s3 & H3 & _).
  assert (H1' : settled (unexpected None InPricingFetch ;; fetchRealTimePricing w) s
                = (Returned (Returned pricing), s1))
    by (rewrite branch_run; unfold settled; now rewrite H1).
  assert (H2' : settled (unexpected None InUsageFetch ;; fetchUsageData w) s1
                = (Returned (Returned getFallbackUsage), s2))
    by (rewrite branch_run; unfold settled; now rewrite H2).
  assert (H3' : settled (unexpected None InRatesFetch ;; fetchExchangeRates w) s2
                = (Returned (Returned rates), s3))
    by (rewrite branch_run; unfold settled; now rewrite H3).
  pose proof (getDashboardData_run w None s s1 s2 s3 _ _ _ H1' H2' H3') as Hrun.
  cbn zeta in Hrun. cbn [fulfilled_or] in Hrun.
  assert (Hsum :
    (Summary.totalCost
       (calculateSummary (Host.random (World.host w) (10 * length pricing)%nat)
          (combineModelData (World.host w) pricing getFallbackUsage))
     == Reference.sumQ
          (map (fun pm =>
                  Usage.totalCost
                    (default Usage.zero
                             (getFallbackUsage !! PricingModel.name pm)))
               pricing))%Q).
  { unfold calculateSummary. cbn [Summary.totalCost].
    rewrite (fold_sumQ Reference.cost_of), costs_of_combine. ring. }
  do 2 eexists. exists pricing. eexists.
  split; [exact Hrun|]. split; [now rewrite H1|].
  split; [reflexivity|]. split; [reflexivity|]. split; [reflexivity|].
  split; [reflexivity|]. split; [reflexivity|].
  cbn [DashboardData.models]. split; [exact Hsum|].
  intros Hnames. rewrite Hsum.
  rewrite <- (map_map PricingModel.name
                (fun m => Usage.totalCost
                            (default Usage.zero (getFallbackUsage !! m)))).
  rewrite Hnames. cbn [map]. rewrite !getFallbackUsage_lookup.
  reflexivity.
Qed.

Lemma usage_failure_witness :
  usage_fetch_fails Sample.offline Sample.service = true /\
  exists usage s',
    fetchUsageData Sample.offline Sample.service = (Returned usage, s') /\
    Service.cache_usage s' = Service.cache_usage Sample.service /\
    usage = getFallbackUsage.
Proof.
  split; [reflexivity|].
  destruct (usage_failure_falls_back Sample.offline Sample.service eq_refl)
    as ((usage & s' & Hrun & Hcache & Husage & _) & _).
  exists usage, s'. split; [exact Hrun|]. split; [exact Hcache | exact Husage].
Defined.

(** ** C3 *)

Section SchedulerFacts.
Import Scheduler.
Variable worlds : nat -> World.t.

Lemma consistent_init (s : Service.t) : consistent (init s).
Proof.
  split; [reflexivity|]. split; [intros p []|].
  split; [intros n []|intros p []].
Qed.

Lemma consistent_step (st : t) (ev : event) :
  consistent st -> consistent (step worlds st ev).
Proof.
  intros (Hseq & Hstart & Hfly & Hmerge). destruct ev as [|n]; cbn [step].
  - split; [|split; [|split]]; cbn [started ticks clock inflight merged].
    + rewrite map_app, Hseq, seq_S. reflexivity.
    + intros p Hp. apply in_app_iff in Hp as [Hp|[<-|[]]]; simpl;
        [apply Hstart in Hp|]; lia.
    + intros n Hn. apply in_app_iff in Hn as [Hn|[<-|[]]].
      * destruct (Hfly n Hn) as [ts Hts]. exists ts. apply in_app_iff. now left.
      * exists (clock st). apply in_app_iff. right. now left.
    + intros p Hp. apply Hmerge in Hp as (Hlt & ts & Hts & Hlt').
      split; [lia|]. exists ts.
      split; [apply in_app_iff; now left | exact Hlt'].
  - destruct (is_inflight n st) eqn:Hin; (split; [|split; [|split]]);
      cbn [started ticks clock inflight merged]; auto.
    + intros p Hp. apply Hstart in Hp. lia.
    + intros m Hm. apply list_elem_of_In, list_elem_of_filter in Hm as [_ Hm].
      apply Hfly. now apply list_elem_of_In.
    + intros p Hp. apply in_app_iff in Hp as [Hp|[<-|[]]]; simpl.
      * apply Hmerge in Hp as (Hlt & Hex). split; [lia | exact Hex].
      * split; [lia|].
        unfold is_inflight in Hin. apply existsb_exists in Hin as (m & Hm & E).
        apply Nat.eqb_eq in E as <-.
        destruct (Hfly n Hm) as [ts Hts]. exists ts. split; [exact Hts|].
        now apply Hstart in Hts.
    + intros p Hp. apply Hstart in Hp. lia.
    + intros p Hp. apply Hmerge in Hp as (Hlt & Hex). split; [lia | exact Hex].
Qed.

Lemma consistent_fold (trace : list event) (st : t) :
  consistent st -> consistent (fold_left (step worlds) trace st).
Proof.
  revert st; induction trace as [|ev trace IH]; intros st Hst; simpl;
    [exact Hst|]. apply IH. now apply consistent_step.
Qed.

Lemma ticks_fold (trace : list event) (st : t) :
  ticks (fold_left (step worlds) trace st)
  = (ticks st + length (List.filter is_tick trace))%nat.
Proof.
  revert st; induction trace as [|ev trace IH]; intros st; simpl; [lia|].
  rewrite IH. destruct ev as [|n]; simpl; [lia|].
  destruct (is_inflight n st); simpl; lia.
Qed.

Lemma start_unique (st : t) (n a b : nat) :
  consistent st -> In (a, n) (started st) -> In (b, n) (started st) -> a = b.
Proof.
  intros (Hseq & _) Ha Hb.
  assert (Hnd : NoDup (map snd (started st))) by (rewrite Hseq; apply NoDup_seq).
  revert Hnd Ha Hb. generalize (started st) as l.
  induction l as [|[t m] l IH]; simpl; [tauto|].
  rewrite NoDup_cons, list_elem_of_In.
  intros [Hnot Hnd] [Ea|Ha] [Eb|Hb]; try congruence.
  - injection Ea as -> ->. exfalso. apply Hnot.
    change n with (snd (b, n)). now apply in_map.
  - injection Eb as -> ->. exfalso. apply Hnot.
    change n with (snd (a, n)). now apply in_map.
  - now apply IH.
Qed.

End SchedulerFacts.

(** C3, counterexample.  The timer fires twice before the fetches of the
    first tick have settled, and the fetches of the second tick settle
    first.  After the two ticks both calls are suspended at once; the second
    tick was started, not skipped; its merge phase ran at time 2, before the
    merge phase of the first tick, which ran at time 3; and the snapshot
    published at the end is the one of the first tick. *)
Lemma refresh_ticks_overlap :
  Scheduler.inflight
    (Scheduler.run Sample.at_tick Sample.service
                   [Scheduler.Tick; Scheduler.Tick]) = [0; 1]%nat /\
  Scheduler.overlaps Sample.at_tick (Scheduler.init Sample.service)
    [Scheduler.Tick; Scheduler.Tick; Scheduler.Settled 1; Scheduler.Settled 0]
  = true /\
  (let st := Scheduler.run Sample.at_tick Sample.service
               [Scheduler.Tick; Scheduler.Tick;
                Scheduler.Settled 1; Scheduler.Settled 0] in
   Scheduler.start_time 1 st = Some 1%nat /\
   Scheduler.merge_time 1 st = Some 2%nat /\
   Scheduler.merge_time 0 st = Some 3%nat /\
   DashboardData.lastUpdate
     <$> Service.lastUpdate (Scheduler.service st)
   = Some "2023-11-14T22:13:20.000Z").
Proof. repeat split; vm_compute; reflexivity. Qed.

(** C3 (as amended).  Along every sequence of timer ticks and settlements:
    every tick launches its fetches when it fires, whether or not an earlier
    call is still suspended (the ticks started are all the ticks, in order;
    none is skipped or queued); the merge phase of a tick runs after that
    tick fired; and whenever the merge phase of tick N ran before tick N+1
    fired, the merge phase of tick N+1 runs after it. *)
Theorem refresh_ticks_always_start
        (worlds : nat -> World.t) (s : Service.t)
        (trace : list Scheduler.event) :
  let st := Scheduler.run worlds s trace in
  Scheduler.ticks st = length (List.filter Scheduler.is_tick trace) /\
  map snd (Scheduler.started st) = seq 0 (Scheduler.ticks st) /\
  (forall n t_merge,
      In (t_merge, n) (Scheduler.merged st) ->
      exists t_start,
        In (t_start, n) (Scheduler.started st) /\ (t_start < t_merge)%nat) /\
  (forall n t0 t_next t1,
      In (t0, n) (Scheduler.merged st) ->
      In (t_next, S n) (Scheduler.started st) ->
      (t0 < t_next)%nat ->
      In (t1, S n) (Scheduler.merged st) ->
      (t0 < t1)%nat).
Proof.
  cbn zeta. unfold Scheduler.run.
  pose proof (consistent_fold worlds trace _ (consistent_init s)) as Hc.
  pose proof Hc as (Hseq & Hstart & Hfly & Hmerge).
  split; [now rewrite ticks_fold|]. split; [exact Hseq|]. split.
  - intros n t_merge Hm. now apply Hmerge in Hm as [_ Hex].
  - intros n t0 t_next t1 H0 Hnext Hlt H1.
    apply Hmerge in H1 as (_ & ts & Hts & Hlt1). simpl in Hts, Hlt1.
    assert (t_next = ts) by (eapply start_unique; eauto). lia.
Qed.

(** ** C4 *)

Example ex_mini_in : extractModelFromMeter "gpt-4o-mini Input" "Azure OpenAI"
                     = Some (ModelInfo.mk "gpt-4o-mini" input).
Proof. vm_compute. reflexivity. Qed.

Example ex_4o_out : extractModelFromMeter "GPT-4o output tokens" "Azure OpenAI"
                    = Some (ModelInfo.mk "gpt-4o" output).
Proof. vm_compute. reflexivity. Qed.

Example ex_4_turbo : extractModelFromMeter "gpt-4 turbo input" "Azure OpenAI"
                     = Some (ModelInfo.mk "gpt-4-turbo" input).
Proof. vm_compute. reflexivity. Qed.

Example ex_4 : extractModelFromMeter "gpt-4 input" "Azure OpenAI"
               = Some (ModelInfo.mk "gpt-4" input).
Proof. vm_compute. reflexivity. Qed.

Example ex_mixed : extractModelFromMeter "gpt-4o input" "Azure OpenAI gpt-4o-mini"
               = Some (ModelInfo.mk "gpt-4o" input).
Proof. vm_compute. reflexivity. Qed.

Example ex_none : extractModelFromMeter "dall-e 3" "Azure OpenAI" = None.
Proof. vm_compute. reflexivity. Qed.

(** C4, counterexample.  The entry with meter name "gpt-4o input" and
    product name "Azure OpenAI gpt-4o-mini" names the more specific model in
    its text and is classified as the more general gpt-4o.  And the rules are
    not mutually exclusive: on the text of the second entry a gpt-4o-mini
    rule and a gpt-4o rule both match. *)
Lemma general_model_despite_specific_name :
  JsString.includes "gpt-4o-mini"
    (searchText_of "gpt-4o input" "Azure OpenAI gpt-4o-mini") = true /\
  extractModelFromMeter "gpt-4o input" "Azure OpenAI gpt-4o-mini"
  = Some (ModelInfo.mk "gpt-4o" input) /\
  map model
      (List.filter
         (fun r => Regex.test (pattern r)
                              (searchText_of "gpt-4o-mini input" "gpt-4o input"))
         patterns)
  = ["gpt-4o-mini"; "gpt-4o"].
Proof. repeat split; vm_compute; reflexivity. Qed.

(** C4 (as amended).  For every catalogue entry, [extractModelFromMeter]
    yields at most one model and direction, those of the first rule in table
    order whose pattern matches the lower-cased text (the rules are ordered,
    not mutually exclusive); it yields nothing exactly when no rule matches,
    and then the entry leaves the pricing map unchanged.  In the table the
    gpt-4o-mini rules come before the gpt-4o rules and the gpt-4-turbo rules
    before the gpt-4 rules.  An entry classified as gpt-4o has in its text an
    occurrence of "gpt-4o" that is not followed by "-mini", and an entry
    classified as gpt-4 has an occurrence of "gpt-4" that is followed neither
    by "o" nor, further on the line, by "turbo".  For usage meter names
    ([extractModelFromMeterName]) every name that contains "gpt-4o-mini" is
    classified as gpt-4o-mini, a name classified as gpt-4o does not contain
    "gpt-4o-mini", and a name classified as gpt-4 contains none of "gpt-4o",
    "gpt-4-turbo" and "gpt-4 turbo". *)
Theorem model_identification_first_match (meterName productName : string) :
  let text := searchText_of meterName productName in
  (forall info,
      extractModelFromMeter meterName productName = Some info ->
      exists (i : nat) (r : rule),
        patterns !! i = Some r /\
        Regex.test (pattern r) text = true /\
        info = ModelInfo.mk (model r) (type r) /\
        forall (j : nat) (r' : rule),
          (j < i)%nat -> patterns !! j = Some r' ->
          Regex.test (pattern r') text = false) /\
  (extractModelFromMeter meterName productName = None <->
   forall r, In r patterns -> Regex.test (pattern r) text = false) /\
  (forall (h : Host.t) (models : pricingMap) (item : Item.t),
      extractModelFromMeter (Item.meterName item) (Item.productName item) = None ->
      pricing_step h models item = models) /\
  map model patterns
  = ["gpt-4o-mini"; "gpt-4o-mini"; "gpt-4o"; "gpt-4o";
     "gpt-4-turbo"; "gpt-4-turbo"; "gpt-4"; "gpt-4";
     "gpt-3.5-turbo"; "gpt-3.5-turbo"] /\
  (forall d,
      extractModelFromMeter meterName productName
      = Some (ModelInfo.mk "gpt-4o" d) ->
      exists pre post,
        text = pre ++ "gpt-4o" ++ post /\
        JsString.startsWith "-mini" post = false) /\
  (forall d,
      extractModelFromMeter meterName productName
      = Some (ModelInfo.mk "gpt-4" d) ->
      exists pre post,
        text = pre ++ "gpt-4" ++ post /\
        JsString.startsWith "o" post = false /\
        Regex.smatch_here [SAnyStar; SLit "turbo"] post = false) /\
  (JsString.includes "gpt-4o-mini" (JsString.toLowerCase meterName) = true ->
   extractModelFromMeterName meterName = Some "gpt-4o-mini") /\
  (extractModelFromMeterName meterName = Some "gpt-4o" ->
   JsString.includes "gpt-4o-mini" (JsString.toLowerCase meterName) = false) /\
  (extractModelFromMeterName meterName = Some "gpt-4" ->
   JsString.includes "gpt-4o" (JsString.toLowerCase meterName) = false /\
   JsString.includes "gpt-4-turbo" (JsString.toLowerCase meterName) = false /\
   JsString.includes "gpt-4 turbo" (JsString.toLowerCase meterName) = false).
Proof.
  cbn zeta. unfold extractModelFromMeter.
  set (text := searchText_of meterName productName).
  assert (Hfolded : Regex.folded text) by apply toLowerCase_folded.
  split; [intros info; apply first_match_Some|].
  split; [apply first_match_None|].
  split; [intros h models item Hnone;
          unfold pricing_step, extractModelFromMeter; now rewrite Hnone|].
  split; [reflexivity|].
  split; [|split; [|apply extractModelFromMeterName_order]].
  - intros d Hm.
    destruct (first_match_In _ _ _ Hm) as (r & Hin & Ht & Hmodel & _).
    destruct (patterns_of_model r Hin) as [H4o _].
    destruct (H4o Hmodel) as [tail Hp]. rewrite Hp in Ht.
    now apply gpt4o_rule_occurrence in Ht.
  - intros d Hm.
    destruct (first_match_In _ _ _ Hm) as (r & Hin & Ht & Hmodel & _).
    destruct (patterns_of_model r Hin) as [_ H4].
    destruct (H4 Hmodel) as [tail Hp]. rewrite Hp in Ht.
    now apply gpt4_rule_occurrence in Ht.
Qed.

(** ** Worked examples *)

Example trend_up :
  calculateTrend (Host.exponential Sample.host) [Sample.day 8; Sample.day 10; Sample.day 15] = "+50%".
Proof. vm_compute. reflexivity. Qed.

Example trend_down :
  calculateTrend (Host.exponential Sample.host) [Sample.day 3; Sample.day 2] = "-33%".
Proof. vm_compute. reflexivity. Qed.

Example trend_small_drop :
  calculateTrend (Host.exponential Sample.host) [Sample.day 1000; Sample.day 997] = "-0%".
Proof. vm_compute. reflexivity. Qed.

Example trend_from_zero :
  calculateTrend (Host.exponential Sample.host) [Sample.day 0; Sample.day 5] = "+Infinity%".
Proof. vm_compute. reflexivity. Qed.

Example trend_zero_zero :
  calculateTrend (Host.exponential Sample.host) [Sample.day 0; Sample.day 0] = "NaN%".
Proof. vm_compute. reflexivity. Qed.

(** The nearest binary64 values to 0.1 and to 2.05. *)
Example read_decimals :
  (Double.read (1 # 10) == 3602879701896397 # 36028797018963968)%Q /\
  (Double.read (205 # 100) == 2308094809027379 # 1125899906842624)%Q.
Proof. split; vm_compute; reflexivity. Qed.

(** Costs of 2 and then 2.05: the decimal 2.05 is read as a binary64 value
    just below it, the change computed is 2.4999999999999911, and the trend
    reads "+2%". *)
Example trend_below_half :
  calculateTrend (Host.exponential Sample.host)
                 [Sample.day 2; Sample.day (205 # 100)] = "+2%".
Proof. vm_compute. reflexivity. Qed.

(** A change of exactly one half is printed as the whole number of greater
    magnitude. *)
Example trend_half :
  calculateTrend (Host.exponential Sample.host)
                 [Sample.day 200; Sample.day 201] = "+1%" /\
  calculateTrend (Host.exponential Sample.host)
                 [Sample.day 200; Sample.day 199] = "-1%".
Proof. split; vm_compute; reflexivity. Qed.

(** A cost of 1 at the average price 0.00002 is estimated at 49999 tokens,
    a cost of 0.09 at 0.000006 at 14999: the binary64 quotients are just
    below 50000 and 15000. *)
Example tokens_just_below :
  estimateTokensFromCost 1 "gpt-4-turbo" = 49999%Z /\
  estimateTokensFromCost (9 # 100) "gpt-4o" = 14999%Z /\
  estimateTokensFromCost 1 "gpt-3.5-turbo" = 1000000%Z.
Proof. repeat split; vm_compute; reflexivity. Qed.

(** A row of cost 0.00054 for gpt-4o: 90 tokens, of which 62 are counted as
    input (the binary64 product 90 * 0.7 is just below 63) and 27 as
    output. *)
Example shares_of_ninety :
  parseUsageData
    (mkRawUsage (Some [ UsageRow.mk (54 # 100000) "2024-01-03" "USD"
                                    "gpt-4o" "Cognitive Services" 1 ]))
  !! "gpt-4o"
  = Some (Usage.mk (54 # 100000) 62 27 0
                   [DailyEntry.mk "2024-01-03" (54 # 100000) 90]).
Proof. vm_compute. reflexivity. Qed.

Example input_price_alone_is_not_emitted :
  parsePricingData Sample.host
    (mkRawPricing
       (Some [ Item.mk "gpt-4o input" "Azure OpenAI" (25 # 10000000)
                       "westeurope" "USD";
               Item.mk "gpt-4 turbo output" "Azure OpenAI" (3 # 100000)
                       "westeurope" "USD";
               Item.mk "text-embedding-3" "Azure OpenAI" (1 # 100000)
                       "westeurope" "USD" ])) = [].
Proof. vm_compute. reflexivity. Qed.

Example offline_total_cost :
  (Summary.totalCost <$>
     (Service.lastUpdate
        (snd (getDashboardData Sample.offline None Sample.service))
      ≫= DashboardData.summary))
  = Some ((1585 # 100) + (326 # 100) + (1560 # 100))%Q.
Proof.
  vm_compute. reflexivity.
Qed.

(** Within the 50-minute window the cached token is reused although the
    endpoint would issue a new one; after it a new one is fetched. *)
Example token_reused_then_renewed :
  let s1 := snd (getAzureAccessToken Sample.online Sample.service) in
  let later (minutes : Z) :=
    World.mk (Host.mk (Host.now Sample.host + minutes * 60 * 1000)
                      "2023-11-14T23:00:00.000Z" 1699999200000
                      (fun _ => "23:00") (fun _ => 0%Q) (fun _ => "1e+21"))
             (Body Sample.catalogue) (Body (mkTokenData "token-2" 3599))
             (Body Sample.zero_usage) (Body Sample.rates_answer) in
  fst (getAzureAccessToken (later 49%Z) s1) = Returned "token-1" /\
  fst (getAzureAccessToken (later 50%Z) s1) = Returned "token-2" /\
  Service.requestLog (snd (getAzureAccessToken (later 49%Z) s1))
  = [TokenEndpoint] /\
  Service.requestLog (snd (getAzureAccessToken (later 50%Z) s1))
  = [TokenEndpoint; TokenEndpoint].
Proof. repeat split; vm_compute; reflexivity. Qed.

(* ================================================================= *)
(** * Further properties *)

(** ** [parseUsageData] *)

Section ParseUsage.
Import Reference.
Local Open Scope Q_scope.

Lemma sumQ_snoc (l : list Q) (x : Q) : sumQ (l ++ [x]) == sumQ l + x.
Proof. induction l as [|y l IH]; simpl; [ring | rewrite IH; ring]. Qed.

Lemma sumZ_snoc (l : list Z) (x : Z) : sumZ (l ++ [x]) = (sumZ l + x)%Z.
Proof. induction l as [|y l IH]; simpl; [lia | rewrite IH; lia]. Qed.

Lemma usage_step_skips (usage : gmap string Usage.t) (row : UsageRow.t) :
  row_counts row = false -> usage_step usage row = usage.
Proof.
  unfold row_counts, usage_step.
  destruct (extractModelFromMeterName (UsageRow.meterName row)); [|reflexivity].
  now intros ->.
Qed.

Lemma row_counts_for_counts (m : string) (row : UsageRow.t) :
  row_counts_for m row = true -> row_counts row = true.
Proof.
  unfold row_counts_for, row_counts.
  destruct (extractModelFromMeterName (UsageRow.meterName row)); [|discriminate].
  intros H. now apply andb_true_iff in H as [_ H].
Qed.

Lemma usage_consistent_push (u : Usage.t) (cost : Q) (tokens : Z) (date : string) :
  usage_consistent u ->
  usage_consistent
    (Usage.mk (Usage.totalCost u + cost)
              (Usage.inputTokens u
               + Qfloor (Double.product (inject_Z tokens)
                                        (Double.read (7 # 10))))%Z
              (Usage.outputTokens u
               + Qfloor (Double.product (inject_Z tokens)
                                        (Double.read (3 # 10))))%Z
              (Usage.requests u
               + Qfloor (Double.quotient (inject_Z tokens) 1000))%Z
              (Usage.dailyData u ++ [DailyEntry.mk date cost tokens])).
Proof.
  intros (Hc & Hi & Ho & Hr). unfold usage_consistent. simpl.
  rewrite !map_app. simpl. rewrite sumQ_snoc, !sumZ_snoc. simpl.
  rewrite Hc, Hi, Ho, Hr. repeat split; reflexivity.
Qed.

Lemma usage_tracks_step (seen : list UsageRow.t) (usage : gmap string Usage.t)
      (row : UsageRow.t) :
  usage_tracks seen usage ->
  usage_tracks (seen ++ [row]) (usage_step usage row).
Proof.
  intros Hinv m. specialize (Hinv m) as Hm.
  rewrite List.filter_app. simpl.
  unfold usage_step, row_counts_for at 2 4 6.
  destruct (extractModelFromMeterName (UsageRow.meterName row))
    as [modelName|] eqn:He; simpl.
  2:{ rewrite app_nil_r. exact Hm. }
  destruct (String.eqb (UsageRow.serviceName row) "Cognitive Services") eqn:Hs;
    rewrite ?andb_false_r, ?andb_true_r.
  2:{ simpl. rewrite app_nil_r. exact Hm. }
  destruct (String.eqb_spec modelName m) as [->|Hne].
  - rewrite lookup_insert_eq. split; [now destruct (List.filter _ seen)|].
    destruct (usage !! m) as [u|] eqn:Hu; simpl.
    + destruct Hm as (_ & Hd & Hc). split.
      * rewrite map_app, Hd. reflexivity.
      * now apply usage_consistent_push.
    + rewrite Hm. simpl. split; [reflexivity|].
      apply (usage_consistent_push Usage.zero).
      unfold usage_consistent; simpl. repeat split; reflexivity.
  - rewrite lookup_insert_ne by exact Hne. rewrite app_nil_r. exact Hm.
Qed.

Lemma usage_tracks_fold (rows seen : list UsageRow.t)
      (usage : gmap string Usage.t) :
  usage_tracks seen usage ->
  usage_tracks (seen ++ rows) (fold_left usage_step rows usage).
Proof.
  revert seen usage; induction rows as [|row rows IH]; intros seen usage Hinv.
  - now rewrite app_nil_r.
  - simpl. replace (seen ++ row :: rows)%list
      with ((seen ++ [row]) ++ rows)%list by now rewrite <- app_assoc.
    apply IH. now apply usage_tracks_step.
Qed.

Lemma usage_tracks_parse (rawData : rawUsage) :
  usage_tracks (rows_of rawData) (parseUsageData rawData).
Proof.
  unfold parseUsageData.
  apply (usage_tracks_fold (rows_of rawData) [] ∅).
  intros m. now rewrite lookup_empty.
Qed.

End ParseUsage.

Lemma extractModelFromMeterName_canonical (meterName m : string) :
  extractModelFromMeterName meterName = Some m -> In m canonical_names.
Proof.
  unfold extractModelFromMeterName, canonical_names.
  repeat match goal with
         | |- context [if ?c then _ else _] => destruct c
         end; intros [= <-]; simpl; tauto.
Qed.

(** X1.  [parseUsageData] ignores every row whose meter name is not
    identified or whose service name is not "Cognitive Services": the
    result is the one for the remaining rows alone, and it is empty when the
    response has no rows at all. *)
Theorem parseUsageData_ignores_other_rows (rawData : rawUsage) :
  parseUsageData rawData
  = parseUsageData
      (mkRawUsage (Some (List.filter row_counts (rows_of rawData)))) /\
  (rows rawData = None -> parseUsageData rawData = ∅).
Proof.
  split; [|unfold parseUsageData, rows_of; now intros ->].
  unfold parseUsageData. cbn [rows_of rows].
  generalize (∅ : gmap string Usage.t) as usage.
  induction (rows_of rawData) as [|row l IH]; intros usage; [reflexivity|].
  simpl. destruct (row_counts row) eqn:E; simpl.
  - apply IH.
  - rewrite usage_step_skips by exact E. apply IH.
Qed.

(** X2.  The result of [parseUsageData] has an entry for a model exactly
    when some row counts for it, and its keys are among the five canonical
    model names. *)
Theorem parseUsageData_keys (rawData : rawUsage) (m : string) :
  (is_Some (parseUsageData rawData !! m) <->
   exists row, In row (rows_of rawData) /\ row_counts_for m row = true) /\
  (is_Some (parseUsageData rawData !! m) -> In m canonical_names).
Proof.
  pose proof (usage_tracks_parse rawData m) as H.
  assert (Hiff : is_Some (parseUsageData rawData !! m) <->
                 exists row, In row (rows_of rawData) /\
                             row_counts_for m row = true).
  { destruct (parseUsageData rawData !! m) as [u|].
    - destruct H as (Hne & _). split; [intros _|eauto].
      destruct (List.filter (row_counts_for m) (rows_of rawData))
        as [|row l] eqn:E; [congruence|].
      exists row. apply filter_In. rewrite E. now left.
    - split; [intros [? [=]]|]. intros (row & Hin & Hc).
      assert (In row (List.filter (row_counts_for m) (rows_of rawData)))
        by (apply filter_In; auto).
      rewrite H in *. contradiction. }
  split; [exact Hiff|].
  intros Hs. apply Hiff in Hs as (row & _ & Hc).
  unfold row_counts_for in Hc.
  destruct (extractModelFromMeterName (UsageRow.meterName row)) as [n|] eqn:E;
    [|discriminate].
  apply andb_true_iff in Hc as [Hn _]. apply String.eqb_eq in Hn as <-.
  eapply extractModelFromMeterName_canonical; eauto.
Qed.



(** ** [parsePricingData]: where the fields come from *)

Section PricingValues.
Variable h : Host.t.

Lemma item_is_extract (item : Item.t) (key : string) (ty : direction)
      (k : string) (d : direction) :
  extractModelFromMeter (Item.meterName item) (Item.productName item)
  = Some (ModelInfo.mk key ty) ->
  item_is k d item
  = String.eqb key k && match ty, d with
                        | input, input | output, output => true
                        | _, _ => false
                        end.
Proof. unfold item_is. now intros ->. Qed.

Lemma item_is_none (item : Item.t) (k : string) (d : direction) :
  extractModelFromMeter (Item.meterName item) (Item.productName item) = None ->
  item_is k d item = false.
Proof. unfold item_is. now intros ->. Qed.

Lemma filter_item_is_nil (items : list Item.t) (k : string) (d : direction) :
  List.filter (item_of_model k) items = [] ->
  List.filter (item_is k d) items = [].
Proof.
  induction items as [|it items IH]; simpl; [reflexivity|].
  unfold item_of_model at 1.
  destruct d; destruct (item_is k input it), (item_is k output it); simpl;
    try discriminate; auto.
Qed.

Lemma head_app_nonempty {A : Type} (l l' : list A) (x : A) :
  head l = Some x -> head (l ++ l') = Some x.
Proof. destruct l; [discriminate | auto]. Qed.

Lemma last_price_snoc (items : list Item.t) (item : Item.t) (k : string)
      (d : direction) :
  last_price (items ++ [item]) k d
  = if item_is k d item then Some (Item.retailPrice item)
    else last_price items k d.
Proof.
  unfold last_price. rewrite List.filter_app. simpl.
  destruct (item_is k d item); [|now rewrite app_nil_r].
  now rewrite last_snoc.
Qed.

Lemma first_item_snoc (items : list Item.t) (item : Item.t) (k : string) :
  first_item (items ++ [item]) k
  = match first_item items k with
    | Some first => Some first
    | None => if item_of_model k item then Some item else None
    end.
Proof.
  unfold first_item. rewrite List.filter_app. simpl.
  destruct (List.filter (item_of_model k) items) as [|x l]; simpl;
    [now destruct (item_of_model k item)|reflexivity].
Qed.

Lemma record_from_other (items : list Item.t) (item : Item.t) (k : string)
      (v : PricingModel.t) :
  item_of_model k item = false ->
  record_from h items k v -> record_from h (items ++ [item]) k v.
Proof.
  intros Hk (Hn & Hi & Ho & Hs & Hl & first & Hf & Hr & Hc).
  apply orb_false_iff in Hk as [Hki Hko].
  unfold record_from. rewrite !last_price_snoc, Hki, Hko, first_item_snoc, Hf.
  repeat split; auto. exists first. auto.
Qed.

Lemma priced_values_step (items : list Item.t) (m : pricingMap) (item : Item.t) :
  priced_values h items m ->
  priced_values h (items ++ [item]) (pricing_step h m item).
Proof.
  intros Hinv k. specialize (Hinv k) as Hk. unfold pricing_step.
  destruct (extractModelFromMeter (Item.meterName item) (Item.productName item))
    as [[key ty]|] eqn:He.
  2:{ assert (Hno : item_of_model k item = false)
        by (unfold item_of_model; now rewrite !item_is_none).
      destruct (map_get k m) as [v|].
      - now apply record_from_other.
      - rewrite List.filter_app. simpl. now rewrite Hno, Hk. }
  cbn [ModelInfo.model ModelInfo.type].
  set (m1 := if map_has key m then m
             else (m ++ [(key, fresh_model h key item)])%list).
  set (f := match ty with
            | input => PricingModel.set_inputPrice (Item.retailPrice item)
            | output => PricingModel.set_outputPrice (Item.retailPrice item)
            end).
  assert (Hres : match ty with
                 | input =>
                     map_update key
                       (PricingModel.set_inputPrice (Item.retailPrice item)) m1
                 | output =>
                     map_update key
                       (PricingModel.set_outputPrice (Item.retailPrice item)) m1
                 end = map_update key f m1) by now destruct ty.
  rewrite Hres. clear Hres. rewrite map_get_update.
  destruct (String.eqb_spec key k) as [->|Hne].
  - assert (Hmodel : item_of_model k item = true).
    { unfold item_of_model. rewrite !(item_is_extract _ _ _ _ _ He).
      rewrite String.eqb_refl. now destruct ty. }
    assert (Hg1 : map_get k m1
                  = Some (default (fresh_model h k item) (map_get k m))).
    { subst m1. destruct (map_has k m) eqn:Hhas.
      - destruct (map_get k m) eqn:Hg; [reflexivity|].
        apply map_has_get in Hg. congruence.
      - apply map_has_get in Hhas. rewrite map_get_snoc, Hhas.
        now rewrite String.eqb_refl. }
    rewrite Hg1. simpl.
    assert (Hbase : record_from h items k (default (fresh_model h k item)
                                                   (map_get k m))
                    \/ (map_get k m = None /\
                        List.filter (item_of_model k) items = [])).
    { destruct (map_get k m); [now left | now right]. }
    unfold record_from.
    rewrite !last_price_snoc, first_item_snoc,
      !(item_is_extract _ _ _ _ _ He), String.eqb_refl, Hmodel.
    destruct Hbase as [(Hn & Hi & Ho & Hs & Hl & first & Hf & Hr & Hc)
                      |[Hnone Hnil]].
    + rewrite Hf. subst f.
      destruct ty; simpl; repeat split; auto; exists first; auto.
    + rewrite Hnone. simpl.
      unfold first_item, last_price.
      rewrite Hnil, !(filter_item_is_nil _ _ _ Hnil). subst f.
      destruct ty; simpl; repeat split; auto; exists item; auto.
  - assert (Hno : item_of_model k item = false).
    { unfold item_of_model. rewrite !(item_is_extract _ _ _ _ _ He).
      destruct (String.eqb_spec key k); [congruence | reflexivity]. }
    assert (Hg1 : map_get k m1 = map_get k m).
    { subst m1. destruct (map_has key m); [reflexivity|].
      rewrite map_get_snoc. destruct (map_get k m); [reflexivity|].
      destruct (String.eqb_spec key k); congruence. }
    rewrite Hg1. destruct (map_get k m) as [v|].
    + now apply record_from_other.
    + rewrite List.filter_app. simpl. now rewrite Hno, Hk.
Qed.

Lemma priced_values_fold (items seen : list Item.t) (m : pricingMap) :
  priced_values h seen m ->
  priced_values h (seen ++ items)%list (fold_left (pricing_step h) items m).
Proof.
  revert seen m; induction items as [|item items IH]; intros seen m Hinv.
  - now rewrite app_nil_r.
  - simpl. replace (seen ++ item :: items)%list
      with ((seen ++ [item]) ++ items)%list by now rewrite <- app_assoc.
    apply IH. now apply priced_values_step.
Qed.

End PricingValues.

(** X4.  Every record [parsePricingData] returns has as input and output
    price the retail price of the last catalogue entry identified as that
    model and direction (a later entry overwrites an earlier one), as region
    and currency those of the first entry identified as that model, the
    status "active" and the time of parsing. *)
Theorem parsePricingData_fields
        (h : Host.t) (rawData : rawPricing) (v : PricingModel.t) :
  In v (parsePricingData h rawData) ->
  record_from h (items_of rawData) (PricingModel.name v) v.
Proof.
  unfold parsePricingData. intros Hv.
  apply In_filter in Hv as [_ Hv].
  apply in_map_iff in Hv as ([k v'] & E & Hin). simpl in E. subst v'.
  pose proof (priced_inv_fold h (items_of rawData) [] [] priced_inv_nil)
    as (Hnd & _ & _).
  pose proof (priced_values_fold h (items_of rawData) [] []) as Hval.
  simpl app in *.
  apply In_map_get in Hin; [|exact Hnd].
  specialize (Hval (fun k => eq_refl) k). rewrite Hin in Hval.
  destruct Hval as (Hn & Hrest). rewrite Hn.
  split; [exact Hn | exact Hrest].
Qed.

Lemma parsePricingData_fields_witness :
  In Sample.repriced_record (parsePricingData Sample.host Sample.repriced) /\
  record_from Sample.host (items_of Sample.repriced) "gpt-4o"
              Sample.repriced_record.
Proof.
  assert (Hin : In Sample.repriced_record
                   (parsePricingData Sample.host Sample.repriced))
    by (vm_compute; left; reflexivity).
  split; [exact Hin|].
  apply (parsePricingData_fields Sample.host Sample.repriced
                                 Sample.repriced_record Hin).
Defined.

(** ** [combineModelData] and [generateHourlyTrend] *)

Section Merge.
Local Open Scope Q_scope.



End Merge.



(** X6.  [combineModelData] returns one snapshot per pricing record, in the
    same order and with the record's name and prices; the snapshot of a model
    that the usage mapping does not list has the all-zero usage record, the
    trend "+0%" and a series of five buckets of cost zero. *)
Theorem combineModelData_keeps_pricing
        (h : Host.t) (pricingModels : list PricingModel.t)
        (usageData : gmap string Usage.t) :
  let models := combineModelData h pricingModels usageData in
  length models = length pricingModels /\
  map ModelSnapshot.name models = map PricingModel.name pricingModels /\
  map ModelSnapshot.inputPrice models
  = map PricingModel.inputPrice pricingModels /\
  map ModelSnapshot.outputPrice models
  = map PricingModel.outputPrice pricingModels /\
  (forall s, In s models ->
     usageData !! ModelSnapshot.name s = None ->
     ModelSnapshot.usage s = Usage.zero /\
     ModelSnapshot.trend s = "+0%" /\
     length (ModelSnapshot.lastHour s) = 5%nat /\
     forall b, In b (ModelSnapshot.lastHour s) -> (HourBucket.cost b == 0)%Q).
Proof.
  cbn zeta. unfold combineModelData.
  split; [apply length_imap|].
  split; [now apply map_imap_const|].
  split; [now apply map_imap_const|].
  split; [now apply map_imap_const|].
  intros s Hs Hnone.
  apply list_elem_of_In, list_elem_of_lookup_1 in Hs as [k Hk].
  rewrite list_lookup_imap in Hk.
  destruct (pricingModels !! k) as [pm|]; [|discriminate].
  injection Hk as <-. cbn in Hnone |- *. rewrite Hnone. cbn.
  repeat split; try reflexivity.
  intros b Hb. repeat (destruct Hb as [<-|Hb]; [cbn; ring|]). destruct Hb.
Qed.

(** ** WebSocket clients *)

Section Clients.
Variable d : DashboardData.t.

Lemma sent_to_stranger (id : nat) (subs : list Socket.t) :
  ~ In id (map Socket.id subs) ->
  List.filter (fun m => Nat.eqb (fst m) id)
              (map (fun ws => (Socket.id ws, d)) (filter receives subs)) = [].
Proof using Type.
  induction subs as [|x l IH]; intros Hid; [reflexivity|].
  simpl in Hid. rewrite filter_cons.
  assert (Hx : Nat.eqb (Socket.id x) id = false)
    by (apply Nat.eqb_neq; tauto).
  destruct (decide (receives x)); simpl; rewrite ?Hx; apply IH; tauto.
Qed.

Lemma sent_to_subscriber (ws : Socket.t) (subs : list Socket.t) :
  NoDup (map Socket.id subs) -> In ws subs ->
  List.filter (fun m => Nat.eqb (fst m) (Socket.id ws))
              (map (fun ws => (Socket.id ws, d)) (filter receives subs))
  = if receives ws then [(Socket.id ws, d)] else [].
Proof using Type.
  induction subs as [|x l IH]; intros Hnd Hin; [destruct Hin|].
  simpl in Hnd. apply NoDup_cons in Hnd as [Hx Hnd].
  rewrite list_elem_of_In in Hx. rewrite filter_cons.
  destruct Hin as [->|Hin].
  - pose proof (sent_to_stranger _ _ Hx) as Hrest.
    destruct (receives ws) eqn:Hr; destruct (decide _) as [Ht|Hf]; simpl;
      rewrite ?Nat.eqb_refl, ?Hrest; try reflexivity.
    + exfalso. apply Hf. exact I.
    + destruct Ht.
  - assert (Hne : Nat.eqb (Socket.id x) (Socket.id ws) = false).
    { apply Nat.eqb_neq. intros E. apply Hx. rewrite E. now apply in_map. }
    destruct (decide (receives x)); simpl; rewrite ?Hne; now apply IH.
Qed.

Lemma broadcastToClients_run (s : Service.t) :
  broadcastToClients d s
  = (Returned tt,
     Service.set_subscribers
       (filter receives (Service.subscribers s))
       (Service.put_on_wire
          (map (fun ws => (Socket.id ws, d))
               (filter receives (Service.subscribers s))) s)).
Proof using Type. reflexivity. Qed.

Lemma delivered_after_broadcast (s : Service.t) (ws : Socket.t) :
  NoDup (map Socket.id (Service.subscribers s)) ->
  In ws (Service.subscribers s) ->
  delivered_to (Socket.id ws) (snd (broadcastToClients d s))
  = (delivered_to (Socket.id ws) s ++ if receives ws then [d] else [])%list.
Proof using Type.
  intros Hnd Hin. rewrite broadcastToClients_run. unfold delivered_to. simpl.
  rewrite List.filter_app, map_app, sent_to_subscriber by assumption.
  now destruct (receives ws).
Qed.

Lemma delivered_stranger (s : Service.t) (id : nat) :
  ~ In id (map Socket.id (Service.subscribers s)) ->
  delivered_to id (snd (broadcastToClients d s)) = delivered_to id s.
Proof using Type.
  intros Hid. rewrite broadcastToClients_run. unfold delivered_to. simpl.
  rewrite List.filter_app, map_app, sent_to_stranger by assumption.
  simpl. apply app_nil_r.
Qed.

End Clients.

Lemma NoDup_ids_filter (P : Socket.t -> bool) (l : list Socket.t) :
  NoDup (map Socket.id l) -> NoDup (map Socket.id (filter P l)).
Proof. apply NoDup_map_filter. Qed.

Lemma List_filter_stdpp {A : Type} (P : A -> bool) (l : list A) :
  List.filter P l = filter P l.
Proof.
  induction l as [|x l IH]; [reflexivity|].
  simpl. rewrite filter_cons, IH.
  destruct (P x) eqn:E; destruct (decide (P x)) as [H|H]; try reflexivity;
    rewrite E in H; simpl in H; tauto.
Qed.

Lemma subscribers_add_ids (ws : Socket.t) (l : list Socket.t) :
  NoDup (map Socket.id l) -> NoDup (map Socket.id (subscribers_add ws l)).
Proof.
  intros Hnd. unfold subscribers_add.
  destruct (existsb (same_socket ws) l) eqn:E; [exact Hnd|].
  rewrite map_app. apply NoDup_app. split; [exact Hnd|].
  split; [|apply NoDup_singleton].
  intros id Hid Hws. apply list_elem_of_singleton in Hws as ->.
  apply list_elem_of_In, in_map_iff in Hid as (x & Hx & Hin).
  assert (existsb (same_socket ws) l = true); [|congruence].
  apply existsb_exists. exists x. split; [exact Hin|].
  unfold same_socket. rewrite Hx. apply Nat.eqb_refl.
Qed.

Lemma subscribers_delete_absent (ws : Socket.t) (l : list Socket.t) :
  ~ In (Socket.id ws) (map Socket.id (subscribers_delete ws l)).
Proof.
  unfold subscribers_delete. intros Hin.
  apply in_map_iff in Hin as (x & Hx & Hin).
  apply filter_In in Hin as [_ Hne].
  unfold same_socket in Hne. rewrite Hx, Nat.eqb_refl in Hne. discriminate.
Qed.

(** X7.  [broadcastToClients] never throws.  When the subscriber set holds
    no socket twice, every subscriber that is open and whose [send] succeeds
    is sent the message exactly once and stays subscribed; every other
    subscriber is sent nothing and is removed; sockets outside the set are
    sent nothing; and the published snapshot is not touched. *)
Theorem broadcastToClients_delivers_once
        (d : DashboardData.t) (s : Service.t) :
  NoDup (map Socket.id (Service.subscribers s)) ->
  let s' := snd (broadcastToClients d s) in
  fst (broadcastToClients d s) = Returned tt /\
  Service.subscribers s' = filter receives (Service.subscribers s) /\
  (forall ws, In ws (Service.subscribers s) ->
     delivered_to (Socket.id ws) s'
     = (delivered_to (Socket.id ws) s ++ if receives ws then [d] else [])%list) /\
  (forall id, ~ In id (map Socket.id (Service.subscribers s)) ->
     delivered_to id s' = delivered_to id s) /\
  Service.lastUpdate s' = Service.lastUpdate s.
Proof.
  intros Hnd. cbn zeta.
  split; [reflexivity|]. split; [reflexivity|].
  split; [intros ws; now apply delivered_after_broadcast|].
  split; [intros id; now apply delivered_stranger | reflexivity].
Qed.

Lemma broadcastToClients_delivers_once_witness :
  NoDup (map Socket.id [Socket.mk 1 true false; Socket.mk 2 false false;
                        Socket.mk 3 true true]) /\
  Service.subscribers
    (snd (broadcastToClients
            (DashboardData.mk [] None (Service.exchangeRates Sample.service)
                              "westeurope" "t" "success" None)
            (Service.set_subscribers
               [Socket.mk 1 true false; Socket.mk 2 false false;
                Socket.mk 3 true true] Sample.service)))
  = filter receives [Socket.mk 1 true false; Socket.mk 2 false false;
                     Socket.mk 3 true true].
Proof.
  assert (Hnd : NoDup (map Socket.id [Socket.mk 1 true false;
                                      Socket.mk 2 false false;
                                      Socket.mk 3 true true])).
  { simpl. repeat (apply NoDup_cons; split;
                   [rewrite list_elem_of_In; simpl; lia|]).
    apply NoDup_nil_2. }
  split; [exact Hnd|].
  apply (broadcastToClients_delivers_once
           (DashboardData.mk [] None (Service.exchangeRates Sample.service)
                             "westeurope" "t" "success" None)
           (Service.set_subscribers
              [Socket.mk 1 true false; Socket.mk 2 false false;
               Socket.mk 3 true true] Sample.service) Hnd).
Defined.

Lemma onConnection_run (ws : Socket.t) (s : Service.t) :
  onConnection ws s
  = (Returned tt,
     let s1 := Service.set_subscribers
                 (subscribers_add ws (Service.subscribers s)) s in
     match Service.lastUpdate s with
     | Some lastUpdate =>
         if Socket.sendThrows ws then s1
         else Service.put_on_wire [(Socket.id ws, lastUpdate)] s1
     | None => s1
     end).
Proof.
  unfold onConnection. rewrite bind_run. cbn [get]. rewrite bind_run.
  cbn [modify]. destruct (Service.lastUpdate s) as [d0|]; [|reflexivity].
  destruct (Socket.sendThrows ws); reflexivity.
Qed.

Lemma onConnection_subscribers (ws : Socket.t) (s : Service.t) :
  Service.subscribers (snd (onConnection ws s))
  = subscribers_add ws (Service.subscribers s).
Proof.
  rewrite onConnection_run. cbn zeta.
  destruct (Service.lastUpdate s); [destruct (Socket.sendThrows ws)|];
    reflexivity.
Qed.

(** X8.  A socket that connects joins the subscriber set, once, and is sent
    the current snapshot at once when one has been published and the send
    succeeds; it joins the set also when that send raises.  A new, live
    socket that connects and is followed by a broadcast receives that
    snapshot exactly once. *)
Theorem onConnection_subscribes
        (ws : Socket.t) (s : Service.t) (d : DashboardData.t) :
  NoDup (map Socket.id (Service.subscribers s)) ->
  ~ In (Socket.id ws) (map Socket.id (Service.subscribers s)) ->
  let s1 := snd (onConnection ws s) in
  fst (onConnection ws s) = Returned tt /\
  Service.subscribers s1 = (Service.subscribers s ++ [ws])%list /\
  NoDup (map Socket.id (Service.subscribers s1)) /\
  delivered_to (Socket.id ws) s1
  = (delivered_to (Socket.id ws) s
     ++ match Service.lastUpdate s with
        | Some current => if Socket.sendThrows ws then [] else [current]
        | None => []
        end)%list /\
  (receives ws = true ->
   delivered_to (Socket.id ws) (snd (broadcastToClients d s1))
   = (delivered_to (Socket.id ws) s1 ++ [d])%list).
Proof.
  intros Hnd Hnew. cbn zeta.
  assert (Hadd : subscribers_add ws (Service.subscribers s)
                 = (Service.subscribers s ++ [ws])%list).
  { unfold subscribers_add.
    destruct (existsb (same_socket ws) (Service.subscribers s)) eqn:E;
      [|reflexivity].
    apply existsb_exists in E as (x & Hin & Hx). exfalso. apply Hnew.
    apply Nat.eqb_eq in Hx. rewrite Hx. now apply in_map. }
  assert (Hsubs : Service.subscribers (snd (onConnection ws s))
                  = (Service.subscribers s ++ [ws])%list)
    by now rewrite onConnection_subscribers.
  assert (Hnd1 : NoDup (map Socket.id (Service.subscribers
                                         (snd (onConnection ws s))))).
  { rewrite onConnection_subscribers. now apply subscribers_add_ids. }
  split; [now rewrite onConnection_run|]. split; [exact Hsubs|].
  split; [exact Hnd1|]. split.
  - rewrite onConnection_run. cbn zeta. unfold delivered_to.
    destruct (Service.lastUpdate s) as [d0|];
      [destruct (Socket.sendThrows ws)|]; simpl; rewrite ?app_nil_r;
      try reflexivity.
    rewrite List.filter_app, map_app. simpl. now rewrite Nat.eqb_refl.
  - intros Hlive.
    rewrite (delivered_after_broadcast d _ ws Hnd1), Hlive; [reflexivity|].
    rewrite Hsubs. apply in_app_iff. right. now left.
Qed.

Lemma onConnection_subscribes_witness :
  NoDup (map Socket.id (Service.subscribers Sample.published)) /\
  ~ In 7%nat (map Socket.id (Service.subscribers Sample.published)) /\
  length (delivered_to 7 (snd (onConnection (Socket.mk 7 true false)
                                            Sample.published))) = 1%nat.
Proof.
  assert (Hnd : NoDup (map Socket.id (Service.subscribers Sample.published))).
  { vm_compute. apply NoDup_singleton. }
  assert (Hnew : ~ In 7%nat (map Socket.id (Service.subscribers
                                              Sample.published))).
  { vm_compute. intros [H|[]]. discriminate H. }
  split; [exact Hnd|]. split; [exact Hnew|].
  destruct (onConnection_subscribes
              (Socket.mk 7 true false) Sample.published
              (DashboardData.mk [] None (Service.exchangeRates Sample.service)
                                "westeurope" "t" "success" None) Hnd Hnew)
    as (_ & _ & _ & Hd & _).
  cbn [Socket.id] in Hd. rewrite Hd. vm_compute. reflexivity.
Defined.

(** X9.  After the ['close'] or ['error'] handler of a socket has run, the
    socket is no longer subscribed, and later broadcasts send it nothing;
    the other subscribers stay as they were. *)
Theorem onClose_unsubscribes
        (ws : Socket.t) (s : Service.t) (d : DashboardData.t) :
  let s1 := snd (onClose ws s) in
  fst (onClose ws s) = Returned tt /\
  ~ In (Socket.id ws) (map Socket.id (Service.subscribers s1)) /\
  (forall x, In x (Service.subscribers s) ->
     Socket.id x <> Socket.id ws -> In x (Service.subscribers s1)) /\
  delivered_to (Socket.id ws) (snd (broadcastToClients d s1))
  = delivered_to (Socket.id ws) s.
Proof.
  cbn zeta.
  assert (Hrun : onClose ws s
                 = (Returned tt,
                    Service.set_subscribers
                      (subscribers_delete ws (Service.subscribers s)) s))
    by reflexivity.
  rewrite Hrun. cbn [fst snd].
  split; [reflexivity|].
  split; [apply subscribers_delete_absent|]. split.
  - intros x Hin Hne. simpl. unfold subscribers_delete.
    apply filter_In. split; [exact Hin|].
    unfold same_socket. apply negb_true_iff, Nat.eqb_neq. congruence.
  - rewrite delivered_stranger; [reflexivity|].
    apply subscribers_delete_absent.
Qed.

(** X10.  A snapshot build in which nothing unexpected is raised publishes
    the snapshot it returns and sends exactly that snapshot, once, to every
    subscriber that is open and whose [send] succeeds; the other subscribers
    are removed, and the subscriber set still holds no socket twice. *)
Theorem getDashboardData_delivers_what_it_returns
        (w : World.t) (s : Service.t) :
  NoDup (map Socket.id (Service.subscribers s)) ->
  exists d s',
    getDashboardData w None s = (Returned d, s') /\
    Service.lastUpdate s' = Some d /\
    Service.subscribers s' = filter receives (Service.subscribers s) /\
    NoDup (map Socket.id (Service.subscribers s')) /\
    forall ws, In ws (Service.subscribers s) ->
      delivered_to (Socket.id ws) s'
      = (delivered_to (Socket.id ws) s ++ if receives ws then [d] else [])%list.
Proof.
  intros Hnd.
  destruct (branch_returns None InPricingFetch (fetchRealTimePricing w) s)
    as (o1 & s1 & H1 & (_ & W1 & S1 & _)).
  { destruct (fetchRealTimePricing_returns w s) as (v & s' & H & Hf & _).
    eauto. }
  destruct (branch_returns None InUsageFetch (fetchUsageData w) s1
                           (fetchUsageData_returns w s1))
    as (o2 & s2 & H2 & (_ & W2 & S2 & _)).
  destruct (branch_returns None InRatesFetch (fetchExchangeRates w) s2
                           (fetchExchangeRates_returns w s2))
    as (o3 & s3 & H3 & (_ & W3 & S3 & _)).
  pose proof (getDashboardData_run w None s s1 s2 s3 _ _ _ H1 H2 H3) as Hrun.
  cbn zeta in Hrun.
  assert (HS : Service.subscribers s3 = Service.subscribers s) by congruence.
  assert (HW : Service.wire s3 = Service.wire s) by congruence.
  set (d := DashboardData.mk _ _ _ _ _ "success" None) in *.
  exists d. eexists. split; [exact Hrun|].
  split; [reflexivity|]. cbn [Service.subscribers Service.set_subscribers].
  rewrite HS. split; [reflexivity|].
  split; [now apply NoDup_ids_filter|].
  intros ws Hin.
  pose proof (delivered_after_broadcast d (Service.set_lastUpdate d s3) ws)
    as Hd.
  rewrite broadcastToClients_run in Hd. cbn [snd] in Hd.
  cbn [Service.subscribers Service.set_lastUpdate] in Hd.
  unfold delivered_to in *. cbn [Service.wire Service.set_subscribers
    Service.put_on_wire Service.set_lastUpdate] in Hd |- *.
  rewrite ?HS, ?HW in Hd. rewrite ?HS, ?HW. now apply Hd.
Qed.

Lemma getDashboardData_delivers_witness :
  NoDup (map Socket.id (Service.subscribers Sample.published)) /\
  exists d s',
    getDashboardData Sample.online None Sample.published = (Returned d, s') /\
    Service.lastUpdate s' = Some d.
Proof.
  assert (Hnd : NoDup (map Socket.id (Service.subscribers Sample.published))).
  { vm_compute. apply NoDup_singleton. }
  split; [exact Hnd|].
  destruct (getDashboardData_delivers_what_it_returns
              Sample.online Sample.published Hnd)
    as (d & s' & Hrun & Hlast & _).
  exists d, s'. split; assumption.
Defined.

(** ** Failed-attempt bookkeeping *)

Section AuthFacts.
Import Auth.
Variable hashApiKey : string -> string.

Lemma apiKey_kept (now : Z) (req : request) (a : t) :
  apiKey (snd (authenticateApiKey hashApiKey now req a)) = apiKey a.
Proof.
  unfold authenticateApiKey, isLockedOut.
  destruct (existsb _ publicEndpoints); [reflexivity|].
  destruct (failedAttempts a !! ip req) as [att|];
    [destruct (_ <? _)%Z; [|destruct (_ <=? _)%Z]|]; simpl;
    try reflexivity;
    (destruct (truthy (apiKey a)); [|reflexivity]);
    (destruct (truthy (presented_key req)); [|reflexivity]);
    destruct (String.eqb _ _); reflexivity.
Qed.

Lemma other_client_kept (now : Z) (req : request) (a : t) (client : string) :
  client <> ip req ->
  failedAttempts (snd (authenticateApiKey hashApiKey now req a)) !! client
  = failedAttempts a !! client.
Proof.
  intros Hne. unfold authenticateApiKey, isLockedOut.
  destruct (existsb _ publicEndpoints); [reflexivity|].
  destruct (failedAttempts a !! ip req) as [att|];
    [destruct (_ <? _)%Z; [|destruct (_ <=? _)%Z]|]; simpl;
    try reflexivity;
    (destruct (truthy _); [|simpl; rewrite ?lookup_delete_ne by congruence;
                            reflexivity]);
    (destruct (truthy (presented_key req));
     [destruct (String.eqb _ _)|]); simpl;
    rewrite ?lookup_insert_ne, ?lookup_delete_ne by congruence; reflexivity.
Qed.

Lemma wrong_key_step (now t0 : Z) (req : request) (a : t)
      (configured client : string) (c : nat) :
  truthy (apiKey a) = Some configured ->
  counted a client c t0 ->
  (c <= 5)%nat ->
  (t0 <= now)%Z -> (now <= t0 + lockoutDuration)%Z ->
  wrong_key hashApiKey configured client req = true ->
  if (c <? 5)%nat
  then status_of (fst (authenticateApiKey hashApiKey now req a)) = Some 401%Z /\
       counted (snd (authenticateApiKey hashApiKey now req a)) client (S c) t0
  else status_of (fst (authenticateApiKey hashApiKey now req a)) = Some 429%Z /\
       snd (authenticateApiKey hashApiKey now req a) = a.
Proof.
  intros Hkey Hc Hle Ht0 Ht1 Hw.
  unfold wrong_key in Hw.
  apply andb_true_iff in Hw as [Hw Hbad].
  apply andb_true_iff in Hw as [Hpub Hip].
  apply negb_true_iff in Hpub. apply String.eqb_eq in Hip.
  unfold authenticateApiKey, isLockedOut, counted in *.
  rewrite Hpub, Hip.
  assert (Hrecord : forall a0,
             apiKey a0 = apiKey a -> failedAttempts a0 = failedAttempts a ->
             status_of
               (fst (match truthy (apiKey a0) with
                     | None => (Next false, a0)
                     | Some configured0 =>
                         match truthy (presented_key req) with
                         | None => (Respond 401 "API key required",
                                    recordFailedAttempt now client a0)
                         | Some key =>
                             if String.eqb (hashApiKey key)
                                           (hashApiKey configured0)
                             then (Next true, clearFailedAttempts client a0)
                             else (Respond 401 "Invalid API key",
                                   recordFailedAttempt now client a0)
                         end
                     end)) = Some 401%Z /\
             snd (match truthy (apiKey a0) with
                  | None => (Next false, a0)
                  | Some configured0 =>
                      match truthy (presented_key req) with
                      | None => (Respond 401 "API key required",
                                 recordFailedAttempt now client a0)
                      | Some key =>
                          if String.eqb (hashApiKey key)
                                        (hashApiKey configured0)
                          then (Next true, clearFailedAttempts client a0)
                          else (Respond 401 "Invalid API key",
                                recordFailedAttempt now client a0)
                      end
                  end) = recordFailedAttempt now client a0).
  { intros a0 Ha _. rewrite Ha, Hkey.
    destruct (truthy (presented_key req)) as [key|]; [|now split].
    apply negb_true_iff in Hbad. rewrite Hbad. now split. }
  destruct (failedAttempts a !! client) as [att|] eqn:Hatt.
  - destruct Hc as (Hcount & Hlo & Hhi).
    assert (Hage : (lockoutDuration <? now - lastAttempt att)%Z = false)
      by (apply Z.ltb_ge; lia).
    rewrite Hage.
    destruct (c <? 5)%nat eqn:Hc5.
    + apply Nat.ltb_lt in Hc5.
      assert (Hfree : (maxFailedAttempts <=? count att)%Z = false)
        by (apply Z.leb_gt; unfold maxFailedAttempts; lia).
      rewrite Hfree. destruct (Hrecord a eq_refl eq_refl) as [Hs Hst].
      split; [exact Hs|]. rewrite Hst. unfold recordFailedAttempt. simpl.
      rewrite lookup_insert_eq, Hatt. simpl. lia.
    + apply Nat.ltb_ge in Hc5.
      assert (Hlocked : (maxFailedAttempts <=? count att)%Z = true)
        by (apply Z.leb_le; unfold maxFailedAttempts; lia).
      rewrite Hlocked. now split.
  - subst c. simpl. destruct (Hrecord a eq_refl eq_refl) as [Hs Hst].
    split; [exact Hs|]. rewrite Hst. unfold recordFailedAttempt. simpl.
    rewrite lookup_insert_eq, Hatt. simpl. lia.
Qed.

Lemma serve_wrong_keys (t0 : Z) (configured client : string)
      (reqs : list (Z * request)) :
  Forall (fun p => (t0 <= fst p)%Z /\ (fst p <= t0 + lockoutDuration)%Z /\
                   wrong_key hashApiKey configured client (snd p) = true)
         reqs ->
  forall (a : t) (c : nat),
    truthy (apiKey a) = Some configured ->
    counted a client c t0 ->
    (c <= 5)%nat ->
    map status_of (fst (serve hashApiKey reqs a))
    = (replicate (Nat.min (5 - c) (length reqs)) (Some 401%Z)
       ++ replicate (length reqs - (5 - c)) (Some 429%Z))%list.
Proof.
  induction 1 as [|[now req] reqs (Ht0 & Ht1 & Hw) _ IH]; intros a c Hkey Hc Hle.
  - simpl. now rewrite Nat.min_0_r.
  - simpl in Ht0, Ht1, Hw. cbn [serve].
    pose proof (wrong_key_step now t0 req a configured client c
                               Hkey Hc Hle Ht0 Ht1 Hw) as Hstep.
    pose proof (apiKey_kept now req a) as Hkept.
    destruct (authenticateApiKey hashApiKey now req a) as [v a1].
    simpl in Hstep, Hkept.
    assert (Hkey1 : truthy (apiKey a1) = Some configured) by now rewrite Hkept.
    destruct (c <? 5)%nat eqn:Hc5.
    + apply Nat.ltb_lt in Hc5. destruct Hstep as [Hs Hc1].
      specialize (IH a1 (S c) Hkey1 Hc1 ltac:(lia)).
      destruct (serve hashApiKey reqs a1) as [vs a2]. simpl in *.
      rewrite Hs, IH.
      replace (5 - c)%nat with (S (5 - S c)) by lia. simpl.
      reflexivity.
    + apply Nat.ltb_ge in Hc5. destruct Hstep as [Hs ->].
      specialize (IH a c Hkey Hc Hle).
      destruct (serve hashApiKey reqs a) as [vs a2]. simpl in *.
      rewrite Hs, IH.
      replace (5 - c)%nat with 0%nat by lia. simpl.
      rewrite Nat.sub_0_r. reflexivity.
Qed.

End AuthFacts.

(** X11.  With an API key configured, a client without a failure record
    that sends requests to protected paths with a missing or wrong key,
    all within one lockout duration (15 minutes), is answered 401 for the
    first five and 429 for every one after them: at most five keys can be
    tried in the window. *)
Theorem lockout_after_five_failures
        (hashApiKey : string -> string) (a : Auth.t)
        (configured client : string) (t0 : Z)
        (reqs : list (Z * Auth.request)) :
  Auth.truthy (Auth.apiKey a) = Some configured ->
  Auth.failedAttempts a !! client = None ->
  Forall (fun p => (t0 <= fst p)%Z /\
                   (fst p <= t0 + Auth.lockoutDuration)%Z /\
                   Auth.wrong_key hashApiKey configured client (snd p) = true)
         reqs ->
  map Auth.status_of (fst (Auth.serve hashApiKey reqs a))
  = (replicate (Nat.min 5 (length reqs)) (Some 401%Z)
     ++ replicate (length reqs - 5) (Some 429%Z))%list.
Proof.
  intros Hkey Hnone Hreqs.
  apply (serve_wrong_keys hashApiKey t0 configured client reqs Hreqs a 0%nat);
    [exact Hkey | | lia].
  unfold Auth.counted. now rewrite Hnone.
Qed.

Lemma lockout_after_five_failures_witness :
  map Auth.status_of
      (fst (Auth.serve (fun key => key)
              (map (fun n => (Z.of_nat n * 1000, Auth.guess "10.0.0.9" "nope")%Z)
                   (seq 0 7))
              Auth.fresh_manager))
  = [Some 401; Some 401; Some 401; Some 401; Some 401; Some 429; Some 429]%Z.
Proof.
  apply (lockout_after_five_failures
           (fun key => key) Auth.fresh_manager Auth.sample_key "10.0.0.9" 0
           (map (fun n => (Z.of_nat n * 1000, Auth.guess "10.0.0.9" "nope")%Z)
                (seq 0 7))).
  - reflexivity.
  - reflexivity.
  - repeat constructor; vm_compute; congruence.
Defined.

(** X12.  A client that is locked out (five or more recorded failures, the
    last at most 15 minutes ago) is answered 429 even when it presents the
    configured key, and that refusal changes nothing in the record.  When
    the client is not locked out, the configured key is let through and the
    client's failure record is removed. *)
Theorem correct_key_and_lockout
        (hashApiKey : string -> string) (now : Z) (req : Auth.request)
        (a : Auth.t) (configured key : string) :
  existsb (String.eqb (Auth.path req)) Auth.publicEndpoints = false ->
  Auth.truthy (Auth.apiKey a) = Some configured ->
  Auth.truthy (Auth.presented_key req) = Some key ->
  hashApiKey key = hashApiKey configured ->
  if fst (Auth.isLockedOut now (Auth.ip req) a)
  then Auth.status_of (fst (Auth.authenticateApiKey hashApiKey now req a))
       = Some 429%Z /\
       snd (Auth.authenticateApiKey hashApiKey now req a) = a
  else fst (Auth.authenticateApiKey hashApiKey now req a) = Auth.Next true /\
       Auth.failedAttempts
         (snd (Auth.authenticateApiKey hashApiKey now req a)) !! Auth.ip req
       = None.
Proof.
  intros Hpub Hkey Hpres Hhash.
  unfold Auth.authenticateApiKey. rewrite Hpub.
  assert (Hlock : forall att,
             Auth.failedAttempts a !! Auth.ip req = Some att ->
             fst (Auth.isLockedOut now (Auth.ip req) a) = true ->
             snd (Auth.isLockedOut now (Auth.ip req) a) = a).
  { intros att Hatt. unfold Auth.isLockedOut. rewrite Hatt.
    destruct (_ <? _)%Z; [discriminate | reflexivity]. }
  assert (Hkept : Auth.apiKey (snd (Auth.isLockedOut now (Auth.ip req) a))
                  = Auth.apiKey a).
  { unfold Auth.isLockedOut.
    destruct (Auth.failedAttempts a !! Auth.ip req);
      [destruct (_ <? _)%Z|]; reflexivity. }
  destruct (Auth.isLockedOut now (Auth.ip req) a) as [locked a1] eqn:E.
  simpl in *. destruct locked.
  - split; [reflexivity|].
    unfold Auth.isLockedOut in E.
    destruct (Auth.failedAttempts a !! Auth.ip req) as [att|];
      [destruct (_ <? _)%Z|]; now inversion E.
  - rewrite Hkept, Hkey, Hpres, Hhash, String.eqb_refl. simpl.
    split; [reflexivity | apply lookup_delete_eq].
Qed.

Lemma correct_key_and_lockout_witness :
  fst (Auth.authenticateApiKey (fun key => key) 0
         (Auth.guess "10.0.0.9" Auth.sample_key) Auth.fresh_manager)
  = Auth.Next true.
Proof.
  apply (correct_key_and_lockout
           (fun key => key) 0 (Auth.guess "10.0.0.9" Auth.sample_key)
           Auth.fresh_manager Auth.sample_key Auth.sample_key);
    reflexivity.
Defined.

(** X13.  Whatever a request is and however it ends, the middleware leaves
    the failure records of every other client as they were, and the
    configured key too; and a request to one of the public paths
    ("/api/health", "/api/metrics", "/") is let through without any check
    and changes nothing, also for a client that is locked out. *)
Theorem lockout_is_per_client
        (hashApiKey : string -> string) (now : Z) (req : Auth.request)
        (a : Auth.t) :
  (forall client, client <> Auth.ip req ->
     Auth.failedAttempts
       (snd (Auth.authenticateApiKey hashApiKey now req a)) !! client
     = Auth.failedAttempts a !! client) /\
  Auth.apiKey (snd (Auth.authenticateApiKey hashApiKey now req a))
  = Auth.apiKey a /\
  (In (Auth.path req) Auth.publicEndpoints ->
   Auth.authenticateApiKey hashApiKey now req a = (Auth.Next false, a)).
Proof.
  split; [intros client; apply other_client_kept|].
  split; [apply apiKey_kept|].
  intros Hin. unfold Auth.authenticateApiKey.
  assert (E : existsb (String.eqb (Auth.path req)) Auth.publicEndpoints = true).
  { apply existsb_exists. exists (Auth.path req). split; [exact Hin|].
    apply String.eqb_refl. }
  now rewrite E.
Qed.

(** ** Error texts and routes *)

Section ErrorTexts.
Import JsString.

Lemma all_chars_app (P : ascii -> bool) (a b : string) :
  all_chars P (a ++ b) = all_chars P a && all_chars P b.
Proof.
  induction a as [|c a IH]; [reflexivity|].
  rewrite append_cons. simpl. now rewrite IH, andb_assoc.
Qed.

Lemma numeric_has_no_letter_end (s : string) :
  all_chars numeric s = true -> ends_in_letter s = false.
Proof.
  unfold ends_in_letter. induction s as [|c s IH]; [reflexivity|].
  simpl. intros H. apply andb_true_iff in H as [Hc Hs].
  destruct s as [|c' s']; [now rewrite Hc | now apply IH].
Qed.

Lemma string_of_uint_numeric (d : Decimal.uint) :
  all_chars numeric (NilEmpty.string_of_uint d) = true.
Proof. induction d; simpl; auto. Qed.

Lemma string_of_Z_numeric (z : Z) :
  all_chars numeric (JsNumber.string_of_Z z) = true.
Proof.
  unfold JsNumber.string_of_Z, NilZero.string_of_int, NilZero.string_of_uint.
  destruct (Z.to_int z) as [d|d]; destruct d; try reflexivity;
    apply (string_of_uint_numeric (_ d)) || apply string_of_uint_numeric.
Qed.

Lemma strip_prefix_within (needle a q r : string) :
  strip_prefix needle (a ++ q) = Some r ->
  all_chars numeric q = true ->
  ends_in_letter needle = true ->
  startsWith needle a = true.
Proof.
  revert a; induction needle as [|x n IH]; intros a Hs Hq He;
    [discriminate He|].
  destruct a as [|y a].
  - rewrite append_nil in Hs. apply strip_prefix_Some in Hs. subst q.
    rewrite all_chars_app in Hq. apply andb_true_iff in Hq as [Hn _].
    apply numeric_has_no_letter_end in Hn. congruence.
  - rewrite append_cons in Hs. simpl in Hs. unfold startsWith. simpl.
    destruct (Ascii.eqb x y); [|discriminate].
    destruct n as [|x' n']; [reflexivity|].
    assert (He' : ends_in_letter (String x' n') = true) by exact He.
    specialize (IH a Hs Hq He'). unfold startsWith in IH. exact IH.
Qed.

Lemma includes_within (needle p q : string) :
  includes needle (p ++ q) = true ->
  all_chars numeric q = true ->
  ends_in_letter needle = true ->
  includes needle p = true.
Proof.
  intros Hi Hq He. induction p as [|c p IH].
  - rewrite append_nil in Hi. apply includes_elim in Hi as (pre & post & ->).
    rewrite !all_chars_app in Hq.
    apply andb_true_iff in Hq as [_ Hq]. apply andb_true_iff in Hq as [Hn _].
    apply numeric_has_no_letter_end in Hn. congruence.
  - rewrite append_cons in Hi. simpl in Hi.
    apply orb_true_iff in Hi as [Hi|Hi].
    + apply includes_here. unfold startsWith in Hi.
      destruct (strip_prefix needle (String c (p ++ q))) as [r|] eqn:E;
        [|discriminate].
      rewrite <- append_cons in E.
      eapply strip_prefix_within; eauto.
    + simpl. rewrite (IH Hi). apply orb_true_r.
Qed.

Lemma not_in_status_message (needle : string) (status : Z) :
  ends_in_letter needle = true ->
  includes needle "Authentication failed: " = false ->
  includes needle ("Authentication failed: " ++ JsNumber.string_of_Z status)
  = false.
Proof.
  intros He Hp.
  destruct (includes needle
              ("Authentication failed: " ++ JsNumber.string_of_Z status))
    eqn:E; [|reflexivity].
  apply includes_within in E; [congruence | apply string_of_Z_numeric | exact He].
Qed.

End ErrorTexts.

(** X14.  In production and without the stack, [sanitizeError] answers one
    of four fixed texts, chosen by the first group of keywords found in the
    message: "Authentication failed" for authentication or token; else
    "Configuration error" for subscription or tenant; else "Service
    temporarily unavailable" for API or fetch; else "An error occurred".  So
    nothing of the message is passed on.  Outside production it answers the
    message itself, and with [includeStack] the stack. *)
Theorem sanitizeError_is_generic (message stack : string) :
  In (sanitizeError true false message stack) generic_errors /\
  (JsString.includes "authentication" message = true \/
   JsString.includes "token" message = true ->
   sanitizeError true false message stack = "Authentication failed") /\
  (JsString.includes "authentication" message = false ->
   JsString.includes "token" message = false ->
   JsString.includes "subscription" message = true \/
   JsString.includes "tenant" message = true ->
   sanitizeError true false message stack = "Configuration error") /\
  (JsString.includes "authentication" message = false ->
   JsString.includes "token" message = false ->
   JsString.includes "subscription" message = false ->
   JsString.includes "tenant" message = false ->
   JsString.includes "API" message = true \/
   JsString.includes "fetch" message = true ->
   sanitizeError true false message stack
   = "Service temporarily unavailable") /\
  (JsString.includes "authentication" message = false ->
   JsString.includes "token" message = false ->
   JsString.includes "subscription" message = false ->
   JsString.includes "tenant" message = false ->
   JsString.includes "API" message = false ->
   JsString.includes "fetch" message = false ->
   sanitizeError true false message stack = "An error occurred") /\
  sanitizeError false false message stack = message /\
  (forall isProduction, sanitizeError isProduction true message stack = stack).
Proof.
  unfold sanitizeError, generic_errors. cbn [andb negb].
  split.
  - repeat match goal with
           | |- context [JsString.includes ?k message] =>
               destruct (JsString.includes k message)
           end; simpl; tauto.
  - split; [intros [->| ->]; rewrite ?orb_true_r; reflexivity|].
    split; [intros -> -> [->| ->]; rewrite ?orb_true_r; reflexivity|].
    split; [intros -> -> -> -> [->| ->]; rewrite ?orb_true_r; reflexivity|].
    split; [intros -> -> -> -> -> ->; reflexivity|].
    split; [reflexivity|]. intros []; reflexivity.
Qed.

(** X15.  When the token endpoint rejects the credentials, the error that
    [getAzureAccessToken] throws reads "Authentication failed: <status>";
    the keyword test of [sanitizeError] is case-sensitive and finds none of
    its keywords in that text, so in production the text sent for it is "An
    error occurred", not "Authentication failed". *)
Theorem rejected_credentials_read_as_unknown_error
        (w : World.t) (s : Service.t) (status : Z) (text stack : string) :
  token_is_fresh w s = false ->
  World.tokenResponse w = NotOk status text ->
  exists e s',
    getAzureAccessToken w s = (Thrown e, s') /\
    message_of e = "Authentication failed: " ++ JsNumber.string_of_Z status /\
    sanitizeError true false (message_of e) stack = "An error occurred".
Proof.
  intros Hstale Hresp. rewrite getAzureAccessToken_run, Hresp.
  assert (Hrun : exists s',
             (match Service.cache_azure_token s with
              | Some cached =>
                  if token_is_fresh w s
                  then (Returned (CacheEntry.data cached), s)
                  else (Thrown (Error ("Authentication failed: "
                                       ++ JsNumber.string_of_Z status)),
                        Service.log_request TokenEndpoint s)
              | None =>
                  (Thrown (Error ("Authentication failed: "
                                  ++ JsNumber.string_of_Z status)),
                   Service.log_request TokenEndpoint s)
              end)
             = (Thrown (Error ("Authentication failed: "
                               ++ JsNumber.string_of_Z status)), s')).
  { rewrite Hstale. destruct (Service.cache_azure_token s); eauto. }
  destruct Hrun as [s' Hrun]. do 2 eexists. split; [exact Hrun|].
  split; [reflexivity|].
  unfold sanitizeError, message_of. cbn [andb negb].
  rewrite !not_in_status_message by reflexivity. reflexivity.
Qed.

Lemma rejected_credentials_witness :
  exists e s',
    getAzureAccessToken
      (World.mk Sample.host (Body Sample.catalogue) (NotOk 401 "denied")
                (Body Sample.zero_usage) (Body Sample.rates_answer))
      Sample.service = (Thrown e, s') /\
    sanitizeError true false (message_of e) "" = "An error occurred".
Proof.
  destruct (rejected_credentials_read_as_unknown_error
              (World.mk Sample.host (Body Sample.catalogue)
                        (NotOk 401 "denied")
                        (Body Sample.zero_usage) (Body Sample.rates_answer))
              Sample.service 401 "denied" "" eq_refl eq_refl)
    as (e & s' & Hrun & _ & Hs).
  exists e, s'. split; assumption.
Defined.

Lemma getDashboardData_returns (w : World.t) (bug : option stage)
      (s : Service.t) :
  exists d s', getDashboardData w bug s = (Returned d, s').
Proof.
  destruct (branch_returns bug InPricingFetch (fetchRealTimePricing w) s)
    as (o1 & s1 & H1 & _).
  { destruct (fetchRealTimePricing_returns w s) as (v & s' & H & Hf & _).
    eauto. }
  destruct (branch_returns bug InUsageFetch (fetchUsageData w) s1
                           (fetchUsageData_returns w s1)) as (o2 & s2 & H2 & _).
  destruct (branch_returns bug InRatesFetch (fetchExchangeRates w) s2
                           (fetchExchangeRates_returns w s2))
    as (o3 & s3 & H3 & _).
  rewrite (getDashboardData_run w bug s s1 s2 s3 _ _ _ H1 H2 H3).
  destruct bug as [[]|]; eauto.
Qed.

Lemma route_of_returning {A : Type} (isProduction : bool) (method : M A)
      (s : Service.t) :
  (exists v s', method s = (Returned v, s')) ->
  exists v s', route isProduction method s = (Returned (Ok200 v), s') /\
               method s = (Returned v, s').
Proof.
  intros (v & s' & H). exists v, s'. split; [|exact H].
  unfold route, try_catch. rewrite bind_run, H. reflexivity.
Qed.

(** X16.  The handlers of [GET /api/dashboard], [/api/pricing],
    [/api/usage] and [/api/exchange-rates] always answer with status 200
    and the value the service method returned, whatever the sources answer:
    their 500 branch is never taken.  In particular a snapshot build that
    failed in the merge is answered with status 200 and the error object. *)
Theorem data_routes_never_answer_500
        (isProduction : bool) (w : World.t) (bug : option stage)
        (s : Service.t) :
  (exists d s',
      route isProduction (getDashboardData w bug) s = (Returned (Ok200 d), s') /\
      getDashboardData w bug s = (Returned d, s')) /\
  (exists v s',
      route isProduction (fetchRealTimePricing w) s = (Returned (Ok200 v), s') /\
      fetchRealTimePricing w s = (Returned v, s')) /\
  (exists v s',
      route isProduction (fetchUsageData w) s = (Returned (Ok200 v), s') /\
      fetchUsageData w s = (Returned v, s')) /\
  (exists v s',
      route isProduction (fetchExchangeRates w) s = (Returned (Ok200 v), s') /\
      fetchExchangeRates w s = (Returned v, s')).
Proof.
  split; [apply route_of_returning, getDashboardData_returns|].
  split; [apply route_of_returning;
          destruct (fetchRealTimePricing_returns w s) as (v & s' & H & _);
          eauto|].
  split; apply route_of_returning.
  - destruct (fetchUsageData_returns w s) as (v & s' & H & _). eauto.
  - destruct (fetchExchangeRates_returns w s) as (v & s' & H & _). eauto.
Qed.

(** ** Rates, token and requests *)

Lemma rate_or_nonzero (x : option Q) (fallback : Q) :
  ~ (fallback == 0)%Q -> ~ (rate_or x fallback == 0)%Q.
Proof.
  intros Hf. unfold rate_or. destruct x as [q|]; [|exact Hf].
  destruct (Qeq_bool q 0) eqn:E; [exact Hf|].
  intros H. apply Qeq_bool_iff in H. congruence.
Qed.

(** X17.  No cached exchange rate is ever zero: the rates the constructor
    sets are usable, and [fetchExchangeRates] keeps them usable whatever the
    rate source answers (a missing or zero rate is replaced by 24.5 or
    0.85).  What the method returns is always the rates object the service
    holds afterwards. *)
Theorem exchange_rates_stay_usable (w : World.t) (s : Service.t) :
  (forall now c, rates_usable (Service.exchangeRates (Service.new now c))) /\
  (rates_usable (Service.exchangeRates s) ->
   rates_usable (Service.exchangeRates (snd (fetchExchangeRates w s)))) /\
  fst (fetchExchangeRates w s)
  = Returned (Service.exchangeRates (snd (fetchExchangeRates w s))).
Proof.
  split; [|split].
  - intros now c. split; [discriminate | intros q [=]].
  - intros Hok. rewrite fetchExchangeRates_run.
    destruct (World.ratesResponse w) as [m|st tx|m|m|data]; try exact Hok.
    cbn. split.
    + apply rate_or_nonzero. discriminate.
    + intros q [= <-]. apply rate_or_nonzero. discriminate.
  - rewrite fetchExchangeRates_run.
    destruct (World.ratesResponse w); reflexivity.
Qed.

(** X18.  A token obtained by a credential exchange is served from the
    cache by every later call made less than 50 minutes after it: the later
    call returns the same token, issues no request and leaves the service as
    it was, whatever the token endpoint would answer then. *)
Theorem token_is_cached_after_exchange
        (w1 w2 : World.t) (s : Service.t) (tokenData : tokenData) :
  token_is_fresh w1 s = false ->
  World.tokenResponse w1 = Body tokenData ->
  (Host.now (World.host w2) - Host.now (World.host w1) < 50 * 60 * 1000)%Z ->
  let s1 := snd (getAzureAccessToken w1 s) in
  fst (getAzureAccessToken w1 s) = Returned (access_token tokenData) /\
  getAzureAccessToken w2 s1 = (Returned (access_token tokenData), s1).
Proof.
  intros Hstale Hbody Hsoon. cbn zeta.
  assert (Hrun : getAzureAccessToken w1 s
                 = (Returned (access_token tokenData),
                    Service.set_cache_azure_token
                      (CacheEntry.mk (access_token tokenData)
                                     (Host.now (World.host w1)))
                      (Service.log_request TokenEndpoint s))).
  { rewrite getAzureAccessToken_run, Hbody, Hstale.
    now destruct (Service.cache_azure_token s). }
  rewrite Hrun. split; [reflexivity|]. cbn [snd].
  rewrite getAzureAccessToken_run. unfold token_is_fresh, token_window.
  cbn [Service.cache_azure_token Service.set_cache_azure_token
       CacheEntry.timestamp CacheEntry.data].
  apply Z.ltb_lt in Hsoon. now rewrite Hsoon.
Qed.

Lemma token_is_cached_witness :
  fst (getAzureAccessToken Sample.short_lived (Service.new 0 Sample.config))
  = Returned "token-1" /\
  getAzureAccessToken Sample.twenty_minutes_on Sample.authenticated
  = (Returned "token-1", Sample.authenticated).
Proof.
  apply (token_is_cached_after_exchange
           Sample.short_lived Sample.twenty_minutes_on
           (Service.new 0 Sample.config) (mkTokenData "token-1" 600));
    reflexivity.
Defined.

(** X19.  The requests one call of [fetchUsageData] issues: the cost query
    alone when the cached token is fresh; the token exchange followed by the
    cost query when the exchange is answered; and the token exchange alone
    when it fails -- the cost query is never sent without a token. *)
Theorem fetchUsageData_requests (w : World.t) (s : Service.t) :
  Service.requestLog (snd (fetchUsageData w s))
  = (Service.requestLog s
     ++ if token_is_fresh w s then [CostManagementAPI]
        else if failed (World.tokenResponse w) then [TokenEndpoint]
             else [TokenEndpoint; CostManagementAPI])%list.
Proof.
  rewrite fetchUsageData_run, getAzureAccessToken_run. unfold token_is_fresh.
  destruct (Service.cache_azure_token s) as [c|];
    [destruct (_ <? _)%Z|];
    destruct (World.tokenResponse w), (World.usageResponse w);
    cbn; rewrite <- ?app_assoc; reflexivity.
Qed.

(** ** The models of a snapshot *)

Lemma parsePricingData_well_formed (h : Host.t) (rawData : rawPricing) :
  NoDup (map PricingModel.name (parsePricingData h rawData)) /\
  forall v, In v (parsePricingData h rawData) -> both_prices v = true.
Proof.
  unfold parsePricingData.
  pose proof (priced_inv_fold h (items_of rawData) [] [] priced_inv_nil)
    as (Hnd & Hsome & _).
  simpl app in *. split.
  - apply NoDup_map_filter. rewrite names_are_keys; [exact Hnd|].
    intros k v Hin. apply (Hsome k v). now apply In_map_get.
  - intros v Hv. now apply In_filter in Hv as [Hb _].
Qed.

Lemma getFallbackPricing_well_formed (h : Host.t) (region : string) :
  NoDup (map PricingModel.name (getFallbackPricing h region)) /\
  forall v, In v (getFallbackPricing h region) -> both_prices v = true.
Proof.
  split.
  - simpl. apply (bool_decide_unpack _). vm_compute. exact I.
  - intros v Hv. simpl in Hv.
    repeat (destruct Hv as [<-|Hv]; [reflexivity|]). destruct Hv.
Qed.

(** X20.  The snapshot of a build in which nothing unexpected is raised
    lists every model once (no two of its models have the same name), and
    every model in it has both its input and its output price, whether the
    pricing came from the catalogue or from the built-in list. *)
Theorem snapshot_models_are_unique_and_priced (w : World.t) (s : Service.t) :
  exists d s',
    getDashboardData w None s = (Returned d, s') /\
    NoDup (map ModelSnapshot.name (DashboardData.models d)) /\
    forall m, In m (DashboardData.models d) ->
      is_Some (ModelSnapshot.inputPrice m) /\
      is_Some (ModelSnapshot.outputPrice m).
Proof.
  destruct (fetchRealTimePricing_returns w s) as (pricing & s1 & H1 & _).
  assert (Hwf : NoDup (map PricingModel.name pricing) /\
                forall v, In v pricing -> both_prices v = true).
  { rewrite fetchRealTimePricing_run in H1.
    destruct (World.pricingResponse w); injection H1 as <- _;
      apply getFallbackPricing_well_formed
      || apply parsePricingData_well_formed. }
  destruct Hwf as [Hnd Hboth].
  destruct (fetchUsageData_returns w s1) as (usage & s2 & H2 & _).
  destruct (fetchExchangeRates_returns w s2) as (rates & s3 & H3 & _).
  assert (H1' : settled (unexpected None InPricingFetch ;; fetchRealTimePricing w) s
                = (Returned (Returned pricing), s1))
    by (rewrite branch_run; unfold settled; now rewrite H1).
  assert (H2' : settled (unexpected None InUsageFetch ;; fetchUsageData w) s1
                = (Returned (Returned usage), s2))
    by (rewrite branch_run; unfold settled; now rewrite H2).
  assert (H3' : settled (unexpected None InRatesFetch ;; fetchExchangeRates w) s2
                = (Returned (Returned rates), s3))
    by (rewrite branch_run; unfold settled; now rewrite H3).
  pose proof (getDashboardData_run w None s s1 s2 s3 _ _ _ H1' H2' H3') as Hrun.
  cbn zeta in Hrun. cbn [fulfilled_or] in Hrun.
  do 2 eexists. split; [exact Hrun|]. cbn [DashboardData.models].
  split.
  - unfold combineModelData.
    rewrite (map_imap_const ModelSnapshot.name _ PricingModel.name);
      [exact Hnd | reflexivity].
  - intros m Hm.
    apply list_elem_of_In, list_elem_of_lookup_1 in Hm as [k Hk].
    destruct (pricing !! k) as [pm|] eqn:Hpm.
    + destruct (combineModelData_lookup (World.host w) _ usage _ _ Hpm)
        as (m' & Hm' & _ & Hi & Ho & _).
      rewrite Hk in Hm'. injection Hm' as <-. rewrite Hi, Ho.
      apply both_prices_spec, Hboth.
      apply list_elem_of_In. eapply list_elem_of_lookup_2; eauto.
    + unfold combineModelData in Hk. rewrite list_lookup_imap, Hpm in Hk.
      discriminate.
Qed.

(** ** The refresh timer, one aggregation at a time *)

Lemma one_at_a_time_run (worlds : nat -> World.t) (n : nat) :
  forall st : Scheduler.t,
    Scheduler.inflight st = [] ->
    let st' := fold_left (Scheduler.step worlds)
                         (one_at_a_time (Scheduler.ticks st) n) st in
    Scheduler.overlaps worlds st (one_at_a_time (Scheduler.ticks st) n) = false /\
    Scheduler.inflight st' = [] /\
    Scheduler.ticks st' = (Scheduler.ticks st + n)%nat /\
    map snd (Scheduler.merged st')
    = (map snd (Scheduler.merged st) ++ seq (Scheduler.ticks st) n)%list.
Proof.
  induction n as [|n IH]; intros st Hidle; cbn zeta.
  - simpl. rewrite app_nil_r. repeat split; auto.
  - cbn [one_at_a_time fold_left Scheduler.overlaps].
    set (st1 := Scheduler.step worlds st Scheduler.Tick).
    set (st2 := Scheduler.step worlds st1
                               (Scheduler.Settled (Scheduler.ticks st))).
    assert (Hfly1 : Scheduler.inflight st1 = [Scheduler.ticks st])
      by (subst st1; simpl; now rewrite Hidle).
    assert (Hin : Scheduler.is_inflight (Scheduler.ticks st) st1 = true).
    { unfold Scheduler.is_inflight. rewrite Hfly1. simpl.
      now rewrite Nat.eqb_refl. }
    assert (Hst2 : Scheduler.inflight st2 = [] /\
                   Scheduler.ticks st2 = S (Scheduler.ticks st) /\
                   Scheduler.merged st2
                   = (Scheduler.merged st
                      ++ [(Scheduler.clock st1, Scheduler.ticks st)])%list).
    { subst st2. cbn [Scheduler.step]. rewrite Hin.
      cbn [Scheduler.inflight Scheduler.ticks Scheduler.merged].
      rewrite Hfly1. split; [|split; reflexivity].
      rewrite filter_cons, filter_nil.
      destruct (decide _) as [Hkeep|_]; [|reflexivity].
      now rewrite Nat.eqb_refl in Hkeep. }
    destruct Hst2 as (Hfly2 & Hticks2 & Hmerged2).
    specialize (IH st2 Hfly2). cbn zeta in IH. rewrite Hticks2 in IH.
    destruct IH as (Hov & Hfly & Hticks & Hmerged).
    rewrite Hfly1, Hfly2, Hov. split; [reflexivity|].
    split; [exact Hfly|]. split; [rewrite Hticks; lia|].
    rewrite Hmerged, Hmerged2, map_app, <- app_assoc. reflexivity.
Qed.

(** X21.  When the fetches of every tick of the refresh timer settle before
    the next tick fires, no two aggregations are ever in flight together, the
    merge phases run in tick order, one per tick, and nothing is left in
    flight at the end. *)
Theorem refresh_one_at_a_time
        (worlds : nat -> World.t) (s : Service.t) (n : nat) :
  let st := Scheduler.run worlds s (one_at_a_time 0 n) in
  Scheduler.overlaps worlds (Scheduler.init s) (one_at_a_time 0 n) = false /\
  Scheduler.inflight st = [] /\
  Scheduler.ticks st = n /\
  map snd (Scheduler.merged st) = seq 0 n.
Proof.
  cbn zeta. unfold Scheduler.run.
  apply (one_at_a_time_run worlds n (Scheduler.init s) eq_refl).
Qed.

(** ** More on the failure records *)

(** X22.  A failure record lapses 15 minutes after the last recorded
    failure: a wrong key presented later than that is answered 401, not 429,
    whatever the old count was, and the client's record starts again at one
    failure. *)
Theorem stale_record_starts_again
        (hashApiKey : string -> string) (now : Z) (req : Auth.request)
        (a : Auth.t) (configured : string) (att : Auth.attempts) :
  Auth.truthy (Auth.apiKey a) = Some configured ->
  Auth.wrong_key hashApiKey configured (Auth.ip req) req = true ->
  Auth.failedAttempts a !! Auth.ip req = Some att ->
  (Auth.lockoutDuration < now - Auth.lastAttempt att)%Z ->
  Auth.status_of (fst (Auth.authenticateApiKey hashApiKey now req a))
  = Some 401%Z /\
  Auth.failedAttempts
    (snd (Auth.authenticateApiKey hashApiKey now req a)) !! Auth.ip req
  = Some (Auth.mkAttempts 1 now).
Proof.
  intros Hkey Hw Hatt Hold.
  unfold Auth.wrong_key in Hw.
  apply andb_true_iff in Hw as [Hw Hbad].
  apply andb_true_iff in Hw as [Hpub _]. apply negb_true_iff in Hpub.
  unfold Auth.authenticateApiKey, Auth.isLockedOut.
  rewrite Hpub, Hatt. apply Z.ltb_lt in Hold. rewrite Hold.
  cbn [Auth.apiKey Auth.set_failedAttempts]. rewrite Hkey.
  destruct (Auth.truthy (Auth.presented_key req)) as [key|].
  - apply negb_true_iff in Hbad. rewrite Hbad. split; [reflexivity|].
    unfold Auth.recordFailedAttempt. simpl.
    now rewrite lookup_insert_eq, lookup_delete_eq.
  - split; [reflexivity|].
    unfold Auth.recordFailedAttempt. simpl.
    now rewrite lookup_insert_eq, lookup_delete_eq.
Qed.

Lemma stale_record_witness :
  Auth.failedAttempts
    (snd (Auth.authenticateApiKey (fun key => key) 2000000
            (Auth.guess "10.0.0.9" "nope")
            (Auth.mk (Some Auth.sample_key)
                     (<[ "10.0.0.9" := Auth.mkAttempts 5 1000 ]> ∅))))
  !! "10.0.0.9"
  = Some (Auth.mkAttempts 1 2000000).
Proof.
  apply (stale_record_starts_again
           (fun key => key) 2000000 (Auth.guess "10.0.0.9" "nope")
           (Auth.mk (Some Auth.sample_key)
                    (<[ "10.0.0.9" := Auth.mkAttempts 5 1000 ]> ∅))
           Auth.sample_key (Auth.mkAttempts 5 1000));
    reflexivity.
Defined.

(** ** Names *)

(** X23.  Every record [parsePricingData] returns is named with one of the
    five canonical model names, the same vocabulary as the keys of
    [parseUsageData], so that [combineModelData] can look the usage of a
    priced model up by name. *)
Theorem parsePricingData_names_canonical
        (h : Host.t) (rawData : rawPricing) (v : PricingModel.t) :
  In v (parsePricingData h rawData) ->
  In (PricingModel.name v) canonical_names.
Proof.
  intros Hv. unfold parsePricingData in Hv.
  apply In_filter in Hv as [Hboth Hv].
  apply in_map_iff in Hv as (kv & E & Hin).
  destruct kv as [k v']. simpl in E. rewrite E in Hin. clear E v'.
  pose proof (priced_inv_fold h (items_of rawData) [] [] priced_inv_nil)
    as (Hnd & Hsome & _).
  simpl app in *. apply In_map_get in Hin; [|exact Hnd].
  destruct (Hsome _ _ Hin) as (Hn & Hi & _).
  apply both_prices_spec in Hboth as [His _].
  destruct (proj1 Hi His) as (item & _ & He).
  unfold extractModelFromMeter in He.
  apply first_match_In in He as (r & Hr & _ & Hm & _).
  cbn [ModelInfo.model] in Hm. rewrite Hn, <- Hm.
  unfold patterns in Hr. simpl in Hr.
  repeat (destruct Hr as [<-|Hr]; [simpl; tauto|]). destruct Hr.
Qed.

Lemma parsePricingData_names_witness :
  In "gpt-4o" canonical_names.
Proof.
  apply (parsePricingData_names_canonical
           Sample.host Sample.repriced Sample.repriced_record).
  vm_compute. left. reflexivity.
Defined.
